(** * A shallow embedding of the spreadsheet grid, its edit controller,
      its undo history and the assistant patch path.

    The embedded functions come from [App.tsx] (the application shell:
    [createEmptySheet], [updateSheetData], [handleUndo],
    [applyStyleToSelection], [executeMerge], [handleMergeToggle],
    [handleClearFormat], [runAICommand]), from [components/ExcelTable.tsx]
    (the keyboard, editing and pointer handlers and [getMergeInfo]), from
    [components/FormulaSuggestions.tsx] (the filtered catalogue and the
    key handler of the list), from [utils/excelUtils.ts] ([parseExcelFile],
    [hexToARGB]) and from [services/geminiService.ts] (the response
    handling of [processWithAI]).

    Conventions.
    - React state is threaded explicitly: a handler that runs in the
      current render is a function from the state of that render to the
      state after the event.  A handler that resumes after an [await]
      (the answer of the assistant, the reading of an imported file)
      still holds the sheet of the render it was called in: it takes that
      sheet as an argument beside the live state its setters act on.
    - A JavaScript exception ([TypeError]) is the [None] of an [option].
    - A JavaScript array of rows is a list of optional rows: [None] is a
      hole or an [undefined] slot, which appear when the code writes past
      the end of the array.
    - A JavaScript object used as a dictionary is a [gmap].
    - JavaScript numbers stored in cells are kept abstract: the
      development is parametric in the type of numbers and in their
      [toString]. *)

From Stdlib Require Import ZArith Ascii String List Lia.
From Equations Require Import Equations.
From stdpp Require Import gmap strings list fin_maps pretty.

Set Default Proof Using "Type".

(** ** Column labels

    Both [createEmptySheet] and [parseExcelFile] label column [i] with

<<
      let label = ''; let tempIdx = i;
      while (tempIdx >= 0) {
        label = String.fromCharCode((tempIdx % 26) + 65) + label;
        tempIdx = Math.floor(tempIdx / 26) - 1;
      }
>>
    [tempIdx] reaches [-1], so the loop variable is an integer.  The
    index is an array index, far below [2^53]: there the floating-point
    quotient followed by [Math.floor] is the integer quotient, and [%] is
    the remainder. *)

Definition fromCharCode (n : Z) : ascii := ascii_of_N (Z.to_N n).

Equations? label_loop (tempIdx : Z) (label : string) : string
  by wf (Z.to_nat (tempIdx + 1)) lt :=
  label_loop tempIdx label with Z_le_dec 0 tempIdx => {
    | left _ => label_loop (tempIdx / 26 - 1)%Z
                  (String (fromCharCode (tempIdx mod 26 + 65)%Z) label);
    | right _ => label }.
Proof.
  assert (tempIdx / 26 <= tempIdx)%Z by (apply Z.div_le_upper_bound; lia).
  lia.
Qed.

Definition columnLabel (i : nat) : string := label_loop (Z.of_nat i) "".

(** Reading a label back as a number: the letters are the digits [1..26]
    of a base-26 numeral without zero, most significant first, and the
    index is that number minus one.  The source has no such function; it
    is the decoder against which the labelling is checked. *)

Definition letterValue (a : ascii) : Z := (Z.of_N (N_of_ascii a) - 64)%Z.

Fixpoint decode_acc (acc : Z) (s : string) : Z :=
  match s with
  | EmptyString => acc
  | String a s' => decode_acc (acc * 26 + letterValue a)%Z s'
  end.

Definition labelIndex (s : string) : Z := (decode_acc 0 s - 1)%Z.

(** ** JavaScript helpers *)

(** [arr[i] = x] on an array that may be shorter than [i]: the array is
    extended and the slots in between are holes. *)
Definition js_array_set {A} (l : list (option A)) (i : nat) (x : A)
  : list (option A) :=
  if decide (i < length l) then <[i := Some x]> l
  else l ++ replicate (i - length l) None ++ [Some x].

(** [arr[i]]: [undefined] out of range and on a hole. *)
Definition js_array_get {A} (l : list (option A)) (i : nat) : option A :=
  mjoin (l !! i).

(** [arr.findIndex(p)], with [None] for [-1]. *)
Fixpoint findIndex {A} (p : A → bool) (l : list A) : option nat :=
  match l with
  | [] => None
  | x :: l' => if p x then Some 0 else S <$> findIndex p l'
  end.

(** [[...new Set(l)]]: the elements of [l] in order of first occurrence. *)
Fixpoint set_from (seen l : list string) : list string :=
  match l with
  | [] => []
  | x :: l' =>
      if decide (x ∈ seen) then set_from seen l'
      else x :: set_from (x :: seen) l'
  end.

Definition newSet (l : list string) : list string := set_from [] l.

(** [strs.join(' ')]. *)
Fixpoint join_space (l : list string) : string :=
  match l with
  | [] => ""
  | [s] => s
  | s :: l' => s +:+ " " +:+ join_space l'
  end.

(** The decimal printing of an integer: the [toString] of the numbers
    in the instances at the end, where numbers are integers. *)
Definition zToString : Z → string := pretty.

(** The indices visited by [for (let k = lo; k <= hi; k++)]. *)
Definition range_incl (lo hi : nat) : list nat := seq lo (S hi - lo).

(** ** The data model of [types.ts] *)

Inductive FontWeight := FontNormal | FontBold.
Inductive FontStyle := StyleNormal | StyleItalic.
Inductive TextDecoration := DecorationNone | DecorationUnderline.
Inductive Border := BorderNone | BorderThin | BorderMedium | BorderThick.
Inductive TextAlign := AlignLeft | AlignCenter | AlignRight.
Inductive VerticalAlign := AlignTop | AlignMiddle | AlignBottom.
Inductive NumberFormat :=
  FormatGeneral | FormatNumber | FormatCurrency | FormatPercent | FormatDate.
Inductive ChartType := ChartBar | ChartLine | ChartPie.
Inductive Role := RoleUser | RoleAssistant | RoleSystem.
Inductive MergeType := Standard | Content.

Record CellPosition := mkPos {
  rowIndex : nat;
  colIndex : nat;
  colKey : string }.

(** [end] is a keyword, hence [end_]. *)
Record SelectionRange := mkRange {
  start : CellPosition;
  end_ : CellPosition }.

Section Sheet.

(** [Num] is the type of JavaScript numbers, [numToString] their
    [toString] and [numOfZ] the number an integer literal denotes. *)
Context {Num : Type} (numToString : Num → string) (numOfZ : Z → Num).

(** [string | number | boolean | null]. *)
Inductive CellValue :=
| VNull
| VStr (s : string)
| VNum (n : Num)
| VBool (b : bool).

(** Every field of [CellStyle] is optional. *)
Record CellStyle := mkStyle {
  backgroundColor : option string;
  color : option string;
  fontWeight : option FontWeight;
  fontStyle : option FontStyle;
  textDecoration : option TextDecoration;
  fontSize : option Num;
  fontFamily : option string;
  border : option Border;
  borderColor : option string;
  textAlign : option TextAlign;
  verticalAlign : option VerticalAlign;
  wrapText : option bool;
  numberFormat : option NumberFormat;
  precision : option Num }.

Definition emptyStyle : CellStyle :=
  mkStyle None None None None None None None None None None None None None None.

(** [{ ...old, ...patch }]: a field of [patch] wins when it is present. *)
Definition spreadStyle (old patch : CellStyle) : CellStyle :=
  {| backgroundColor := backgroundColor patch ∪ backgroundColor old;
     color := color patch ∪ color old;
     fontWeight := fontWeight patch ∪ fontWeight old;
     fontStyle := fontStyle patch ∪ fontStyle old;
     textDecoration := textDecoration patch ∪ textDecoration old;
     fontSize := fontSize patch ∪ fontSize old;
     fontFamily := fontFamily patch ∪ fontFamily old;
     border := border patch ∪ border old;
     borderColor := borderColor patch ∪ borderColor old;
     textAlign := textAlign patch ∪ textAlign old;
     verticalAlign := verticalAlign patch ∪ verticalAlign old;
     wrapText := wrapText patch ∪ wrapText old;
     numberFormat := numberFormat patch ∪ numberFormat old;
     precision := precision patch ∪ precision old |}.

(** [SheetRow]: an object from column label to cell value. *)
Abbreviation SheetRow := (gmap string CellValue).

(** [SheetData]; the fields marked [?] in the interface are optional. *)
Record SheetData := mkSheet {
  name : string;
  columns : list string;
  rows : list (option SheetRow);
  rowHeights : option (gmap nat Num);
  colWidths : option (gmap string Num);
  cellStyles : option (gmap string CellStyle);
  merges : option (list SelectionRange) }.

Record ChartPoint := mkPoint {
  pointName : string;
  pointValue : Num }.

Record Chart := mkChart {
  chartPoints : list ChartPoint;
  chartKind : ChartType }.

Record Message := mkMessage {
  msgId : string;
  role : Role;
  content : string;
  timestamp : Z;
  chart : option Chart }.

(** [AIProcessingResult].  A row of [updatedRows] may be [null]: the
    consumer filters such entries out. *)
Record AIProcessingResult := mkResult {
  updatedRows : option (list (option SheetRow));
  updatedStyles : option (gmap string CellStyle);
  insight : option string;
  newColumns : option (list string);
  chartData : option (list ChartPoint);
  chartType : option ChartType }.

(** ** Reading cells *)

(** [sheet.columns[c]] used as a property key or inside a template
    string: out of range it is [undefined], which prints as "undefined". *)
Definition columnKey (cols : list string) (c : nat) : string :=
  default "undefined" (cols !! c).

(** [rows[r]?.[key]]: [None] is [undefined]. *)
Definition cellAt (rs : list (option SheetRow)) (r : nat) (key : string)
  : option CellValue :=
  js_array_get rs r ≫= λ row : SheetRow, row !! key.

(** [v.toString()] on a value that is neither [null] nor [undefined]. *)
Definition valueToString (v : CellValue) : string :=
  match v with
  | VNull => ""
  | VStr s => s
  | VNum n => numToString n
  | VBool true => "true"
  | VBool false => "false"
  end.

(** [rows[r]?.[key]?.toString() || '']. *)
Definition stringified (o : option CellValue) : string :=
  match o with
  | Some v => valueToString v
  | None => ""
  end.

(** [val !== null && val !== ''] on a defined value. *)
Definition hasContent (v : CellValue) : bool :=
  match v with
  | VNull => false
  | VStr s => negb (String.eqb s "")
  | _ => true
  end.

(** The normalised rectangle of a selection. *)
Definition minR (s : SelectionRange) : nat :=
  rowIndex (start s) `min` rowIndex (end_ s).
Definition maxR (s : SelectionRange) : nat :=
  rowIndex (start s) `max` rowIndex (end_ s).
Definition minC (s : SelectionRange) : nat :=
  colIndex (start s) `min` colIndex (end_ s).
Definition maxC (s : SelectionRange) : nat :=
  colIndex (start s) `max` colIndex (end_ s).

(** [`${r}-${key}`]. *)
Definition cellId (r : nat) (key : string) : string :=
  pretty r +:+ "-" +:+ key.

(** ** Application state ([App.tsx]) *)

Definition DEFAULT_ROWS : nat := 50.
Definition DEFAULT_COLS : nat := 20.
Definition INITIAL_COL_WIDTH : Z := 100.
Definition INITIAL_ROW_HEIGHT : Z := 24.
Definition MAX_HISTORY_STEPS : nat := 50.

Definition createEmptySheet : SheetData :=
  let columns := columnLabel <$> seq 0 DEFAULT_COLS in
  let colWidths : gmap string Num :=
    foldl (λ m col, <[col := numOfZ INITIAL_COL_WIDTH]> m) ∅ columns in
  let rowHeights : gmap nat Num :=
    foldl (λ m i, <[i := numOfZ INITIAL_ROW_HEIGHT]> m) ∅ (seq 0 DEFAULT_ROWS) in
  let emptyRow : SheetRow :=
    foldl (λ m col, <[col := VNull]> m) ∅ columns in
  {| name := "Sheet1";
     columns := columns;
     rows := replicate DEFAULT_ROWS (Some emptyRow);
     rowHeights := Some rowHeights;
     colWidths := Some colWidths;
     cellStyles := Some ∅;
     merges := Some [] |}.

Record AppState := mkApp {
  sheetData : SheetData;
  history : list SheetData;
  messages : list Message;
  selection : option SelectionRange;
  showMergeModal : bool;
  isProcessing : bool;
  isAssistantOpen : bool }.

Definition initialApp : AppState :=
  {| sheetData := createEmptySheet; history := []; messages := [];
     selection := None; showMergeModal := false; isProcessing := false;
     isAssistantOpen := true |}.

(** The argument of [updateSheetData]: a sheet or a function of the
    previous sheet. *)
Inductive SheetUpdate :=
| NewData (d : SheetData)
| Updater (f : SheetData → SheetData).

(** [updateSheetData]: the sheet of the closure goes to the front of the
    history, which is cut to [MAX_HISTORY_STEPS]; then the new sheet is
    installed. *)
Definition updateSheetData (newData : SheetUpdate) (st : AppState) : AppState :=
  {| sheetData := match newData with
                  | NewData d => d
                  | Updater f => f (sheetData st)
                  end;
     history := take MAX_HISTORY_STEPS (sheetData st :: history st);
     messages := messages st;
     selection := selection st;
     showMergeModal := showMergeModal st;
     isProcessing := isProcessing st;
     isAssistantOpen := isAssistantOpen st |}.

(** [updateSheetData] as held by a handler that was created in an
    earlier render and resumes after an [await]: [sheetData] in its body
    is the sheet of that render, [captured]; the setters act on the live
    state ([prev] is the live history, and the live sheet for a functional
    update).  With the live sheet for [captured] it is [updateSheetData]. *)
Definition updateSheetDataOf (captured : SheetData) (newData : SheetUpdate)
    (st : AppState) : AppState :=
  {| sheetData := match newData with
                  | NewData d => d
                  | Updater f => f (sheetData st)
                  end;
     history := take MAX_HISTORY_STEPS (captured :: history st);
     messages := messages st;
     selection := selection st;
     showMergeModal := showMergeModal st;
     isProcessing := isProcessing st;
     isAssistantOpen := isAssistantOpen st |}.

(** [handleUndo]. *)
Definition handleUndo (st : AppState) : AppState :=
  match history st with
  | [] => st
  | previousState :: rest =>
      {| sheetData := previousState;
         history := rest;
         messages := messages st;
         selection := selection st;
         showMergeModal := showMergeModal st;
         isProcessing := isProcessing st;
         isAssistantOpen := isAssistantOpen st |}
  end.

Definition setSelection (sel : option SelectionRange) (st : AppState) : AppState :=
  {| sheetData := sheetData st; history := history st;
     messages := messages st; selection := sel;
     showMergeModal := showMergeModal st; isProcessing := isProcessing st;
     isAssistantOpen := isAssistantOpen st |}.

Definition setShowMergeModal (b : bool) (st : AppState) : AppState :=
  {| sheetData := sheetData st; history := history st;
     messages := messages st; selection := selection st;
     showMergeModal := b; isProcessing := isProcessing st;
     isAssistantOpen := isAssistantOpen st |}.

Definition withRows (d : SheetData) (rs : list (option SheetRow)) : SheetData :=
  {| name := name d; columns := columns d; rows := rs;
     rowHeights := rowHeights d; colWidths := colWidths d;
     cellStyles := cellStyles d; merges := merges d |}.

Definition withMerges (d : SheetData) (ms : list SelectionRange) : SheetData :=
  {| name := name d; columns := columns d; rows := rows d;
     rowHeights := rowHeights d; colWidths := colWidths d;
     cellStyles := cellStyles d; merges := Some ms |}.

(** *** Merging *)

(** The cells of the rectangle in row-major order, as the two nested
    [for] loops visit them. *)
Definition rectCells (sel : SelectionRange) : list (nat * nat) :=
  r ← range_incl (minR sel) (maxR sel);
  c ← range_incl (minC sel) (maxC sel);
  [(r, c)].

(** [rows[r][columns[c]]]: a [TypeError] ([None]) when the row is
    [undefined]; otherwise the value, which may itself be [undefined]. *)
Definition readCell (d : SheetData) (rs : list (option SheetRow)) (rc : nat * nat)
  : option (option CellValue) :=
  row ← js_array_get rs rc.1;
  Some (row !! columnKey (columns d) rc.2).

(** The first loop of the "content" branch: [contents] after visiting the
    given cells.  [val.toString()] throws on [undefined]. *)
Fixpoint collectContents (d : SheetData) (rs : list (option SheetRow))
    (cells : list (nat * nat)) (contents : list string) : option (list string) :=
  match cells with
  | [] => Some contents
  | rc :: cells' =>
      val ← readCell d rs rc;
      match val with
      | None => None
      | Some v =>
          collectContents d rs cells'
            (if hasContent v then contents ++ [valueToString v] else contents)
      end
  end.

(** [row[key] = v] where [v] may be [undefined]: a property holding
    [undefined] reads like an absent one. *)
Definition assignCell (row : SheetRow) (key : string) (v : option CellValue)
  : SheetRow :=
  match v with
  | Some v => <[key := v]> row
  | None => delete key row
  end.

(** The write loop of [executeMerge]. *)
Definition mergeRow (d : SheetData) (sel : SelectionRange)
    (finalValue : option CellValue) (r : nat) (row : SheetRow) : SheetRow :=
  foldl (λ row c,
           assignCell row (columnKey (columns d) c)
             (if decide (r = minR sel ∧ c = minC sel) then finalValue
              else Some VNull))
        row (range_incl (minC sel) (maxC sel)).

Definition mergeRows (d : SheetData) (sel : SelectionRange)
    (finalValue : option CellValue) (rs : list (option SheetRow))
  : list (option SheetRow) :=
  foldl (λ rs r,
           js_array_set rs r
             (mergeRow d sel finalValue r (default ∅ (js_array_get rs r))))
        rs (range_incl (minR sel) (maxR sel)).

Definition centered : CellStyle :=
  {| backgroundColor := None; color := None; fontWeight := None;
     fontStyle := None; textDecoration := None; fontSize := None;
     fontFamily := None; border := None; borderColor := None;
     textAlign := Some AlignCenter; verticalAlign := Some AlignMiddle;
     wrapText := None; numberFormat := None; precision := None |}.

(** [executeMerge(type)].  [None] is a [TypeError] raised before any
    state is set. *)
Definition executeMerge (type : MergeType) (st : AppState) : option AppState :=
  match selection st with
  | None => Some st
  | Some sel =>
      let d := sheetData st in
      let startColKey := columnKey (columns d) (minC sel) in
      let newRows := rows d in
      finalValue ←
        match type with
        | Standard =>
            row ← js_array_get newRows (minR sel);
            Some ((row : SheetRow) !! startColKey)
        | Content =>
            contents ← collectContents d newRows (rectCells sel) [];
            Some (Some (VStr (join_space contents)))
        end;
      let newRows := mergeRows d sel finalValue newRows in
      let styles : gmap string CellStyle := default ∅ (cellStyles d) in
      let id := cellId (minR sel) startColKey in
      let newStyles :=
        <[id := spreadStyle (default emptyStyle (styles !! id)) centered]> styles in
      Some (setShowMergeModal false
              (updateSheetData
                 (NewData {| name := name d; columns := columns d;
                             rows := newRows;
                             rowHeights := rowHeights d;
                             colWidths := colWidths d;
                             cellStyles := Some newStyles;
                             merges := Some (default [] (merges d) ++ [sel]) |})
                 st))
  end.

(** The predicate of the [findIndex] call of [handleMergeToggle]. *)
Definition sameBounds (sel m : SelectionRange) : bool :=
  bool_decide (minR m = minR sel) && bool_decide (maxR m = maxR sel)
  && bool_decide (minC m = minC sel) && bool_decide (maxC m = maxC sel).

(** The counting loop of [handleMergeToggle]; an [undefined] cell passes
    the test [val !== null && val !== ''] and is counted. *)
Fixpoint countContents (d : SheetData) (cells : list (nat * nat)) (contentCount : nat)
  : option nat :=
  match cells with
  | [] => Some contentCount
  | rc :: cells' =>
      val ← readCell d (rows d) rc;
      countContents d cells'
        (match val with
         | Some v => if hasContent v then S contentCount else contentCount
         | None => S contentCount
         end)
  end.

(** [handleMergeToggle]. *)
Definition handleMergeToggle (st : AppState) : option AppState :=
  match selection st with
  | None => Some st
  | Some sel =>
      let d := sheetData st in
      match findIndex (sameBounds sel) (default [] (merges d)) with
      | Some existingMergeIdx =>
          let newMerges := delete existingMergeIdx (default [] (merges d)) in
          Some (updateSheetData (NewData (withMerges d newMerges)) st)
      | None =>
          contentCount ← countContents d (rectCells sel) 0;
          if decide (1 < contentCount) then Some (setShowMergeModal true st)
          else executeMerge Standard st
      end
  end.

(** ** The table component ([components/ExcelTable.tsx]) *)

Record TableState := mkTable {
  isEditing : bool;
  editingPos : option CellPosition;
  editValue : string;
  suggestionFilter : option string }.

(** The state a handler of the table sees: its own, and the application's
    through the props [data], [selection], [onDataChange] (which is
    [updateSheetData]) and [setSelection]. *)
Record UI := mkUI {
  app : AppState;
  table : TableState }.

Definition onDataChange (newData : SheetData) (ui : UI) : UI :=
  {| app := updateSheetData (NewData newData) (app ui); table := table ui |}.

(** The tail of [handleSaveEdit]: [setIsEditing(false)],
    [setEditingPos(null)], [setSuggestionFilter(null)]. *)
Definition stopEditing (clearFilter : bool) (ui : UI) : UI :=
  {| app := app ui;
     table := {| isEditing := false;
                 editingPos := None;
                 editValue := editValue (table ui);
                 suggestionFilter :=
                   if clearFilter then None else suggestionFilter (table ui) |} |}.

(** [handleSaveEdit(targetPos?, value?)]. *)
Definition handleSaveEdit (targetPos : option CellPosition) (value : option string)
    (ui : UI) : UI :=
  let data := sheetData (app ui) in
  let pos := targetPos ∪ editingPos (table ui) in
  let val := default (editValue (table ui)) value in
  match pos with
  | None => stopEditing false ui
  | Some pos =>
      let currentVal := stringified (cellAt (rows data) (rowIndex pos) (colKey pos)) in
      let ui' :=
        if decide (val ≠ currentVal) then
          let newRows :=
            js_array_set (rows data) (rowIndex pos)
              (<[colKey pos := VStr val]>
                 (default ∅ (js_array_get (rows data) (rowIndex pos)))) in
          onDataChange (withRows data newRows) ui
        else ui in
      stopEditing true ui'
  end.

(** [moveSelection(rowDelta, colDelta, expand)].  [props] is the state of
    the render whose closure the handler runs in: the selection and the
    sheet are read from it, also when the handler has already queued
    other updates, which are in [ui].  Indices are naturals here; on a
    sheet without rows or without columns the source computes [-1], which
    is [0] below. *)
Definition moveSelection (rowDelta colDelta : Z) (expand : bool) (props ui : UI) : UI :=
  match selection (app props) with
  | None => ui
  | Some sel =>
      let data := sheetData (app props) in
      let targetEndR :=
        Z.to_nat (Z.min (Z.of_nat (length (rows data)) - 1)
                    (Z.max 0 (Z.of_nat (rowIndex (end_ sel)) + rowDelta))) in
      let targetEndC :=
        Z.to_nat (Z.min (Z.of_nat (length (columns data)) - 1)
                    (Z.max 0 (Z.of_nat (colIndex (end_ sel)) + colDelta))) in
      let targetColKey := columnKey (columns data) targetEndC in
      let nextEnd := mkPos targetEndR targetEndC targetColKey in
      {| app := setSelection
                  (Some (if expand then mkRange (start sel) nextEnd
                         else mkRange nextEnd nextEnd))
                  (app ui);
         table := table ui |}
  end.

(** The row written by the inner loop of [clearSelectedContent]. *)
Definition clearRow (d : SheetData) (sel : SelectionRange) (row : SheetRow) : SheetRow :=
  foldl (λ newRow c, <[columnKey (columns d) c := VNull]> newRow)
        row (range_incl (minC sel) (maxC sel)).

Definition clearRows (d : SheetData) (sel : SelectionRange)
    (rs : list (option SheetRow)) : list (option SheetRow) :=
  foldl (λ newRows r,
           js_array_set newRows r
             (clearRow d sel (default ∅ (js_array_get newRows r))))
        rs (range_incl (minR sel) (maxR sel)).

(** [clearSelectedContent]. *)
Definition clearSelectedContent (ui : UI) : UI :=
  match selection (app ui) with
  | None => ui
  | Some sel =>
      let data := sheetData (app ui) in
      onDataChange (withRows data (clearRows data sel (rows data))) ui
  end.

(** [startEditing(pos, initialValue)]. *)
Definition startEditing (pos : CellPosition) (initialValue : string) (ui : UI) : UI :=
  {| app := app ui;
     table := {| isEditing := true;
                 editingPos := Some pos;
                 editValue := initialValue;
                 suggestionFilter := suggestionFilter (table ui) |} |}.

(** A keyboard event: [modKey] is [metaKey] on a Mac and [ctrlKey]
    elsewhere. *)
Record KeyEvent := mkKey {
  key : string;
  shiftKey : bool;
  modKey : bool }.

Definition navigationKeys : list string :=
  ["ArrowUp"; "ArrowDown"; "ArrowLeft"; "ArrowRight"; "Tab"; "Enter"; "Escape"].

(** The [switch] of [handleKeyDown]. *)
Definition keySwitch (e : KeyEvent) (ui : UI) : UI :=
  if String.eqb (key e) "ArrowUp" then moveSelection (-1) 0 (shiftKey e) ui ui
  else if String.eqb (key e) "ArrowDown" then moveSelection 1 0 (shiftKey e) ui ui
  else if String.eqb (key e) "ArrowLeft" then moveSelection 0 (-1) (shiftKey e) ui ui
  else if String.eqb (key e) "ArrowRight" then moveSelection 0 1 (shiftKey e) ui ui
  else if String.eqb (key e) "Enter" then
    match selection (app ui) with
    | Some sel =>
        startEditing (start sel)
          (stringified (cellAt (rows (sheetData (app ui)))
                          (rowIndex (start sel)) (colKey (start sel)))) ui
    | None => ui
    end
  else if String.eqb (key e) "Tab" then moveSelection 0 1 false ui ui
  else if String.eqb (key e) "Delete" || String.eqb (key e) "Backspace"
  then clearSelectedContent ui
  else if String.eqb (key e) "Escape" then
    {| app := setSelection None (app ui); table := table ui |}
  else ui.

(** [handleKeyDown]. *)
Definition handleKeyDown (e : KeyEvent) (ui : UI) : UI :=
  if isEditing (table ui) then
    if String.eqb (key e) "Escape" then
      {| app := app ui;
         table := {| isEditing := false;
                     editingPos := editingPos (table ui);
                     editValue := editValue (table ui);
                     suggestionFilter := suggestionFilter (table ui) |} |}
    else if String.eqb (key e) "Enter" then
      moveSelection 1 0 false ui (handleSaveEdit None None ui)
    else if String.eqb (key e) "Tab" then
      moveSelection 0 1 false ui (handleSaveEdit None None ui)
    else ui
  else
    let ui1 := if modKey e then ui else keySwitch e ui in
    if negb (modKey e) && bool_decide (String.length (key e) = 1)
       && negb (bool_decide (key e ∈ navigationKeys))
    then match selection (app ui) with
         | Some sel => startEditing (start sel) (key e) ui1
         | None => ui1
         end
    else ui1.

(** ** The assistant ([services/geminiService.ts], [runAICommand]) *)

(** One entry of the [updatedStyles] array of the response. *)
Record AIStyleUpdate := mkStyleUpdate {
  cellId_ : string;
  style : option CellStyle }.

(** The object [JSON.parse] yields for a response that follows the
    response schema of the request: [updatedRows] is an array whose
    entries are row objects or [null], [updatedStyles] an array of
    [{cellId, style}]. *)
Record RawResponse := mkRaw {
  rawRows : option (list (option SheetRow));
  rawStyles : option (list AIStyleUpdate);
  rawInsight : option string;
  rawNewColumns : option (list string);
  rawChartData : option (list ChartPoint);
  rawChartType : option ChartType }.

(** [JSON.parse] followed by the reading of the parsed value at the type
    above; [None] is the exception [JSON.parse] throws on a text that is
    not valid JSON. *)
Context (JSON_parse : string → option RawResponse).

Definition PARSE_FAILURE_INSIGHT : string :=
  "AI 响应解析失败，请稍后重试。".

Definition DEFAULT_INSIGHT : string := "已完成您的 AI 任务。".

(** The [forEach] that turns the style array into a map: an entry with an
    empty [cellId] or without [style] is skipped, a later entry for the
    same cell replaces an earlier one. *)
Definition styleMapOf (items : list AIStyleUpdate) : gmap string CellStyle :=
  foldl (λ styleMap item,
           match style item with
           | Some st =>
               if String.eqb (cellId_ item) "" then styleMap
               else <[cellId_ item := st]> styleMap
           | None => styleMap
           end)
        ∅ items.

(** [x || y] on strings: [undefined] and the empty string are falsy. *)
Definition orString (x : option string) (y : string) : string :=
  match x with
  | Some s => if String.eqb s "" then y else s
  | None => y
  end.

(** The [try]/[catch] at the end of [processWithAI], from the text of
    the response ([undefined] is [None]): [response.text || '{}'] is
    parsed, and a failure is caught. *)
Definition processWithAI (responseText : option string) : AIProcessingResult :=
  let text := orString responseText "{}" in
  match JSON_parse text with
  | Some parsed =>
      {| updatedRows := filter is_Some <$> rawRows parsed;
         updatedStyles := styleMapOf <$> rawStyles parsed;
         insight := rawInsight parsed;
         newColumns := rawNewColumns parsed;
         chartData := rawChartData parsed;
         chartType := rawChartType parsed |}
  | None =>
      {| updatedRows := None; updatedStyles := None;
         insight := Some PARSE_FAILURE_INSIGHT;
         newColumns := None; chartData := None; chartType := None |}
  end.

(** [{ ...(mergedStyles[cellId] || {}), ...style }] for every entry of
    the style patch. *)
Definition mergeStyles (patch styles : gmap string CellStyle) : gmap string CellStyle :=
  map_fold (λ id st mergedStyles,
              <[id := spreadStyle (default emptyStyle (mergedStyles !! id)) st]>
                mergedStyles)
           styles patch.

(** The sheet [runAICommand] builds from a result, and whether it has
    changes. *)
Definition applyResult (result : AIProcessingResult) (d : SheetData)
  : SheetData * bool :=
  let '(d1, hasChanges1) :=
    match updatedRows result with
    | Some rs =>
        let cleanedRows := filter is_Some rs in
        if decide (0 < length cleanedRows) then
          ({| name := name d;
              columns := match newColumns result with
                         | Some cs => newSet (columns d ++ cs)
                         | None => columns d
                         end;
              rows := cleanedRows;
              rowHeights := rowHeights d; colWidths := colWidths d;
              cellStyles := cellStyles d; merges := merges d |}, true)
        else (d, false)
    | None => (d, false)
    end in
  match updatedStyles result with
  | Some patch =>
      ({| name := name d1; columns := columns d1; rows := rows d1;
          rowHeights := rowHeights d1; colWidths := colWidths d1;
          cellStyles := Some (mergeStyles patch (default ∅ (cellStyles d1)));
          merges := merges d1 |}, true)
  | None => (d1, hasChanges1)
  end.

(** [runAICommand], from the moment the response arrives.  The function
    was called in an earlier render and has awaited the response since:
    [sheetData] and [updateSheetData] in its body are those of that
    render, whose sheet is [captured], whereas [st] is the live state the
    setters act on; events handled during the request may have made the
    two differ.  [response] is [None] when the request itself fails: the
    [catch] of [runAICommand] logs the error and the [finally] clears the
    processing flag.  [now] is the reading of the clock. *)
Definition runAICommand (captured : SheetData) (response : option (option string))
    (now : Z) (st : AppState) : AppState :=
  let st1 :=
    match response with
    | None => st
    | Some responseText =>
        let result := processWithAI responseText in
        let '(updatedSheet, hasChanges) := applyResult result captured in
        let st' :=
          if hasChanges then updateSheetDataOf captured (NewData updatedSheet) st
          else st in
        let assistantMessage :=
          {| msgId := pretty now;
             role := RoleAssistant;
             content := orString (insight result) DEFAULT_INSIGHT;
             timestamp := now;
             chart := match chartData result with
                      | Some (p :: ps) =>
                          Some (mkChart (p :: ps) (default ChartBar (chartType result)))
                      | _ => None
                      end |} in
        {| sheetData := sheetData st'; history := history st';
           messages := messages st' ++ [assistantMessage];
           selection := selection st'; showMergeModal := showMergeModal st';
           isProcessing := isProcessing st'; isAssistantOpen := isAssistantOpen st' |}
    end in
  {| sheetData := sheetData st1; history := history st1;
     messages := messages st1; selection := selection st1;
     showMergeModal := showMergeModal st1; isProcessing := false;
     isAssistantOpen := true |}.

(** ** Events

    The events of a session.  [SaveEdit] is any call of [handleSaveEdit]
    (the blur of the cell editor, a click on another cell or on a
    header); [SetSelection] and [SetTable] stand for the handlers that
    only move the selection or only change the state of the table (mouse
    selection, [startEditing], typing in the editor); [DataChange] stands
    for the handlers that hand a sheet to [updateSheetData] in the render
    they were created in and are not modelled one by one (styling,
    clearing formats, resizing).  [AIResponse] and [Import] complete an
    asynchronous request (the answer of the assistant, the reading of a
    file): they carry the sheet of the render in which the request was
    made, [captured], which is the sheet their closure still holds. *)

Inductive Event :=
| KeyDown (e : KeyEvent)
| SaveEdit (targetPos : option CellPosition) (value : option string)
| SetSelection (sel : option SelectionRange)
| SetTable (t : TableState)
| Undo
| MergeToggle
| ExecuteMerge (type : MergeType)
| AIResponse (captured : SheetData) (response : option (option string)) (now : Z)
| Import (captured : SheetData) (data : SheetData)
| DataChange (newData : SheetUpdate).

(** A handler of the application that raises an exception has set no
    state before: the state is the one before the event. *)
Definition inApp (h : AppState → option AppState) (ui : UI) : UI :=
  {| app := default (app ui) (h (app ui)); table := table ui |}.

Definition step (ev : Event) (ui : UI) : UI :=
  match ev with
  | KeyDown e => handleKeyDown e ui
  | SaveEdit targetPos value => handleSaveEdit targetPos value ui
  | SetSelection sel => {| app := setSelection sel (app ui); table := table ui |}
  | SetTable t => {| app := app ui; table := t |}
  | Undo => inApp (λ st, Some (handleUndo st)) ui
  | MergeToggle => inApp handleMergeToggle ui
  | ExecuteMerge type => inApp (executeMerge type) ui
  | AIResponse captured response now =>
      inApp (λ st, Some (runAICommand captured response now st)) ui
  | Import captured data =>
      inApp (λ st, Some (updateSheetDataOf captured (NewData data) st)) ui
  | DataChange newData => inApp (λ st, Some (updateSheetData newData st)) ui
  end.

Definition run (evs : list Event) (ui : UI) : UI := foldl (λ ui ev, step ev ui) ui evs.

Definition initialUI : UI :=
  {| app := initialApp;
     table := {| isEditing := false; editingPos := None; editValue := "";
                 suggestionFilter := None |} |}.



(** ** Styling a selection ([App.tsx]) *)

Definition withStyles (d : SheetData) (styles : gmap string CellStyle) : SheetData :=
  {| name := name d; columns := columns d; rows := rows d;
     rowHeights := rowHeights d; colWidths := colWidths d;
     cellStyles := Some styles; merges := merges d |}.

(** The style key of the cell the loops visit at [(r, c)]. *)
Definition rectCellId (d : SheetData) (rc : nat * nat) : string :=
  cellId rc.1 (columnKey (columns d) rc.2).

(** [applyStyleToSelection(style)]. *)
Definition applyStyleToSelection (style : CellStyle) (st : AppState) : AppState :=
  match selection st with
  | None => st
  | Some sel =>
      let d := sheetData st in
      let newStyles :=
        foldl (λ (newStyles : gmap string CellStyle) rc,
                 <[rectCellId d rc :=
                     spreadStyle (default emptyStyle (newStyles !! rectCellId d rc))
                       style]> newStyles)
              (default ∅ (cellStyles d)) (rectCells sel) in
      updateSheetData (NewData (withStyles d newStyles)) st
  end.

(** [handleClearFormat]. *)
Definition handleClearFormat (st : AppState) : AppState :=
  match selection st with
  | None => st
  | Some sel =>
      let d := sheetData st in
      let newStyles :=
        foldl (λ (newStyles : gmap string CellStyle) rc,
                 delete (rectCellId d rc) newStyles)
              (default ∅ (cellStyles d)) (rectCells sel) in
      updateSheetData (NewData (withStyles d newStyles)) st
  end.

(** ** Merge lookup for rendering ([getMergeInfo]) *)

(** [{ isRoot: true, rowSpan, colSpan }] or [{ isRoot: false }]. *)
Inductive MergeInfo :=
| RootCell (rowSpan colSpan : nat)
| CoveredCell.

(** The body of the [for ... of] loop: the answer of the first region that
    contains the cell. *)
Fixpoint mergeInfoIn (ms : list SelectionRange) (rIdx cIdx : nat)
  : option MergeInfo :=
  match ms with
  | [] => None
  | merge :: ms' =>
      if bool_decide (rIdx = minR merge) && bool_decide (cIdx = minC merge)
      then Some (RootCell (maxR merge - minR merge + 1) (maxC merge - minC merge + 1))
      else if bool_decide (minR merge ≤ rIdx) && bool_decide (rIdx ≤ maxR merge)
              && bool_decide (minC merge ≤ cIdx) && bool_decide (cIdx ≤ maxC merge)
      then Some CoveredCell
      else mergeInfoIn ms' rIdx cIdx
  end.

(** [getMergeInfo(rIdx, cIdx)]; [None] is [null]. *)
Definition getMergeInfo (data : SheetData) (rIdx cIdx : nat) : option MergeInfo :=
  match merges data with
  | None => None
  | Some ms => mergeInfoIn ms rIdx cIdx
  end.

(** ** Pointer selection ([components/ExcelTable.tsx]) *)

Inductive SelectionMode := CellMode | RowMode | ColMode.

(** The two pieces of state of the table that only the pointer handlers
    use, beside the state of the keyboard handlers. *)
Record Grid := mkGrid {
  ui : UI;
  isMouseDown : bool;
  selectionMode : option SelectionMode }.

(** [data.rows.length - 1] and [data.columns.length - 1] as indices; as
    in [moveSelection], the [-1] of an empty list is [0] here. *)
Definition lastRow (d : SheetData) : nat := length (rows d) - 1.
Definition lastCol (d : SheetData) : nat := length (columns d) - 1.

Definition samePosition (p : CellPosition) (rowIndex_ : nat) (colKey_ : string) : bool :=
  bool_decide (rowIndex p = rowIndex_) && String.eqb (colKey p) colKey_.

(** [handleMouseDown(rowIndex, colIndex, colKey)].  The tests on
    [isEditing] and [editingPos] read the render the event arrived in. *)
Definition handleMouseDown (rowIndex_ colIndex_ : nat) (colKey_ : string)
    (g : Grid) : Grid :=
  let t := table (ui g) in
  let ui1 :=
    match editingPos t with
    | Some ep =>
        if isEditing t && negb (samePosition ep rowIndex_ colKey_)
        then handleSaveEdit None None (ui g) else ui g
    | None => ui g
    end in
  let pos := mkPos rowIndex_ colIndex_ colKey_ in
  let keepEditing :=
    match editingPos t with
    | Some ep => samePosition ep rowIndex_ colKey_
    | None => false
    end in
  {| ui := {| app := setSelection (Some (mkRange pos pos)) (app ui1);
              table := if keepEditing then table ui1
                       else {| isEditing := false; editingPos := None;
                               editValue := editValue (table ui1);
                               suggestionFilter := suggestionFilter (table ui1) |} |};
     isMouseDown := true;
     selectionMode := Some CellMode |}.

Definition withSelection (sel : SelectionRange) (g : Grid) : Grid :=
  {| ui := {| app := setSelection (Some sel) (app (ui g)); table := table (ui g) |};
     isMouseDown := isMouseDown g;
     selectionMode := selectionMode g |}.

(** [handleMouseEnter(rowIndex, colIndex, colKey)]. *)
Definition handleMouseEnter (rowIndex_ colIndex_ : nat) (colKey_ : string)
    (g : Grid) : Grid :=
  let data := sheetData (app (ui g)) in
  match selection (app (ui g)) with
  | Some sel =>
      if isMouseDown g then
        match selectionMode g with
        | Some CellMode =>
            withSelection (mkRange (start sel) (mkPos rowIndex_ colIndex_ colKey_)) g
        | Some ColMode =>
            withSelection (mkRange (start sel) (mkPos (lastRow data) colIndex_ colKey_)) g
        | Some RowMode =>
            withSelection
              (mkRange (start sel)
                 (mkPos rowIndex_ (lastCol data) (columnKey (columns data) (lastCol data))))
              g
        | None => g
        end
      else g
  | None => g
  end.

(** [if (isEditing) handleSaveEdit()]. *)
Definition saveIfEditing (u : UI) : UI :=
  if isEditing (table u) then handleSaveEdit None None u else u.

(** [handleColHeaderMouseDown(e, colKey, colIndex)]; [onResizer] tells
    whether the target of the event is the resize handle. *)
Definition handleColHeaderMouseDown (onResizer : bool) (colKey_ : string)
    (colIndex_ : nat) (g : Grid) : Grid :=
  if onResizer then g
  else
    let data := sheetData (app (ui g)) in
    let ui1 := saveIfEditing (ui g) in
    let startPos := mkPos 0 colIndex_ colKey_ in
    let endPos := mkPos (lastRow data) colIndex_ colKey_ in
    {| ui := {| app := setSelection (Some (mkRange startPos endPos)) (app ui1);
                table := table ui1 |};
       isMouseDown := true;
       selectionMode := Some ColMode |}.

(** [handleColHeaderMouseEnter(colKey, colIndex)]. *)
Definition handleColHeaderMouseEnter (colKey_ : string) (colIndex_ : nat)
    (g : Grid) : Grid :=
  let data := sheetData (app (ui g)) in
  match selection (app (ui g)), selectionMode g with
  | Some sel, Some ColMode =>
      if isMouseDown g
      then withSelection (mkRange (start sel) (mkPos (lastRow data) colIndex_ colKey_)) g
      else g
  | _, _ => g
  end.

(** [handleRowHeaderMouseDown(e, rowIndex)]. *)
Definition handleRowHeaderMouseDown (onResizer : bool) (rowIndex_ : nat)
    (g : Grid) : Grid :=
  if onResizer then g
  else
    let data := sheetData (app (ui g)) in
    let ui1 := saveIfEditing (ui g) in
    let startPos := mkPos rowIndex_ 0 (columnKey (columns data) 0) in
    let endPos :=
      mkPos rowIndex_ (lastCol data) (columnKey (columns data) (lastCol data)) in
    {| ui := {| app := setSelection (Some (mkRange startPos endPos)) (app ui1);
                table := table ui1 |};
       isMouseDown := true;
       selectionMode := Some RowMode |}.

(** [handleRowHeaderMouseEnter(rowIndex)]. *)
Definition handleRowHeaderMouseEnter (rowIndex_ : nat) (g : Grid) : Grid :=
  let data := sheetData (app (ui g)) in
  match selection (app (ui g)), selectionMode g with
  | Some sel, Some RowMode =>
      if isMouseDown g
      then withSelection
             (mkRange (start sel)
                (mkPos rowIndex_ (lastCol data)
                   (columnKey (columns data) (lastCol data)))) g
      else g
  | _, _ => g
  end.

(** [handleSelectAll]. *)
Definition handleSelectAll (g : Grid) : Grid :=
  let data := sheetData (app (ui g)) in
  let ui1 := saveIfEditing (ui g) in
  let startPos := mkPos 0 0 (columnKey (columns data) 0) in
  let endPos :=
    mkPos (lastRow data) (lastCol data) (columnKey (columns data) (lastCol data)) in
  {| ui := {| app := setSelection (Some (mkRange startPos endPos)) (app ui1);
              table := table ui1 |};
     isMouseDown := isMouseDown g;
     selectionMode := None |}.

(** [handleMouseUpGlobal]. *)
Definition handleMouseUpGlobal (g : Grid) : Grid :=
  {| ui := ui g; isMouseDown := false; selectionMode := None |}.

(** ** Text helpers

    Strings are sequences of bytes.  The two helpers below are applied to
    ASCII text only (letters typed after [=], colour codes), on which
    they are the [toUpperCase] and the [/[A-Z]/i] of the source. *)

Definition isLetter (a : ascii) : bool :=
  let n := nat_of_ascii a in
  (Nat.leb 65 n && Nat.leb n 90) || (Nat.leb 97 n && Nat.leb n 122).

Definition upperChar (a : ascii) : ascii :=
  let n := nat_of_ascii a in
  if Nat.leb 97 n && Nat.leb n 122 then ascii_of_nat (n - 32) else a.

Fixpoint toUpperCase (s : string) : string :=
  match s with
  | EmptyString => EmptyString
  | String a s' => String (upperChar a) (toUpperCase s')
  end.

Fixpoint allLetters (s : string) : bool :=
  match s with
  | EmptyString => true
  | String a s' => isLetter a && allLetters s'
  end.

Definition isDigit (a : ascii) : bool :=
  let n := nat_of_ascii a in Nat.leb 48 n && Nat.leb n 57.

Fixpoint allDigits (s : string) : bool :=
  match s with
  | EmptyString => true
  | String a s' => isDigit a && allDigits s'
  end.

(** The digits of a colour code. *)
Definition isHexDigit (a : ascii) : bool :=
  let n := nat_of_ascii a in
  (Nat.leb 48 n && Nat.leb n 57) || (Nat.leb 65 n && Nat.leb n 70)
  || (Nat.leb 97 n && Nat.leb n 102).

Fixpoint allHex (s : string) : bool :=
  match s with
  | EmptyString => true
  | String a s' => isHexDigit a && allHex s'
  end.

(** ** Formula entry ([handleInputChange], [onSelectSuggestion]) *)

(** [val.match(re)] for the case-insensitive pattern [re] that reads an
    equals sign, a captured run of letters [A-Z] and the end of the
    input: the capture of the leftmost match, that is, the text after the
    first [=] that is followed by letters only up to the end. *)
Fixpoint matchFormulaTail (val : string) : option string :=
  match val with
  | EmptyString => None
  | String a val' =>
      if Ascii.eqb a "=" && allLetters val' then Some val'
      else matchFormulaTail val'
  end.

(** [handleInputChange], from the new value of the input. *)
Definition handleInputChange (val : string) (u : UI) : UI :=
  {| app := app u;
     table := {| isEditing := isEditing (table u);
                 editingPos := editingPos (table u);
                 editValue := val;
                 suggestionFilter :=
                   if String.prefix "=" val then matchFormulaTail val else None |} |}.

(** [onSelectSuggestion(fnName)]. *)
Definition onSelectSuggestion (fnName : string) (u : UI) : UI :=
  {| app := app u;
     table := {| isEditing := isEditing (table u);
                 editingPos := editingPos (table u);
                 editValue := "=" +:+ fnName +:+ "(";
                 suggestionFilter := None |} |}.

(** ** Formula suggestions ([components/FormulaSuggestions.tsx]) *)

Record FunctionDoc := mkDoc {
  docName : string;
  params : string;
  desc : string }.

Definition SUPPORTED_FUNCTIONS : list FunctionDoc :=
  [ mkDoc "ABS" "number" "返回数字的绝对值";
    mkDoc "AVERAGE" "number1, [number2], ..." "返回参数的平均值";
    mkDoc "CONCAT" "text1, [text2], ..." "将多个文本项合并为一个";
    mkDoc "COUNT" "value1, [value2], ..." "计算包含数字的单元格个数";
    mkDoc "DATE" "year, month, day" "返回特定日期的序列号";
    mkDoc "IF" "logical_test, value_if_true, value_if_false" "根据条件判断返回对应值";
    mkDoc "LEN" "text" "返回文本字符串中的字符个数";
    mkDoc "LOWER" "text" "将文本转换为全小写";
    mkDoc "MAX" "number1, [number2], ..." "返回一组值中的最大值";
    mkDoc "MIN" "number1, [number2], ..." "返回一组值中的最小值";
    mkDoc "NOW" "" "返回当前日期和时间的序列号";
    mkDoc "ROUND" "number, num_digits" "按指定位数对数字进行四舍五入";
    mkDoc "SUM" "number1, [number2], ..." "计算单元格区域中所有数值的和";
    mkDoc "TRIM" "text" "移除文本中多余的空格";
    mkDoc "UPPER" "text" "将文本转换为全大写" ].

(** [f.name.startsWith(filter.toUpperCase())]. *)
Definition matchesFilter (filter : string) (f : FunctionDoc) : bool :=
  String.prefix (toUpperCase filter) (docName f).

(** [SUPPORTED_FUNCTIONS.filter(...).slice(0, 10)]. *)
Definition filtered (filter : string) : list FunctionDoc :=
  take 10 (List.filter (matchesFilter filter) SUPPORTED_FUNCTIONS).

(** What the key handler of the suggestion list asks of the table. *)
Inductive SuggestionAction :=
| NoAction
| SelectFunction (fnName : string)
| AIRequest.

(** The [keydown] handler of the suggestion list: the next highlighted
    index and the callback it calls.  The index ranges over the filtered
    functions and one more entry, the request to the assistant. *)
Definition suggestionsKeyDown (key_ : string) (filter : string)
    (selectedIndex : nat) : nat * SuggestionAction :=
  let n := Z.of_nat (length (filtered filter)) in
  let prev := Z.of_nat selectedIndex in
  if String.eqb key_ "ArrowDown" then
    (Z.to_nat ((prev + 1) mod (n + 1)), NoAction)
  else if String.eqb key_ "ArrowUp" then
    (Z.to_nat ((prev - 1 + (n + 1)) mod (n + 1)), NoAction)
  else if String.eqb key_ "Enter" || String.eqb key_ "Tab" then
    if bool_decide (selectedIndex = length (filtered filter)) then
      (selectedIndex, AIRequest)
    else
      match filtered filter !! selectedIndex with
      | Some f => (selectedIndex, SelectFunction (docName f))
      | None => (selectedIndex, NoAction)
      end
  else (selectedIndex, NoAction).

(** The callbacks the table passes: [onSelect] is [onSelectSuggestion],
    [onAIRequest] clears the filter. *)
Definition applySuggestionAction (a : SuggestionAction) (u : UI) : UI :=
  match a with
  | NoAction => u
  | SelectFunction fnName => onSelectSuggestion fnName u
  | AIRequest =>
      {| app := app u;
         table := {| isEditing := isEditing (table u);
                     editingPos := editingPos (table u);
                     editValue := editValue (table u);
                     suggestionFilter := None |} |}
  end.

(** ** Import and export helpers ([utils/excelUtils.ts]) *)

(** The row object built by [columns.forEach((col, idx) => ...)] from a
    row array of the worksheet; an entry of the array may be [undefined]
    ([None]) and then reads as [null]. *)
Definition parseRow (columns : list string) (rowArr : list (option CellValue))
  : SheetRow :=
  foldl (λ (rowObj : SheetRow) (ic : nat * string),
           <[ic.2 := default VNull (mjoin (rowArr !! ic.1))]> rowObj)
        ∅ (zip (seq 0 (length columns)) columns).

(** [parseExcelFile], from the name of the first worksheet and the array
    of row arrays [XLSX.utils.sheet_to_json] returns for it; reading the
    file and the workbook is outside. *)
Definition parseExcelFile (firstSheetName : string)
    (jsonData : list (list (option CellValue))) : SheetData :=
  match jsonData with
  | [] =>
      {| name := firstSheetName; columns := ["A"];
         rows := [Some ({[ "A" := VNull ]} : SheetRow)];
         rowHeights := None; colWidths := None; cellStyles := None;
         merges := None |}
  | _ =>
      let maxCols := max_list (length <$> jsonData) in
      let columns := columnLabel <$> seq 0 maxCols in
      {| name := firstSheetName; columns := columns;
         rows := (λ rowArr, Some (parseRow columns rowArr)) <$> jsonData;
         rowHeights := None; colWidths := None; cellStyles := None;
         merges := None |}
  end.

(** [hex.replace('#', '')]: the first [#] is removed. *)
Fixpoint removeFirstHash (s : string) : string :=
  match s with
  | EmptyString => EmptyString
  | String a s' => if Ascii.eqb a "#" then s' else String a (removeFirstHash s')
  end.

(** [hexToARGB(hex)]; [None] is [undefined], as argument and as result. *)
Definition hexToARGB (hex : option string) : option string :=
  match hex with
  | None => None
  | Some h =>
      if String.eqb h "" then None
      else Some ("FF" +:+ toUpperCase (removeFirstHash h))
  end.

(** ** Notions used in the statements *)


(** A step that either leaves the sheet and the history alone or has the
    effect of one call of [updateSheetData] on them. *)
Definition viaMutationPath (st st' : AppState) : Prop :=
  (sheetData st' = sheetData st ∧ history st' = history st)
  ∨ (∃ u, sheetData st' = sheetData (updateSheetData u st)
          ∧ history st' = history (updateSheetData u st)).

(** The closure of an event that completes an asynchronous request
    holds the live sheet: nothing has changed the sheet since the request
    was made.  The other events are handled in the current render. *)
Definition closureIsLive (ev : Event) (ui : UI) : Prop :=
  match ev with
  | AIResponse captured _ _ | Import captured _ => captured = sheetData (app ui)
  | _ => True
  end.

(** The rows [handleSaveEdit] writes. *)
Definition savedRows (data : SheetData) (pos : CellPosition) (val : string)
  : list (option SheetRow) :=
  js_array_set (rows data) (rowIndex pos)
    (<[colKey pos := VStr val]>
       (default ∅ (js_array_get (rows data) (rowIndex pos)))).

(** The labels of the columns of a rectangle. *)
Definition rectKeys (d : SheetData) (sel : SelectionRange) : list string :=
  columnKey (columns d) <$> range_incl (minC sel) (maxC sel).

(** The defined values of the cells of the rectangle, in the order of
    [rectCells]. *)
Definition rectValues (d : SheetData) (sel : SelectionRange) : list CellValue :=
  omap (λ rc, cellAt (rows d) rc.1 (columnKey (columns d) rc.2)) (rectCells sel).

(** The message [runAICommand] appends after a parse failure. *)
Definition fallbackMessage (now : Z) : Message :=
  {| msgId := pretty now; role := RoleAssistant;
     content := PARSE_FAILURE_INSIGHT; timestamp := now; chart := None |}.

(** The cell [(r, c)] lies in the normalised rectangle of a range. *)
Definition covers (m : SelectionRange) (r c : nat) : Prop :=
  minR m ≤ r ≤ maxR m ∧ minC m ≤ c ≤ maxC m.

(** The style the response handling keeps for a cell: that of the last
    entry of the style array for the cell that has a style, none for the
    empty key. *)
Definition lastStyleFor (id : string) (items : list AIStyleUpdate)
  : option CellStyle :=
  if decide (id = "") then None
  else last (omap (λ item, if decide (cellId_ item = id) then style item else None)
               items).

(** The pointer entering the cells of [path] one after the other. *)
Definition enterCells (path : list CellPosition) (g : Grid) : Grid :=
  foldl (λ g p, handleMouseEnter (rowIndex p) (colIndex p) (colKey p) g) g path.

(** ** Sample sheets and states

    The inputs at which the statements are instantiated further down. *)

(** A two by two block holding "A", "B", [null], "C", selected whole. *)
Definition blockSheet : SheetData :=
  {| name := "Sheet1";
     columns := ["A"; "B"];
     rows := [Some {[ "A" := VStr "A"; "B" := VStr "B" ]};
              Some {[ "A" := VNull; "B" := VStr "C" ]}];
     rowHeights := None; colWidths := None; cellStyles := None;
     merges := Some [] |}.

Definition blockSelection : SelectionRange :=
  mkRange (mkPos 0 0 "A") (mkPos 1 1 "B").

Definition blockApp : AppState :=
  {| sheetData := blockSheet; history := []; messages := [];
     selection := Some blockSelection; showMergeModal := false;
     isProcessing := false; isAssistantOpen := true |}.

(** The block after a merge of its content. *)
Definition mergedApp : AppState :=
  default blockApp (executeMerge Content blockApp).

(** The block with its first row selected, outside edit mode, and the
    Delete key. *)
Definition blockUI : UI :=
  {| app := {| sheetData := blockSheet; history := []; messages := [];
               selection := Some (mkRange (mkPos 0 0 "A") (mkPos 0 1 "B"));
               showMergeModal := false; isProcessing := false;
               isAssistantOpen := true |};
     table := {| isEditing := false; editingPos := None; editValue := "";
                 suggestionFilter := None |} |}.

Definition deleteKey : KeyEvent := mkKey "Delete" false false.

(** Sheets named by their rank, and fifty-one mutations to them. *)
Definition rankedSheet (i : nat) : SheetData :=
  {| name := pretty i; columns := []; rows := [];
     rowHeights := None; colWidths := None; cellStyles := None;
     merges := None |}.


(** A sheet with the number five in A1 and [null] in A2, and an editor
    bound to a cell of its column with a buffer. *)
Definition fiveSheet : SheetData :=
  {| name := "Sheet1";
     columns := ["A"];
     rows := [Some {[ "A" := VNum (numOfZ 5) ]}; Some {[ "A" := VNull ]}];
     rowHeights := None; colWidths := None; cellStyles := None;
     merges := None |}.

Definition editing (r : nat) (buffer : string) : UI :=
  {| app := {| sheetData := fiveSheet; history := []; messages := [];
               selection := Some (mkRange (mkPos r 0 "A") (mkPos r 0 "A"));
               showMergeModal := false; isProcessing := false;
               isAssistantOpen := true |};
     table := {| isEditing := true; editingPos := Some (mkPos r 0 "A");
                 editValue := buffer; suggestionFilter := None |} |}.

(** A parser that accepts the empty object only; a response with new
    column labels and no rows; a response with both. *)
Definition parseEmptyObject (text : string) : option RawResponse :=
  if String.eqb text "{}" then Some (mkRaw None None None None None None)
  else None.

Definition parseColumnsOnly (text : string) : option RawResponse :=
  Some (mkRaw None None (Some "Added a column.") (Some ["Total"]) None None).

Definition parseRowsAndColumns (text : string) : option RawResponse :=
  Some (mkRaw (Some [Some {[ "A" := VStr "1"; "Total" := VStr "2" ]}; None])
          None None (Some ["B"; "Total"; "Total"]) None None).

(** The table on the block, and on the sheet with the number five while
    a cell is being edited, with no button held. *)
Definition blockGrid : Grid :=
  {| ui := blockUI; isMouseDown := false; selectionMode := None |}.

Definition editingGrid (r : nat) (buffer : string) : Grid :=
  {| ui := editing r buffer; isMouseDown := false; selectionMode := None |}.

Definition arrowDown : KeyEvent := mkKey "ArrowDown" false false.
Definition enterKey : KeyEvent := mkKey "Enter" false false.

(** The sheet with the number five, A2 selected, outside edit mode. *)
Definition fiveUI : UI :=
  {| app := {| sheetData := fiveSheet; history := []; messages := [];
               selection := Some (mkRange (mkPos 1 0 "A") (mkPos 1 0 "A"));
               showMergeModal := false; isProcessing := true;
               isAssistantOpen := true |};
     table := {| isEditing := false; editingPos := None; editValue := "";
                 suggestionFilter := None |} |}.

(** A response that asks for bold text in A1 and carries no rows. *)
Definition boldStyle : CellStyle :=
  {| backgroundColor := None; color := None; fontWeight := Some FontBold;
     fontStyle := None; textDecoration := None; fontSize := None;
     fontFamily := None; border := None; borderColor := None;
     textAlign := None; verticalAlign := None;
     wrapText := None; numberFormat := None; precision := None |}.

Definition parseBoldA1 (text : string) : option RawResponse :=
  Some (mkRaw None (Some [mkStyleUpdate "0-A" (Some boldStyle)])
          (Some "A1 is bold now.") None None None).

(** The scenario of the specification on the fresh sheet of fifty rows
    and twenty columns, with content added first: "x" is typed into A1
    and "y" into E1; then A1 is selected, Shift+ArrowRight is pressed
    three times and Delete once. *)
Definition cellSelection (r c : nat) : option SelectionRange :=
  Some (mkRange (mkPos r c (columnLabel c)) (mkPos r c (columnLabel c))).

Definition scenario : list Event :=
  [ SetSelection (cellSelection 0 0);
    KeyDown (mkKey "x" false false); KeyDown (mkKey "Enter" false false);
    SetSelection (cellSelection 0 4);
    KeyDown (mkKey "y" false false); KeyDown (mkKey "Enter" false false);
    SetSelection (cellSelection 0 0);
    KeyDown (mkKey "ArrowRight" true false);
    KeyDown (mkKey "ArrowRight" true false);
    KeyDown (mkKey "ArrowRight" true false);
    KeyDown deleteKey ].

(** * Properties *)

(** Propositional goals, solved without the parameters of the section
    they do not mention. *)
Ltac prop_solver :=
  try clear JSON_parse; try clear numOfZ; try clear numToString;
  tauto.

(** ** Column labels are read back as their index *)

Lemma letterValue_fromCharCode (n : Z) :
  (0 ≤ n < 256)%Z → letterValue (fromCharCode n) = (n - 64)%Z.
Proof.
  intros Hn. unfold letterValue, fromCharCode.
  rewrite N_ascii_embedding by lia. lia.
Qed.

Lemma decode_acc_shift (s : string) : ∀ acc,
  decode_acc acc s
  = (acc * 26 ^ Z.of_nat (String.length s) + decode_acc 0 s)%Z.
Proof.
  induction s as [|a s IH]; intros acc; simpl String.length; simpl decode_acc.
  - lia.
  - rewrite (IH (acc * 26 + letterValue a)%Z), (IH (0 * 26 + letterValue a)%Z).
    rewrite Nat2Z.inj_succ, Z.pow_succ_r by lia. ring.
Qed.

(** The invariant of the labelling loop: what is still to be written in
    front of [label] is the numeral of [tempIdx + 1]. *)
Lemma label_loop_decode (tempIdx : Z) (label : string) :
  (-1 ≤ tempIdx)%Z →
  decode_acc 0 (label_loop tempIdx label)
  = ((tempIdx + 1) * 26 ^ Z.of_nat (String.length label) + decode_acc 0 label)%Z.
Proof.
  funelim (label_loop tempIdx label); intros Hge.
  - rewrite H by (pose proof (Z.div_pos tempIdx 26); lia).
    simpl String.length. simpl decode_acc.
    rewrite decode_acc_shift.
    rewrite letterValue_fromCharCode
      by (pose proof (Z.mod_pos_bound tempIdx 26); lia).
    rewrite Nat2Z.inj_succ, Z.pow_succ_r by lia.
    pose proof (Z.div_mod tempIdx 26). 
    set (q := (tempIdx / 26)%Z) in *. set (m := (tempIdx mod 26)%Z) in *.
    replace (tempIdx + 1)%Z with (26 * q + m + 1)%Z by lia. ring.
  - replace tempIdx with (-1)%Z by lia. lia.
Qed.

Lemma labelIndex_columnLabel (i : nat) : labelIndex (columnLabel i) = Z.of_nat i.
Proof.
  unfold labelIndex, columnLabel.
  rewrite label_loop_decode by lia. simpl. lia.
Qed.

(** The labels of a sheet made by [createEmptySheet] are distinct. *)
Lemma createEmptySheet_columns_NoDup : NoDup (columns createEmptySheet).
Proof.
  change (NoDup (columnLabel <$> seq 0 DEFAULT_COLS)).
  apply NoDup_fmap_2_strong; [|apply NoDup_seq].
  intros i j _ _ Heq. apply (f_equal labelIndex) in Heq.
  rewrite !labelIndex_columnLabel in Heq. lia.
Qed.

(** C1. For every zero-based column index [i], decoding the label
    generated for [i] yields [i], two indices with the same label are
    equal (distinct indices have distinct labels), and the labels of 0,
    25, 26 and 701 are "A", "Z", "AA" and "ZZ". *)
Theorem columnLabel_bijective :
  ∀ i : nat,
    labelIndex (columnLabel i) = Z.of_nat i
    ∧ (∀ j : nat, columnLabel j = columnLabel i ↔ j = i)
    ∧ columnLabel 0 = "A" ∧ columnLabel 25 = "Z"
    ∧ columnLabel 26 = "AA" ∧ columnLabel 701 = "ZZ".
Proof.
  intros i. split; [apply labelIndex_columnLabel|]. split.
  - intros j. split; [|by intros ->].
    intros Heq. apply (f_equal labelIndex) in Heq.
    rewrite !labelIndex_columnLabel in Heq. lia.
  - repeat split; vm_compute; reflexivity.
Qed.

(** ** The undo history *)

Lemma history_updateSheetData (u : SheetUpdate) (st : AppState) :
  history (updateSheetData u st)
  = take MAX_HISTORY_STEPS (sheetData st :: history st).
Proof. reflexivity. Qed.





Lemma updateSheetDataOf_live (u : SheetUpdate) (st : AppState) :
  updateSheetDataOf (sheetData st) u st = updateSheetData u st.
Proof. reflexivity. Qed.
















(** ** Undo after a mutation *)

Lemma updateSheetData_path (u : SheetUpdate) (st : AppState) :
  viaMutationPath st (updateSheetData u st).
Proof. right. by exists u. Qed.

Lemma executeMerge_path (type : MergeType) (st st' : AppState) :
  executeMerge type st = Some st' → viaMutationPath st st'.
Proof.
  unfold executeMerge. intros Hex.
  destruct (selection st) as [sel|]; [|simplify_eq; by left].
  simplify_option_eq; right; by eexists (NewData _).
Qed.

Lemma handleMergeToggle_path (st st' : AppState) :
  handleMergeToggle st = Some st' → viaMutationPath st st'.
Proof.
  unfold handleMergeToggle. intros Hex.
  destruct (selection st) as [sel|]; [|simplify_eq; by left].
  destruct (findIndex _ _).
  - simplify_eq. right. by eexists (NewData _).
  - simplify_option_eq; [by left|]. by eapply executeMerge_path.
Qed.

Lemma runAICommand_path response now (st : AppState) :
  viaMutationPath st (runAICommand (sheetData st) response now st).
Proof.
  unfold runAICommand.
  destruct response as [responseText|]; [|by left].
  destruct (applyResult _ _) as [updatedSheet [|]]; [|by left].
  right. by exists (NewData updatedSheet).
Qed.

Lemma handleSaveEdit_path targetPos value (ui : UI) :
  viaMutationPath (app ui) (app (handleSaveEdit targetPos value ui)).
Proof.
  unfold handleSaveEdit.
  destruct (targetPos ∪ editingPos (table ui)) as [pos|]; [|by left].
  case_decide; [|by left]. right. by eexists (NewData _).
Qed.

Lemma moveSelection_path rowDelta colDelta expand (props ui : UI) (st : AppState) :
  viaMutationPath st (app ui) →
  viaMutationPath st (app (moveSelection rowDelta colDelta expand props ui)).
Proof.
  unfold moveSelection. intros Hp.
  destruct (selection (app props)); [exact Hp|done].
Qed.

Lemma viaMutationPath_refl (st : AppState) : viaMutationPath st st.
Proof. by left. Qed.

Lemma keySwitch_path (e : KeyEvent) (ui : UI) :
  viaMutationPath (app ui) (app (keySwitch e ui)).
Proof.
  unfold keySwitch.
  repeat case_match;
    try (apply moveSelection_path); try (by left).
  unfold clearSelectedContent. destruct (selection (app ui)); [|by left].
  right. by eexists (NewData _).
Qed.

Lemma handleKeyDown_path (e : KeyEvent) (ui : UI) :
  viaMutationPath (app ui) (app (handleKeyDown e ui)).
Proof.
  unfold handleKeyDown.
  repeat case_match; try (by left);
    try (apply moveSelection_path; apply handleSaveEdit_path);
    try apply keySwitch_path.
Qed.

Lemma step_path (ev : Event) (ui : UI) :
  ev ≠ Undo → closureIsLive ev ui → viaMutationPath (app ui) (app (step ev ui)).
Proof.
  intros Hev Hlive. destruct ev; simpl in *; try done; try (by left).
  - apply handleKeyDown_path.
  - apply handleSaveEdit_path.
  - destruct (handleMergeToggle (app ui)) eqn:Hh; simpl;
      [by eapply handleMergeToggle_path|by left].
  - destruct (executeMerge type (app ui)) eqn:Hh; simpl;
      [by eapply executeMerge_path|by left].
  - subst. apply runAICommand_path.
  - subst. apply updateSheetData_path.
  - apply updateSheetData_path.
Qed.

Lemma undo_after_event (ev : Event) (ui : UI) :
  ev ≠ Undo → closureIsLive ev ui →
  let st := app ui in
  let st' := app (step ev ui) in
  (sheetData st' = sheetData st ∧ history st' = history st)
  ∨ (sheetData (handleUndo st') = sheetData st
     ∧ history st' = sheetData st :: history (handleUndo st')).
Proof.
  intros Hev Hlive st st'.
  destruct (step_path ev ui Hev Hlive) as [?|(u & Hs & Hh)]; [by left|right].
  fold st st' in Hs, Hh. rewrite history_updateSheetData in Hh.
  unfold handleUndo. rewrite Hh. done.
Qed.

(** X19. Undo right after a mutation through [updateSheetData] installs
    the sheet that was live before the mutation and removes the snapshot
    the mutation had pushed (it was the front entry), leaving the rest of
    the state as it was; this holds for every event of a session, undo
    apart, that is handled in the current render or whose closure still
    holds the live sheet: such an event either leaves sheet and history
    alone or is undone by one undo; and undo on an empty history changes
    nothing. *)
Theorem undo_restores_prior_sheet (u : SheetUpdate) (st : AppState)
    (d : SheetData) (msgs : list Message) (sel : option SelectionRange)
    (modal processing assistant : bool) :
  let st1 := updateSheetData u st in
  let st2 := handleUndo st1 in
  sheetData st2 = sheetData st
  ∧ history st1 = sheetData st :: history st2
  ∧ history st2 = take (MAX_HISTORY_STEPS - 1) (history st)
  ∧ messages st2 = messages st ∧ selection st2 = selection st
  ∧ (∀ ev ui, ev ≠ Undo → closureIsLive ev ui →
       (sheetData (app (step ev ui)) = sheetData (app ui)
        ∧ history (app (step ev ui)) = history (app ui))
       ∨ (sheetData (handleUndo (app (step ev ui))) = sheetData (app ui)
          ∧ history (app (step ev ui))
            = sheetData (app ui) :: history (handleUndo (app (step ev ui)))))
  ∧ handleUndo (mkApp d [] msgs sel modal processing assistant)
    = mkApp d [] msgs sel modal processing assistant.
Proof.
  repeat split; try done. intros ev ui Hev Hlive. by apply undo_after_event.
Qed.

(** The snapshot a resumed handler pushes is the sheet of its own render:
    undo right after it installs that sheet, whatever the live sheet was
    when the handler resumed. *)
Lemma undo_after_stale_update (captured : SheetData) (u : SheetUpdate)
    (st : AppState) :
  sheetData (handleUndo (updateSheetDataOf captured u st)) = captured
  ∧ history (updateSheetDataOf captured u st)
    = captured :: history (handleUndo (updateSheetDataOf captured u st)).
Proof. done. Qed.

(** ** Arrays of rows *)

Lemma js_array_get_set_eq {A} (l : list (option A)) (i : nat) (x : A) :
  js_array_get (js_array_set l i x) i = Some x.
Proof.
  unfold js_array_get, js_array_set. case_decide.
  - by rewrite list_lookup_insert_eq.
  - rewrite app_assoc, list_lookup_middle; [done|].
    rewrite length_app, length_replicate. lia.
Qed.

Lemma js_array_get_set_ne {A} (l : list (option A)) (i j : nat) (x : A) :
  i ≠ j → js_array_get (js_array_set l i x) j = js_array_get l j.
Proof.
  intros Hne. unfold js_array_get, js_array_set. case_decide.
  - by rewrite list_lookup_insert_ne.
  - destruct (decide (j < length l)) as [Hj|Hj].
    + by rewrite lookup_app_l.
    + rewrite lookup_app_r by lia. rewrite (lookup_ge_None_2 l j) by lia.
      destruct (decide (j < i)) as [Hji|Hji].
      * rewrite lookup_app_l by (rewrite length_replicate; lia).
        by rewrite lookup_replicate_2 by lia.
      * rewrite lookup_ge_None_2; [done|].
        rewrite length_app, length_replicate. simpl. lia.
Qed.

Lemma js_array_set_length_lt {A} (l : list (option A)) (i : nat) (x : A) :
  i < length l → length (js_array_set l i x) = length l.
Proof. intros Hi. unfold js_array_set. case_decide; [|lia]. apply length_insert. Qed.

Lemma cellAt_set_eq (rs : list (option SheetRow)) (r : nat) (row : SheetRow) (k : string) :
  cellAt (js_array_set rs r row) r k = row !! k.
Proof. unfold cellAt. by rewrite js_array_get_set_eq. Qed.

Lemma cellAt_set_ne (rs : list (option SheetRow)) (r r' : nat) (row : SheetRow) (k : string) :
  r ≠ r' → cellAt (js_array_set rs r row) r' k = cellAt rs r' k.
Proof. intros Hne. unfold cellAt. by rewrite js_array_get_set_ne. Qed.

(** A row read with the default of the spread [{ ...rows[r] }]. *)
Lemma cellAt_default (rs : list (option SheetRow)) (r : nat) (k : string) :
  (default ∅ (js_array_get rs r) : SheetRow) !! k = cellAt rs r k.
Proof. unfold cellAt. by destruct (js_array_get rs r). Qed.

(** ** Committing an edit *)

Lemma handleSaveEdit_app targetPos value (ui : UI) (pos : CellPosition) :
  targetPos ∪ editingPos (table ui) = Some pos →
  let data := sheetData (app ui) in
  let val := default (editValue (table ui)) value in
  let currentVal := stringified (cellAt (rows data) (rowIndex pos) (colKey pos)) in
  app (handleSaveEdit targetPos value ui)
  = if decide (val ≠ currentVal)
    then updateSheetData (NewData (withRows data (savedRows data pos val))) (app ui)
    else app ui.
Proof.
  intros Hpos data val currentVal. unfold handleSaveEdit. rewrite Hpos.
  fold data val currentVal. by destruct (decide (val ≠ currentVal)).
Qed.

Lemma cellAt_savedRows (data : SheetData) (pos : CellPosition) (val : string) :
  cellAt (savedRows data pos val) (rowIndex pos) (colKey pos) = Some (VStr val).
Proof. unfold savedRows. by rewrite cellAt_set_eq, lookup_insert_eq. Qed.

Lemma cellAt_savedRows_other (data : SheetData) (pos : CellPosition) (val : string)
    (r : nat) (k : string) :
  (r, k) ≠ (rowIndex pos, colKey pos) →
  cellAt (savedRows data pos val) r k = cellAt (rows data) r k.
Proof.
  intros Hne. unfold savedRows.
  destruct (decide (r = rowIndex pos)) as [->|Hr].
  - rewrite cellAt_set_eq, lookup_insert_ne by congruence.
    apply cellAt_default.
  - by rewrite cellAt_set_ne.
Qed.

(** C6. A commit whose buffer equals the stringified value of the bound
    cell leaves the whole application state as it is: the sheet is not
    written and the history gets no entry.  The write and the push happen
    exactly when the buffer differs: then the sheet does change and the
    prior sheet is put in front of the history. *)
Theorem commit_noop (targetPos : option CellPosition) (value : option string)
    (ui : UI) (pos : CellPosition) :
  targetPos ∪ editingPos (table ui) = Some pos →
  let data := sheetData (app ui) in
  let val := default (editValue (table ui)) value in
  let currentVal := stringified (cellAt (rows data) (rowIndex pos) (colKey pos)) in
  let ui' := handleSaveEdit targetPos value ui in
  (val = currentVal → app ui' = app ui)
  ∧ (val ≠ currentVal →
     sheetData (app ui') = withRows data (savedRows data pos val)
     ∧ sheetData (app ui') ≠ data
     ∧ history (app ui')
       = take MAX_HISTORY_STEPS (data :: history (app ui)))
  ∧ (history (app ui') ≠ history (app ui) ∨ sheetData (app ui') ≠ data →
     val ≠ currentVal).
Proof.
  intros Hpos data val currentVal ui'.
  pose proof (handleSaveEdit_app targetPos value ui pos Hpos) as Happ.
  cbv zeta in Happ. fold data val currentVal ui' in Happ.
  destruct (decide (val ≠ currentVal)) as [Hne|Heq].
  - split; [done|]. split; [|done]. intros _. rewrite Happ.
    split; [done|]. split; [|done]. simpl. intros Hd.
    apply Hne. unfold currentVal. rewrite <- Hd. simpl.
    by rewrite cellAt_savedRows.
  - split; [by rewrite Happ|]. split; [done|]. rewrite Happ. by intros [?|?].
Qed.

(** C10. A commit that changes the sheet stores the buffered text
    verbatim as a string value in the bound cell, and leaves every other
    cell as it was; after any commit the bound cell reads as the buffered
    text. *)
Theorem commit_stores_string (targetPos : option CellPosition)
    (value : option string) (ui : UI) (pos : CellPosition) :
  targetPos ∪ editingPos (table ui) = Some pos →
  let data := sheetData (app ui) in
  let val := default (editValue (table ui)) value in
  let data' := sheetData (app (handleSaveEdit targetPos value ui)) in
  (data' ≠ data →
   cellAt (rows data') (rowIndex pos) (colKey pos) = Some (VStr val)
   ∧ (∀ r k, (r, k) ≠ (rowIndex pos, colKey pos) →
             cellAt (rows data') r k = cellAt (rows data) r k))
  ∧ stringified (cellAt (rows data') (rowIndex pos) (colKey pos)) = val.
Proof.
  intros Hpos data val data'.
  pose proof (handleSaveEdit_app targetPos value ui pos Hpos) as Happ.
  cbv zeta in Happ. fold data val in Happ. unfold data' in *. rewrite Happ.
  case_decide as Hne; simpl.
  - rewrite cellAt_savedRows. split; [|done]. intros _.
    split; [done|]. intros r k Hrk. by apply cellAt_savedRows_other.
  - split; [done|]. fold data.
    by destruct (decide (val = stringified (cellAt (rows data) (rowIndex pos) (colKey pos)))).
Qed.

(** ** Loops over a rectangle *)

Lemma elem_of_range_incl (lo hi k : nat) : k ∈ range_incl lo hi ↔ lo ≤ k ≤ hi.
Proof. unfold range_incl. rewrite elem_of_seq. lia. Qed.

Lemma NoDup_range_incl (lo hi : nat) : NoDup (range_incl lo hi).
Proof. apply NoDup_seq. Qed.

Lemma minR_le_maxR (sel : SelectionRange) : minR sel ≤ maxR sel.
Proof. unfold minR, maxR. lia. Qed.

Lemma minC_le_maxC (sel : SelectionRange) : minC sel ≤ maxC sel.
Proof. unfold minC, maxC. lia. Qed.

Lemma elem_of_rectKeys (d : SheetData) (sel : SelectionRange) (k : string) :
  k ∈ rectKeys d sel ↔ ∃ c, minC sel ≤ c ≤ maxC sel ∧ k = columnKey (columns d) c.
Proof.
  unfold rectKeys. rewrite list_elem_of_fmap. split.
  - intros (c & -> & Hc). exists c. by rewrite <- elem_of_range_incl.
  - intros (c & Hc & ->). exists c. by rewrite elem_of_range_incl.
Qed.

Lemma columnKey_inj (cols : list string) (c c' : nat) :
  NoDup cols → c < length cols → c' < length cols →
  columnKey cols c = columnKey cols c' → c = c'.
Proof.
  intros Hnd Hc Hc'. unfold columnKey.
  destruct (lookup_lt_is_Some_2 cols c Hc) as [x Hx].
  destruct (lookup_lt_is_Some_2 cols c' Hc') as [y Hy].
  rewrite Hx, Hy. simpl. intros ->. by eapply NoDup_lookup.
Qed.

(** A loop that rewrites the rows of a list of distinct indices, each
    from the row found there. *)
Lemma foldl_rows_get (f : nat → SheetRow → SheetRow) (rl : list nat) :
  NoDup rl → ∀ (rs : list (option SheetRow)) (r : nat),
  js_array_get
    (foldl (λ rs r, js_array_set rs r (f r (default ∅ (js_array_get rs r)))) rs rl) r
  = if decide (r ∈ rl) then Some (f r (default ∅ (js_array_get rs r)))
    else js_array_get rs r.
Proof.
  induction 1 as [|r0 rl Hr0 Hnd IH]; intros rs r; simpl.
  - done.
  - rewrite IH. destruct (decide (r = r0)) as [->|Hne].
    + rewrite decide_False by done. rewrite decide_True by apply list_elem_of_here.
      by rewrite js_array_get_set_eq.
    + rewrite js_array_get_set_ne by done.
      destruct (decide (r ∈ rl)) as [Hin|Hin].
      * by rewrite decide_True by (by apply list_elem_of_further).
      * rewrite decide_False; [done|]. rewrite elem_of_cons. prop_solver.
Qed.

Lemma clearRow_lookup (d : SheetData) (sel : SelectionRange) (row : SheetRow)
    (k : string) :
  clearRow d sel row !! k
  = if decide (k ∈ rectKeys d sel) then Some VNull else row !! k.
Proof.
  unfold clearRow, rectKeys.
  generalize (range_incl (minC sel) (maxC sel)) as cs. intros cs. revert row.
  induction cs as [|c cs IH]; intros row; simpl.
  - done.
  - rewrite IH. destruct (decide (k ∈ columnKey (columns d) <$> cs)) as [Hin|Hin].
    + by rewrite decide_True by (by apply list_elem_of_further).
    + destruct (decide (k = columnKey (columns d) c)) as [->|Hne].
      * rewrite lookup_insert_eq. by rewrite decide_True by apply list_elem_of_here.
      * rewrite lookup_insert_ne by done.
        rewrite decide_False; [done|]. rewrite elem_of_cons. prop_solver.
Qed.

Lemma cellAt_clearRows (d : SheetData) (sel : SelectionRange)
    (rs : list (option SheetRow)) (r : nat) (k : string) :
  cellAt (clearRows d sel rs) r k
  = if decide (minR sel ≤ r ≤ maxR sel ∧ k ∈ rectKeys d sel) then Some VNull
    else cellAt rs r k.
Proof.
  unfold cellAt at 1. unfold clearRows.
  rewrite (foldl_rows_get (λ _, clearRow d sel)) by apply NoDup_range_incl.
  destruct (decide (r ∈ range_incl (minR sel) (maxR sel))) as [Hr|Hr];
    rewrite elem_of_range_incl in Hr; simpl.
  - rewrite clearRow_lookup, cellAt_default.
    destruct (decide (k ∈ rectKeys d sel)).
    + by rewrite decide_True.
    + rewrite decide_False; [done|prop_solver].
  - rewrite decide_False; [done|prop_solver].
Qed.

(** ** Clearing the selection *)

Lemma handleKeyDown_delete (e : KeyEvent) (ui : UI) :
  isEditing (table ui) = false → modKey e = false →
  key e = "Delete" ∨ key e = "Backspace" →
  handleKeyDown e ui = clearSelectedContent ui.
Proof.
  intros Hed Hmod Hkey. unfold handleKeyDown, keySwitch. rewrite Hed, Hmod.
  by destruct Hkey as [-> | ->].
Qed.

(** C7. With a selection and outside edit mode, Delete or Backspace sets
    every cell of the normalised rectangle of the selection to [null] and
    changes no other cell (stated by row and label, and, for a sheet with
    distinct labels and a rectangle within its columns, by row and column
    index); the name, the column list, the widths, the heights, the
    styles and the merge regions of the sheet, the selection and the
    state of the table are unchanged. *)
Theorem delete_clears_selection (e : KeyEvent) (ui : UI) (sel : SelectionRange) :
  selection (app ui) = Some sel →
  isEditing (table ui) = false →
  modKey e = false →
  key e = "Delete" ∨ key e = "Backspace" →
  let d := sheetData (app ui) in
  let ui' := handleKeyDown e ui in
  let d' := sheetData (app ui') in
  (∀ r c, minR sel ≤ r ≤ maxR sel → minC sel ≤ c ≤ maxC sel →
          cellAt (rows d') r (columnKey (columns d) c) = Some VNull)
  ∧ (∀ r k, ¬ (minR sel ≤ r ≤ maxR sel
               ∧ ∃ c, minC sel ≤ c ≤ maxC sel ∧ k = columnKey (columns d) c) →
            cellAt (rows d') r k = cellAt (rows d) r k)
  ∧ (NoDup (columns d) → maxC sel < length (columns d) →
     ∀ r c, c < length (columns d) →
            ¬ (minR sel ≤ r ≤ maxR sel ∧ minC sel ≤ c ≤ maxC sel) →
            cellAt (rows d') r (columnKey (columns d) c)
            = cellAt (rows d) r (columnKey (columns d) c))
  ∧ name d' = name d ∧ columns d' = columns d
  ∧ colWidths d' = colWidths d ∧ rowHeights d' = rowHeights d
  ∧ cellStyles d' = cellStyles d ∧ merges d' = merges d
  ∧ selection (app ui') = Some sel ∧ table ui' = table ui.
Proof.
  intros Hsel Hed Hmod Hkey d ui' d'.
  assert (Hui : ui' = clearSelectedContent ui)
    by (by apply handleKeyDown_delete).
  unfold clearSelectedContent in Hui. rewrite Hsel in Hui. fold d in Hui.
  assert (Hrows : rows d' = clearRows d sel (rows d)) by (unfold d'; by rewrite Hui).
  assert (Hframe : ∀ r k,
             ¬ (minR sel ≤ r ≤ maxR sel
                ∧ ∃ c, minC sel ≤ c ≤ maxC sel ∧ k = columnKey (columns d) c) →
             cellAt (rows d') r k = cellAt (rows d) r k).
  { intros r k Hout. rewrite Hrows, cellAt_clearRows.
    rewrite decide_False; [done|]. by rewrite elem_of_rectKeys. }
  split; [|split; [exact Hframe|split]].
  - intros r c Hr Hc. rewrite Hrows, cellAt_clearRows.
    rewrite decide_True; [done|]. split; [done|].
    rewrite elem_of_rectKeys. by exists c.
  - intros Hnd Hmax r c Hc Hout. apply Hframe.
    intros (Hr & c' & Hc' & Heq). apply Hout. split; [done|].
    apply columnKey_inj in Heq; [by subst|done|done|lia].
  - unfold d'. rewrite Hui. repeat split; simpl; done.
Qed.

(** ** Merging with the "content" strategy *)

Lemma elem_of_rectCells (sel : SelectionRange) (r c : nat) :
  (r, c) ∈ rectCells sel
  ↔ minR sel ≤ r ≤ maxR sel ∧ minC sel ≤ c ≤ maxC sel.
Proof.
  unfold rectCells. rewrite list_elem_of_bind. split.
  - intros (r' & Hin & Hr'). apply list_elem_of_bind in Hin as (c' & Hin & Hc').
    apply list_elem_of_singleton in Hin. simplify_eq.
    by rewrite <- !elem_of_range_incl.
  - intros [Hr Hc]. exists r. rewrite elem_of_range_incl. split; [|done].
    apply list_elem_of_bind. exists c. rewrite elem_of_range_incl.
    split; [|done]. by apply list_elem_of_singleton.
Qed.

Lemma readCell_defined (d : SheetData) (rs : list (option SheetRow))
    (rc : nat * nat) (v : CellValue) :
  cellAt rs rc.1 (columnKey (columns d) rc.2) = Some v →
  readCell d rs rc = Some (Some v).
Proof.
  unfold cellAt, readCell. destruct (js_array_get rs rc.1); simpl; [|done].
  by intros ->.
Qed.

Lemma collectContents_defined (d : SheetData) (rs : list (option SheetRow))
    (cells : list (nat * nat)) : ∀ contents,
  (∀ rc, rc ∈ cells → is_Some (cellAt rs rc.1 (columnKey (columns d) rc.2))) →
  collectContents d rs cells contents
  = Some (contents
          ++ (valueToString
                <$> List.filter hasContent
                      (omap (λ rc, cellAt rs rc.1 (columnKey (columns d) rc.2)) cells))).
Proof.
  induction cells as [|rc cells IH]; intros contents Hdef; simpl.
  - by rewrite app_nil_r.
  - destruct (Hdef rc) as [v Hv]; [apply list_elem_of_here|].
    rewrite (readCell_defined d rs rc v Hv), Hv. simpl.
    rewrite IH by (intros rc' Hin; apply Hdef; by apply list_elem_of_further).
    destruct (hasContent v); simpl; [|done]. by rewrite <- app_assoc.
Qed.

Lemma assignCell_lookup_eq (row : SheetRow) (k : string) (v : option CellValue) :
  assignCell row k v !! k = v.
Proof.
  destruct v; simpl; [apply lookup_insert_eq|apply lookup_delete_eq].
Qed.

Lemma assignCell_lookup_ne (row : SheetRow) (k k' : string) (v : option CellValue) :
  k ≠ k' → assignCell row k v !! k' = row !! k'.
Proof.
  intros Hne. destruct v; simpl; [by apply lookup_insert_ne|by apply lookup_delete_ne].
Qed.

(** A loop that assigns the cells of a list of columns. *)
Lemma foldl_assign_out (key : nat → string) (g : nat → option CellValue)
    (cs : list nat) (k : string) : ∀ row : SheetRow,
  k ∉ key <$> cs →
  foldl (λ row c, assignCell row (key c) (g c)) row cs !! k = row !! k.
Proof.
  induction cs as [|c cs IH]; intros row Hout; simpl; [done|].
  rewrite fmap_cons, not_elem_of_cons in Hout. destruct Hout as [Hne Hout].
  rewrite IH by done. by rewrite assignCell_lookup_ne.
Qed.

Lemma foldl_assign_in (key : nat → string) (g : nat → option CellValue)
    (cs : list nat) (c : nat) : ∀ row : SheetRow,
  NoDup (key <$> cs) → c ∈ cs →
  foldl (λ row c, assignCell row (key c) (g c)) row cs !! key c = g c.
Proof.
  induction cs as [|c0 cs IH]; intros row Hnd Hin; simpl.
  - by apply elem_of_nil in Hin.
  - rewrite fmap_cons, NoDup_cons in Hnd. destruct Hnd as [Hc0 Hnd].
    destruct (decide (c ∈ cs)) as [Hcs|Hcs]; [by apply IH|].
    apply elem_of_cons in Hin as [->|?]; [|done].
    rewrite foldl_assign_out by done. apply assignCell_lookup_eq.
Qed.

Lemma NoDup_rectKeys (d : SheetData) (sel : SelectionRange) :
  NoDup (columns d) → maxC sel < length (columns d) → NoDup (rectKeys d sel).
Proof.
  intros Hnd Hmax. unfold rectKeys.
  apply NoDup_fmap_2_strong; [|apply NoDup_range_incl].
  intros c c' Hc Hc' Heq. rewrite elem_of_range_incl in Hc, Hc'.
  apply columnKey_inj in Heq; [done|done|lia|lia].
Qed.

Lemma mergeRow_lookup (d : SheetData) (sel : SelectionRange)
    (finalValue : option CellValue) (r c : nat) (row : SheetRow) :
  NoDup (rectKeys d sel) → minC sel ≤ c ≤ maxC sel →
  mergeRow d sel finalValue r row !! columnKey (columns d) c
  = if decide (r = minR sel ∧ c = minC sel) then finalValue else Some VNull.
Proof.
  intros Hnd Hc. unfold mergeRow.
  apply (foldl_assign_in (columnKey (columns d))
           (λ c, if decide (r = minR sel ∧ c = minC sel) then finalValue
                 else Some VNull)); [done|].
  by apply elem_of_range_incl.
Qed.

Lemma cellAt_mergeRows (d : SheetData) (sel : SelectionRange)
    (finalValue : option CellValue) (rs : list (option SheetRow))
    (r : nat) (k : string) :
  minR sel ≤ r ≤ maxR sel →
  cellAt (mergeRows d sel finalValue rs) r k
  = mergeRow d sel finalValue r (default ∅ (js_array_get rs r)) !! k.
Proof.
  intros Hr. unfold cellAt, mergeRows.
  rewrite (foldl_rows_get (mergeRow d sel finalValue)) by apply NoDup_range_incl.
  by rewrite decide_True by (by apply elem_of_range_incl).
Qed.

(** C3. On a sheet with distinct column labels, for a selection whose
    cells all exist, merging with the "content" strategy succeeds, sets
    the top-left cell of the rectangle to the values of the cells that
    are neither [null] nor empty, taken in row-major order, as strings
    joined by single spaces, and sets every other cell of the rectangle
    to [null]. *)
Theorem merge_content (st : AppState) (sel : SelectionRange) :
  let d := sheetData st in
  selection st = Some sel →
  NoDup (columns d) →
  maxC sel < length (columns d) →
  (∀ r c, minR sel ≤ r ≤ maxR sel → minC sel ≤ c ≤ maxC sel →
          is_Some (cellAt (rows d) r (columnKey (columns d) c))) →
  ∃ st',
    executeMerge Content st = Some st'
    ∧ cellAt (rows (sheetData st')) (minR sel) (columnKey (columns d) (minC sel))
      = Some (VStr (join_space
                      (valueToString <$> List.filter hasContent (rectValues d sel))))
    ∧ ∀ r c, minR sel ≤ r ≤ maxR sel → minC sel ≤ c ≤ maxC sel →
             (r, c) ≠ (minR sel, minC sel) →
             cellAt (rows (sheetData st')) r (columnKey (columns d) c) = Some VNull.
Proof.
  intros d Hsel Hnd Hmax Hdef.
  pose proof (minR_le_maxR sel) as HR. pose proof (minC_le_maxC sel) as HC.
  assert (Hkeys : NoDup (rectKeys d sel)) by (by apply NoDup_rectKeys).
  unfold executeMerge. rewrite Hsel. fold d.
  rewrite (collectContents_defined d (rows d) (rectCells sel) [])
    by (intros [r c] Hin; apply elem_of_rectCells in Hin as [? ?]; by apply Hdef).
  simpl. eexists. split; [reflexivity|]. simpl. split.
  - rewrite cellAt_mergeRows, mergeRow_lookup by (done || lia).
    by rewrite decide_True.
  - intros r c Hr Hc Hne.
    rewrite cellAt_mergeRows, mergeRow_lookup by done.
    rewrite decide_False; [done|]. intros [-> ->]. done.
Qed.

(** ** Toggling a merge *)

Lemma findIndex_None {A} (p : A → bool) (l : list A) :
  findIndex p l = None ↔ ∀ x, x ∈ l → p x = false.
Proof.
  induction l as [|x l IH]; simpl.
  - split; [|done]. intros _ x Hx. by apply elem_of_nil in Hx.
  - destruct (p x) eqn:Hp.
    + split; [done|]. intros Hall. rewrite Hall in Hp; [done|apply list_elem_of_here].
    + rewrite fmap_None, IH. split.
      * intros Hall y Hy. apply elem_of_cons in Hy as [->|?]; [done|by apply Hall].
      * intros Hall y Hy. apply Hall. by apply list_elem_of_further.
Qed.

Lemma findIndex_Some {A} (p : A → bool) (l : list A) : ∀ i,
  findIndex p l = Some i →
  ∃ x, l !! i = Some x ∧ p x = true
       ∧ ∀ j y, j < i → l !! j = Some y → p y = false.
Proof.
  induction l as [|x l IH]; intros i; simpl; [done|].
  destruct (p x) eqn:Hp.
  - intros [= <-]. exists x. repeat split; [done|]. intros j y Hj. lia.
  - intros Hi. apply fmap_Some in Hi as (i' & Hi' & ->).
    destruct (IH i' Hi') as (m & Hm & Hpm & Hbefore).
    exists m. repeat split; [done..|].
    intros [|j] y Hj; simpl; [by intros [= <-]|].
    apply Hbefore. lia.
Qed.

Lemma findIndex_is_Some {A} (p : A → bool) (l : list A) (x : A) :
  x ∈ l → p x = true → is_Some (findIndex p l).
Proof.
  intros Hin Hp. destruct (findIndex p l) eqn:Hf; [done|].
  rewrite findIndex_None in Hf. rewrite (Hf x Hin) in Hp. done.
Qed.

Lemma findIndex_app_new {A} (p : A → bool) (l : list A) (x : A) :
  findIndex p l = None → p x = true → findIndex p (l ++ [x]) = Some (length l).
Proof.
  intros Hnone Hp. induction l as [|y l IH]; simpl in *.
  - by rewrite Hp.
  - destruct (p y); [done|]. apply fmap_None in Hnone. by rewrite IH.
Qed.

Lemma sameBounds_refl (sel : SelectionRange) : sameBounds sel sel = true.
Proof. unfold sameBounds. by rewrite !bool_decide_eq_true_2. Qed.

Lemma executeMerge_merges (type : MergeType) (st st1 : AppState) (sel : SelectionRange) :
  selection st = Some sel → executeMerge type st = Some st1 →
  merges (sheetData st1) = Some (default [] (merges (sheetData st)) ++ [sel])
  ∧ selection st1 = Some sel.
Proof.
  unfold executeMerge. intros Hsel Hex. rewrite Hsel in Hex.
  by simplify_option_eq.
Qed.

(** C2. With a selection whose rectangle is already in the list of merge
    regions (same normalised bounds), the merge operation succeeds,
    removes the first such region from the list, adds none, and leaves
    the rows, hence the content of every cell, as they were.  When the
    rectangle is not in the list and is then merged, invoking the merge
    operation again on the same selection gives back the list of regions
    from before the merge, without touching the rows. *)
Theorem merge_toggle_unmerges (st : AppState) (sel : SelectionRange) :
  selection st = Some sel →
  let d := sheetData st in
  let ms := default [] (merges d) in
  ((∃ m, m ∈ ms ∧ sameBounds sel m = true) →
   ∃ st' idx m,
     handleMergeToggle st = Some st'
     ∧ ms !! idx = Some m ∧ sameBounds sel m = true
     ∧ (∀ j m', j < idx → ms !! j = Some m' → sameBounds sel m' = false)
     ∧ merges (sheetData st') = Some (delete idx ms)
     ∧ S (length (delete idx ms)) = length ms
     ∧ rows (sheetData st') = rows d
     ∧ columns (sheetData st') = columns d
     ∧ cellStyles (sheetData st') = cellStyles d)
  ∧ ((∀ m, m ∈ ms → sameBounds sel m = false) →
     ∀ type st1, executeMerge type st = Some st1 →
     ∃ st2,
       handleMergeToggle st1 = Some st2
       ∧ merges (sheetData st2) = Some ms
       ∧ rows (sheetData st2) = rows (sheetData st1)).
Proof.
  intros Hsel d ms. split.
  - intros (m0 & Hin & Hp).
    destruct (findIndex_is_Some _ _ _ Hin Hp) as [idx Hidx].
    destruct (findIndex_Some _ _ _ Hidx) as (m & Hm & Hpm & Hfirst).
    exists (updateSheetData (NewData (withMerges d (delete idx ms))) st), idx, m.
    unfold handleMergeToggle. rewrite Hsel. fold d ms. rewrite Hidx.
    repeat split; try done.
    rewrite length_delete by eauto.
    apply lookup_lt_Some in Hm. lia.
  - intros Hnone type st1 Hex.
    destruct (executeMerge_merges type st st1 sel Hsel Hex) as [Hms Hsel1].
    fold d ms in Hms.
    assert (Hidx : findIndex (sameBounds sel) (ms ++ [sel]) = Some (length ms)).
    { apply findIndex_app_new; [by apply findIndex_None|apply sameBounds_refl]. }
    exists (updateSheetData
              (NewData (withMerges (sheetData st1)
                          (delete (length ms) (ms ++ [sel])))) st1).
    unfold handleMergeToggle. rewrite Hsel1, Hms. simpl. rewrite Hidx.
    repeat split. simpl. by rewrite delete_middle, app_nil_r.
Qed.

(** ** The assistant *)

(** C8. When the text of the response is not valid JSON, the result of
    the assistant is the fixed fallback insight alone, and the command
    leaves the live sheet and the history as they were, whichever sheet
    its closure holds: its only effects are
    the fallback message at the end of the conversation and the flags of
    the assistant panel. *)
Theorem parse_failure_no_mutation (captured : SheetData)
    (responseText : option string) (now : Z) (st : AppState) :
  JSON_parse (orString responseText "{}") = None →
  let st' := runAICommand captured (Some responseText) now st in
  processWithAI responseText
  = {| updatedRows := None; updatedStyles := None;
       insight := Some PARSE_FAILURE_INSIGHT;
       newColumns := None; chartData := None; chartType := None |}
  ∧ sheetData st' = sheetData st
  ∧ history st' = history st
  ∧ messages st' = messages st ++ [fallbackMessage now]
  ∧ selection st' = selection st.
Proof.
  intros Hparse st'. unfold st', runAICommand, processWithAI.
  rewrite Hparse. by repeat split.
Qed.

(** *** New columns *)

Lemma elem_of_set_from (l : list string) : ∀ seen x,
  x ∈ set_from seen l ↔ x ∈ l ∧ x ∉ seen.
Proof.
  induction l as [|y l IH]; intros seen x; simpl.
  - rewrite elem_of_nil. prop_solver.
  - destruct (decide (y ∈ seen)) as [Hy|Hy].
    + rewrite IH, elem_of_cons. split; [prop_solver|].
      intros [[->|?] ?]; prop_solver.
    + rewrite !elem_of_cons, IH, elem_of_cons.
      destruct (decide (x = y)) as [->|?]; prop_solver.
Qed.

Lemma NoDup_set_from (l : list string) : ∀ seen, NoDup (set_from seen l).
Proof.
  induction l as [|y l IH]; intros seen; simpl; [constructor|].
  destruct (decide (y ∈ seen)); [apply IH|].
  apply NoDup_cons. split; [|apply IH].
  rewrite elem_of_set_from, elem_of_cons. prop_solver.
Qed.

(** Only the members of [seen] matter. *)
Lemma set_from_ext (l : list string) : ∀ seen seen',
  (∀ x, x ∈ seen ↔ x ∈ seen') → set_from seen l = set_from seen' l.
Proof.
  induction l as [|y l IH]; intros seen seen' Heq; simpl; [done|].
  destruct (decide (y ∈ seen)) as [Hy|Hy].
  - rewrite decide_True by (by apply Heq). by apply IH.
  - rewrite decide_False by (by rewrite <- Heq). f_equal. apply IH.
    intros x. rewrite !elem_of_cons, Heq. done.
Qed.

Lemma set_from_app (l1 l2 : list string) : ∀ seen,
  set_from seen (l1 ++ l2) = set_from seen l1 ++ set_from (l1 ++ seen) l2.
Proof.
  induction l1 as [|y l1 IH]; intros seen; simpl; [done|].
  destruct (decide (y ∈ seen)) as [Hy|Hy].
  - rewrite IH. f_equal. apply set_from_ext.
    intros x. rewrite elem_of_cons, !elem_of_app.
    split; [prop_solver|]. intros [->|?]; prop_solver.
  - simpl. f_equal. rewrite IH. f_equal. apply set_from_ext.
    intros x. rewrite elem_of_cons, !elem_of_app, elem_of_cons. prop_solver.
Qed.

Lemma set_from_NoDup (l : list string) : ∀ seen,
  NoDup l → (∀ x, x ∈ l → x ∉ seen) → set_from seen l = l.
Proof.
  induction l as [|y l IH]; intros seen Hnd Hfresh; simpl; [done|].
  apply NoDup_cons in Hnd as [Hy Hnd].
  rewrite decide_False by (apply Hfresh, list_elem_of_here).
  f_equal. apply IH; [done|]. intros x Hx. rewrite elem_of_cons.
  intros [->|Hs]; [done|]. by apply (Hfresh x); [apply list_elem_of_further|].
Qed.

Lemma applyResult_columns (result : AIProcessingResult) (d : SheetData) :
  columns (applyResult result d).1
  = match updatedRows result, newColumns result with
    | Some rs, Some cs =>
        if decide (0 < length (filter is_Some rs)) then newSet (columns d ++ cs)
        else columns d
    | _, _ => columns d
    end.
Proof.
  unfold applyResult.
  destruct (updatedRows result) as [rs|]; [|by destruct (updatedStyles result)].
  destruct (decide (0 < length (filter is_Some rs)));
    destruct (newColumns result), (updatedStyles result); done.
Qed.

Lemma runAICommand_sheet (captured : SheetData) (responseText : option string)
    (now : Z) (st : AppState) :
  sheetData (runAICommand captured (Some responseText) now st)
  = let r := applyResult (processWithAI responseText) captured in
    if r.2 then r.1 else sheetData st.
Proof.
  unfold runAICommand.
  by destruct (applyResult _ _) as [updatedSheet [|]].
Qed.

Lemma applyResult_no_change (result : AIProcessingResult) (d : SheetData) :
  (applyResult result d).2 = false → (applyResult result d).1 = d.
Proof.
  unfold applyResult.
  destruct (updatedRows result) as [rs|], (updatedStyles result); simpl;
    try done; by case_decide.
Qed.

Lemma applyResult_rows_change (result : AIProcessingResult) (d : SheetData)
    (rs : list (option SheetRow)) :
  updatedRows result = Some rs → 0 < length (filter is_Some rs) →
  (applyResult result d).2 = true.
Proof.
  intros Hrows Hlen. unfold applyResult. rewrite Hrows, decide_True by done.
  by destruct (updatedStyles result).
Qed.

(** C9, as amended. When the result of the assistant carries a row set
    that is not empty once its [null] entries are dropped, and new column
    labels, the column list becomes the labels of the sheet the command
    patches (the sheet of the render it was issued in, which is the live
    sheet when nothing changed it during the request) followed by the new
    ones, each label kept at its first occurrence only: no label
    occurs twice, the labels are those of the sheet and the new ones,
    and, the labels of the sheet being distinct, the old list is kept in
    its order at the front. *)
Theorem new_columns_appended (captured : SheetData)
    (responseText : option string) (now : Z)
    (st : AppState) (rs : list (option SheetRow)) (cs : list string) :
  let result := processWithAI responseText in
  updatedRows result = Some rs →
  filter is_Some rs ≠ [] →
  newColumns result = Some cs →
  let cols := columns captured in
  let cols' :=
    columns (sheetData (runAICommand captured (Some responseText) now st)) in
  cols' = newSet (cols ++ cs)
  ∧ NoDup cols'
  ∧ (∀ x, x ∈ cols' ↔ x ∈ cols ∨ x ∈ cs)
  ∧ (NoDup cols →
     ∃ added, cols' = cols ++ added ∧ NoDup added
              ∧ ∀ x, x ∈ added ↔ x ∈ cs ∧ x ∉ cols).
Proof.
  intros result Hrows Hne Hcs cols cols'.
  assert (Hlen : 0 < length (filter is_Some rs))
    by (destruct (filter is_Some rs); [done|simpl; lia]).
  assert (Hcols : cols' = newSet (cols ++ cs)).
  { unfold cols'. rewrite runAICommand_sheet. cbv zeta. fold result.
    rewrite (applyResult_rows_change result captured rs Hrows Hlen).
    rewrite applyResult_columns, Hrows, Hcs. by rewrite decide_True. }
  rewrite Hcols. unfold newSet. split; [done|]. split; [apply NoDup_set_from|].
  split.
  - intros x. rewrite elem_of_set_from, elem_of_app, elem_of_nil. prop_solver.
  - intros Hnd. exists (set_from (cols ++ []) cs).
    rewrite set_from_app, (set_from_NoDup cols [] Hnd)
      by (intros x _; apply not_elem_of_nil).
    split; [done|]. split; [apply NoDup_set_from|].
    intros x. rewrite elem_of_set_from, app_nil_r. done.
Qed.

(** * Further properties *)

(** ** Style records *)

Ltac solve_spread :=
  unfold spreadStyle, emptyStyle; simpl; f_equal;
  repeat match goal with
         | |- context [?x ∪ _] => is_var x; destruct x
         | |- context [_ ∪ ?x] => is_var x; destruct x
         end; reflexivity.

Lemma spreadStyle_idem (old patch : CellStyle) :
  spreadStyle (spreadStyle old patch) patch = spreadStyle old patch.
Proof. destruct old, patch. solve_spread. Qed.


(** ** Style keys *)

Lemma string_app_cons (a : ascii) (s1 s2 : string) :
  String a s1 +:+ s2 = String a (s1 +:+ s2).
Proof. reflexivity. Qed.

Lemma string_app_nil (s : string) : "" +:+ s = s.
Proof. reflexivity. Qed.

Lemma string_app_assoc (s1 s2 s3 : string) :
  (s1 +:+ s2) +:+ s3 = s1 +:+ (s2 +:+ s3).
Proof.
  induction s1 as [|a s1 IH]; [done|]. rewrite !string_app_cons. by f_equal.
Qed.

Lemma allDigits_app (s1 s2 : string) :
  allDigits (s1 +:+ s2) = allDigits s1 && allDigits s2.
Proof.
  induction s1 as [|a s1 IH]; [done|]. rewrite string_app_cons. simpl.
  by rewrite IH, andb_assoc.
Qed.

Lemma pretty_N_char_digit (x : N) : isDigit (pretty_N_char x) = true.
Proof. destruct x as [|p]; [done|]. by do 4 (destruct p as [p|p|]; try done). Qed.

Lemma pretty_N_go_digits (x : N) : ∀ s,
  ∃ d, allDigits d = true ∧ pretty_N_go x s = d +:+ s.
Proof.
  induction (N.lt_wf_0 x) as [x _ IH]; intros s.
  destruct (decide (x = 0)%N) as [->|Hx].
  - exists "". by rewrite pretty_N_go_0.
  - rewrite pretty_N_go_step by lia.
    destruct (IH (x `div` 10)%N) with (s := String (pretty_N_char (x `mod` 10)) s)
      as (d & Hd & ->); [apply N.div_lt; lia|].
    exists (d +:+ String (pretty_N_char (x `mod` 10)) "").
    rewrite allDigits_app, Hd, string_app_assoc.
    rewrite string_app_cons, string_app_nil. simpl.
    by rewrite pretty_N_char_digit.
Qed.

Lemma pretty_nat_digits (n : nat) : allDigits (pretty n) = true.
Proof.
  unfold pretty, pretty_nat, pretty, pretty_N.
  case_decide; [done|].
  destruct (pretty_N_go_digits (N.of_nat n) "") as (d & Hd & ->).
  by rewrite allDigits_app, Hd.
Qed.

(** Two texts that start with digits and a dash agree on the digits and
    on what follows the dash. *)
Lemma digits_dash_inj (d1 : string) : ∀ d2 k1 k2,
  allDigits d1 = true → allDigits d2 = true →
  d1 +:+ "-" +:+ k1 = d2 +:+ "-" +:+ k2 → d1 = d2 ∧ k1 = k2.
Proof.
  induction d1 as [|a d1 IH]; intros [|b d2] k1 k2 H1 H2 Heq;
    rewrite ?string_app_cons, ?string_app_nil in Heq; simpl in *.
  - by simplify_eq.
  - by simplify_eq.
  - by simplify_eq.
  - apply andb_prop in H1 as [_ H1]. apply andb_prop in H2 as [_ H2].
    injection Heq as -> Heq. destruct (IH _ _ _ H1 H2 Heq) as [-> ->]. done.
Qed.

Lemma cellId_eq_inv (r r' : nat) (k k' : string) :
  cellId r k = cellId r' k' → r = r' ∧ k = k'.
Proof.
  unfold cellId. intros Heq.
  apply digits_dash_inj in Heq as [Hr ->]; [|apply pretty_nat_digits..].
  split; [|done]. by apply (inj pretty).
Qed.

(** X2. The style key of a cell determines the cell: two keys are equal
    only for the same row index and the same column label, whatever the
    label (it may itself contain a dash). *)
Theorem cellId_inj (r r' : nat) (k k' : string) :
  cellId r k = cellId r' k' ↔ r = r' ∧ k = k'.
Proof. split; [apply cellId_eq_inv|by intros [-> ->]]. Qed.

(** ** Styling and clearing the format of a selection *)

Lemma applyStyle_fold (d : SheetData) (style : CellStyle)
    (cells : list (nat * nat)) : ∀ (m : gmap string CellStyle) (id : string),
  foldl (λ (newStyles : gmap string CellStyle) rc,
           <[rectCellId d rc :=
               spreadStyle (default emptyStyle (newStyles !! rectCellId d rc)) style]>
             newStyles) m cells !! id
  = if decide (id ∈ rectCellId d <$> cells)
    then Some (spreadStyle (default emptyStyle (m !! id)) style)
    else m !! id.
Proof.
  induction cells as [|rc cells IH]; intros m id; simpl; [done|].
  rewrite IH. destruct (decide (id = rectCellId d rc)) as [->|Hne].
  - rewrite lookup_insert_eq. simpl.
    rewrite (decide_True (P := _ ∈ _ :: _)) by apply list_elem_of_here.
    case_decide; [|done].
    by rewrite spreadStyle_idem.
  - rewrite lookup_insert_ne by done.
    destruct (decide (id ∈ rectCellId d <$> cells)) as [Hin|Hin].
    + by rewrite decide_True by (by apply list_elem_of_further).
    + rewrite decide_False; [done|]. rewrite elem_of_cons. prop_solver.
Qed.

Lemma clearFormat_fold (d : SheetData) (cells : list (nat * nat)) :
  ∀ (m : gmap string CellStyle) (id : string),
  foldl (λ (newStyles : gmap string CellStyle) rc,
           delete (rectCellId d rc) newStyles) m cells !! id
  = if decide (id ∈ rectCellId d <$> cells) then None else m !! id.
Proof.
  induction cells as [|rc cells IH]; intros m id; simpl; [done|].
  rewrite IH. destruct (decide (id ∈ rectCellId d <$> cells)) as [Hin|Hin].
  - by rewrite decide_True by (by apply list_elem_of_further).
  - destruct (decide (id = rectCellId d rc)) as [->|Hne].
    + rewrite lookup_delete_eq.
      by rewrite decide_True by apply list_elem_of_here.
    + rewrite lookup_delete_ne by done.
      rewrite decide_False; [done|]. rewrite elem_of_cons. prop_solver.
Qed.

Lemma elem_of_rectCellIds (d : SheetData) (sel : SelectionRange) (id : string) :
  id ∈ rectCellId d <$> rectCells sel
  ↔ ∃ r c, minR sel ≤ r ≤ maxR sel ∧ minC sel ≤ c ≤ maxC sel
           ∧ id = cellId r (columnKey (columns d) c).
Proof.
  rewrite list_elem_of_fmap. split.
  - intros ([r c] & -> & Hin). apply elem_of_rectCells in Hin as [? ?].
    by exists r, c.
  - intros (r & c & Hr & Hc & ->). exists (r, c).
    split; [done|]. by apply elem_of_rectCells.
Qed.

(** The style key of a cell of the grid is among those of the rectangle
    only if the cell is in the rectangle. *)
Lemma rectCellIds_grid (d : SheetData) (sel : SelectionRange) (r c : nat) :
  NoDup (columns d) → maxC sel < length (columns d) → c < length (columns d) →
  cellId r (columnKey (columns d) c) ∈ rectCellId d <$> rectCells sel →
  minR sel ≤ r ≤ maxR sel ∧ minC sel ≤ c ≤ maxC sel.
Proof.
  intros Hnd Hmax Hc Hin.
  apply elem_of_rectCellIds in Hin as (r' & c' & Hr' & Hc' & Heq).
  apply cellId_eq_inv in Heq as [-> Heq].
  apply columnKey_inj in Heq; [by subst|done|done|lia].
Qed.

(** X3. With a selection, [applyStyleToSelection] gives every cell of
    the rectangle its former style overridden field by field by the
    patch, keeps the style of every key that is not the key of a cell of
    the rectangle, hence (labels being distinct and the rectangle within
    the columns) of every other cell of the grid, leaves the rest of the
    sheet as it was and pushes the prior sheet on the history. *)
Theorem applyStyle_effect (style : CellStyle) (st : AppState) (sel : SelectionRange) :
  selection st = Some sel →
  let d := sheetData st in
  let d' := sheetData (applyStyleToSelection style st) in
  let styles := default ∅ (cellStyles d) in
  let styles' := default ∅ (cellStyles d') in
  (∀ r c, minR sel ≤ r ≤ maxR sel → minC sel ≤ c ≤ maxC sel →
          styles' !! cellId r (columnKey (columns d) c)
          = Some (spreadStyle
                    (default emptyStyle (styles !! cellId r (columnKey (columns d) c)))
                    style))
  ∧ (∀ id, id ∉ rectCellId d <$> rectCells sel → styles' !! id = styles !! id)
  ∧ (NoDup (columns d) → maxC sel < length (columns d) →
     ∀ r c, c < length (columns d) →
            ¬ (minR sel ≤ r ≤ maxR sel ∧ minC sel ≤ c ≤ maxC sel) →
            styles' !! cellId r (columnKey (columns d) c)
            = styles !! cellId r (columnKey (columns d) c))
  ∧ rows d' = rows d ∧ columns d' = columns d ∧ merges d' = merges d
  ∧ colWidths d' = colWidths d ∧ rowHeights d' = rowHeights d
  ∧ history (applyStyleToSelection style st)
    = take MAX_HISTORY_STEPS (d :: history st).
Proof.
  intros Hsel d d' styles styles'.
  assert (Hst : styles'
                = foldl (λ (newStyles : gmap string CellStyle) rc,
                           <[rectCellId d rc :=
                               spreadStyle
                                 (default emptyStyle (newStyles !! rectCellId d rc))
                                 style]> newStyles) styles (rectCells sel))
    by (unfold styles', d', applyStyleToSelection; by rewrite Hsel).
  assert (Hout : ∀ id, id ∉ rectCellId d <$> rectCells sel →
                       styles' !! id = styles !! id).
  { intros id Hid. rewrite Hst, applyStyle_fold. by rewrite decide_False. }
  split; [|split; [exact Hout|split]].
  - intros r c Hr Hc. rewrite Hst, applyStyle_fold.
    rewrite decide_True; [done|]. apply elem_of_rectCellIds. by exists r, c.
  - intros Hnd Hmax r c Hc Hnot. apply Hout.
    intros Hin. apply Hnot. by eapply rectCellIds_grid.
  - unfold d', applyStyleToSelection. by rewrite Hsel.
Qed.

(** X4. With a selection, [handleClearFormat] removes the style of every
    cell of the rectangle, keeps the style of every key that is not the
    key of a cell of the rectangle, hence (labels being distinct and the
    rectangle within the columns) of every other cell of the grid, and
    leaves the content of the sheet as it was. *)
Theorem clearFormat_effect (st : AppState) (sel : SelectionRange) :
  selection st = Some sel →
  let d := sheetData st in
  let d' := sheetData (handleClearFormat st) in
  let styles := default ∅ (cellStyles d) in
  let styles' := default ∅ (cellStyles d') in
  (∀ r c, minR sel ≤ r ≤ maxR sel → minC sel ≤ c ≤ maxC sel →
          styles' !! cellId r (columnKey (columns d) c) = None)
  ∧ (∀ id, id ∉ rectCellId d <$> rectCells sel → styles' !! id = styles !! id)
  ∧ (NoDup (columns d) → maxC sel < length (columns d) →
     ∀ r c, c < length (columns d) →
            ¬ (minR sel ≤ r ≤ maxR sel ∧ minC sel ≤ c ≤ maxC sel) →
            styles' !! cellId r (columnKey (columns d) c)
            = styles !! cellId r (columnKey (columns d) c))
  ∧ rows d' = rows d ∧ columns d' = columns d ∧ merges d' = merges d.
Proof.
  intros Hsel d d' styles styles'.
  assert (Hst : styles'
                = foldl (λ (newStyles : gmap string CellStyle) rc,
                           delete (rectCellId d rc) newStyles)
                    styles (rectCells sel))
    by (unfold styles', d', handleClearFormat; by rewrite Hsel).
  assert (Hout : ∀ id, id ∉ rectCellId d <$> rectCells sel →
                       styles' !! id = styles !! id).
  { intros id Hid. rewrite Hst, clearFormat_fold. by rewrite decide_False. }
  split; [|split; [exact Hout|split]].
  - intros r c Hr Hc. rewrite Hst, clearFormat_fold.
    rewrite decide_True; [done|]. apply elem_of_rectCellIds. by exists r, c.
  - intros Hnd Hmax r c Hc Hnot. apply Hout.
    intros Hin. apply Hnot. by eapply rectCellIds_grid.
  - unfold d', handleClearFormat. by rewrite Hsel.
Qed.

(** ** Merging with the "standard" strategy *)

Lemma cellAt_mergeRows_out (d : SheetData) (sel : SelectionRange)
    (finalValue : option CellValue) (rs : list (option SheetRow))
    (r : nat) (k : string) :
  ¬ (minR sel ≤ r ≤ maxR sel ∧ k ∈ rectKeys d sel) →
  cellAt (mergeRows d sel finalValue rs) r k = cellAt rs r k.
Proof.
  intros Hout. unfold cellAt at 1. unfold mergeRows.
  rewrite (foldl_rows_get (mergeRow d sel finalValue)) by apply NoDup_range_incl.
  destruct (decide (r ∈ range_incl (minR sel) (maxR sel))) as [Hr|Hr]; [|done].
  apply elem_of_range_incl in Hr. simpl. unfold mergeRow.
  rewrite (foldl_assign_out (columnKey (columns d))
             (λ c, if decide (r = minR sel ∧ c = minC sel) then finalValue
                   else Some VNull)).
  - apply cellAt_default.
  - intros Hk. apply Hout. done.
Qed.

(** X5. On a sheet with distinct column labels, for a selection within
    the columns whose first row exists, merging with the "standard"
    strategy succeeds: the top-left cell of the rectangle keeps what it
    held, every other cell of the rectangle becomes [null], every cell
    outside the rectangle is unchanged, the selection is appended to the
    merge regions, and the style of the top-left cell is its former
    style with centred horizontal and middle vertical alignment, the
    other style keys being unchanged. *)
Theorem merge_standard (st : AppState) (sel : SelectionRange) :
  let d := sheetData st in
  selection st = Some sel →
  NoDup (columns d) →
  maxC sel < length (columns d) →
  is_Some (js_array_get (rows d) (minR sel)) →
  ∃ st',
    executeMerge Standard st = Some st'
    ∧ cellAt (rows (sheetData st')) (minR sel) (columnKey (columns d) (minC sel))
      = cellAt (rows d) (minR sel) (columnKey (columns d) (minC sel))
    ∧ (∀ r c, covers sel r c → (r, c) ≠ (minR sel, minC sel) →
              cellAt (rows (sheetData st')) r (columnKey (columns d) c) = Some VNull)
    ∧ (∀ r c, c < length (columns d) → ¬ covers sel r c →
              cellAt (rows (sheetData st')) r (columnKey (columns d) c)
              = cellAt (rows d) r (columnKey (columns d) c))
    ∧ merges (sheetData st') = Some (default [] (merges d) ++ [sel])
    ∧ (let id := cellId (minR sel) (columnKey (columns d) (minC sel)) in
       let styles := default ∅ (cellStyles d) in
       let styles' := default ∅ (cellStyles (sheetData st')) in
       styles' !! id = Some (spreadStyle (default emptyStyle (styles !! id)) centered)
       ∧ ∀ id', id' ≠ id → styles' !! id' = styles !! id').
Proof.
  intros d Hsel Hnd Hmax [row Hrow].
  pose proof (minR_le_maxR sel) as HR. pose proof (minC_le_maxC sel) as HC.
  assert (Hkeys : NoDup (rectKeys d sel)) by (by apply NoDup_rectKeys).
  unfold executeMerge. rewrite Hsel. fold d. rewrite Hrow. simpl.
  eexists. split; [reflexivity|]. simpl.
  split; [|split; [|split; [|split; [done|split]]]].
  - rewrite cellAt_mergeRows, mergeRow_lookup by (done || lia).
    rewrite decide_True by done. unfold cellAt. by rewrite Hrow.
  - intros r c [Hr Hc] Hne.
    rewrite cellAt_mergeRows, mergeRow_lookup by done.
    rewrite decide_False; [done|]. intros [-> ->]. done.
  - intros r c Hc Hout. apply cellAt_mergeRows_out.
    intros [Hr Hk]. apply Hout. split; [done|].
    apply elem_of_rectKeys in Hk as (c' & Hc' & Heq).
    apply columnKey_inj in Heq; [by subst|done|done|lia].
  - apply lookup_insert_eq.
  - intros id' Hne. by apply lookup_insert_ne.
Qed.

(** ** Errors of a merge *)

Lemma collectContents_undefined (d : SheetData) (rs : list (option SheetRow))
    (cells : list (nat * nat)) : ∀ contents rc,
  rc ∈ cells → cellAt rs rc.1 (columnKey (columns d) rc.2) = None →
  collectContents d rs cells contents = None.
Proof.
  induction cells as [|rc0 cells IH]; intros contents rc Hin Hrc.
  - by apply elem_of_nil in Hin.
  - simpl. unfold readCell.
    destruct (decide (rc = rc0)) as [->|Hne].
    + unfold cellAt in Hrc. destruct (js_array_get rs rc0.1); simpl in *; [|done].
      by rewrite Hrc.
    + apply elem_of_cons in Hin as [?|Hin]; [done|].
      destruct (js_array_get rs rc0.1) as [row|]; simpl; [|done].
      destruct (row !! columnKey (columns d) rc0.2); [|done].
      by eapply IH.
Qed.

(** X6. A merge raises a [TypeError], and changes no state, exactly on
    these selections: with the "standard" strategy when the first row of
    the rectangle does not exist, with the "content" strategy when some
    cell of the rectangle does not exist. *)
Theorem merge_errors (st : AppState) (sel : SelectionRange) :
  selection st = Some sel →
  let d := sheetData st in
  (executeMerge Standard st = None ↔ js_array_get (rows d) (minR sel) = None)
  ∧ (executeMerge Content st = None
     ↔ ∃ r c, covers sel r c ∧ cellAt (rows d) r (columnKey (columns d) c) = None).
Proof.
  intros Hsel d. unfold executeMerge. rewrite Hsel. fold d. split.
  - destruct (js_array_get (rows d) (minR sel)); simpl; split; done.
  - split.
    + intros Hnone.
      destruct (decide (Forall (λ rc, is_Some (cellAt (rows d) rc.1
                                         (columnKey (columns d) rc.2)))
                          (rectCells sel))) as [Hall|Hsome].
      * rewrite (collectContents_defined d (rows d) (rectCells sel) []) in Hnone
          by (by apply Forall_forall).
        done.
      * apply not_Forall_Exists in Hsome; [|apply _].
        apply Exists_exists in Hsome as ([r c] & Hin & Hundef).
        exists r, c. split; [by apply elem_of_rectCells|].
        simpl in Hundef. by apply eq_None_not_Some.
    + intros (r & c & Hcov & Hundef).
      rewrite (collectContents_undefined d (rows d) (rectCells sel) [] (r, c));
        [done|by apply elem_of_rectCells|done].
Qed.

(** ** The decision of the merge button *)

Lemma countContents_defined (d : SheetData) (cells : list (nat * nat)) :
  ∀ contentCount,
  (∀ rc, rc ∈ cells → is_Some (cellAt (rows d) rc.1 (columnKey (columns d) rc.2))) →
  countContents d cells contentCount
  = Some (contentCount
          + length (List.filter hasContent
                      (omap (λ rc, cellAt (rows d) rc.1 (columnKey (columns d) rc.2))
                         cells))).
Proof.
  induction cells as [|rc cells IH]; intros contentCount Hdef; simpl.
  - by rewrite Nat.add_0_r.
  - destruct (Hdef rc) as [v Hv]; [apply list_elem_of_here|].
    rewrite (readCell_defined d (rows d) rc v Hv), Hv. simpl.
    rewrite IH by (intros rc' Hin; apply Hdef; by apply list_elem_of_further).
    destruct (hasContent v); simpl; f_equal; rewrite <- ?plus_n_Sm; reflexivity.
Qed.

(** X7. For a selection that is not yet a merge region and whose cells
    all exist, the merge button counts the cells that are neither [null]
    nor the empty string: with more than one it only opens the dialog
    (sheet and history are untouched), otherwise it merges at once with
    the "standard" strategy. *)
Theorem merge_toggle_decision (st : AppState) (sel : SelectionRange) :
  let d := sheetData st in
  selection st = Some sel →
  (∀ m, m ∈ default [] (merges d) → sameBounds sel m = false) →
  (∀ r c, covers sel r c →
          is_Some (cellAt (rows d) r (columnKey (columns d) c))) →
  let contentCount := length (List.filter hasContent (rectValues d sel)) in
  (1 < contentCount → handleMergeToggle st = Some (setShowMergeModal true st))
  ∧ (contentCount ≤ 1 → handleMergeToggle st = executeMerge Standard st).
Proof.
  intros d Hsel Hnew Hdef contentCount.
  unfold handleMergeToggle. rewrite Hsel. fold d.
  rewrite (proj2 (findIndex_None _ _) Hnew).
  rewrite (countContents_defined d (rectCells sel) 0)
    by (intros [r c] Hin; apply elem_of_rectCells in Hin; by apply Hdef).
  simpl. fold (rectValues d sel). fold contentCount.
  split; intros Hn; case_decide; (done || lia).
Qed.

(** ** Merge lookup *)

Lemma mergeInfoIn_None (ms : list SelectionRange) (r c : nat) :
  mergeInfoIn ms r c = None ↔ ∀ m, m ∈ ms → ¬ covers m r c.
Proof.
  unfold covers. induction ms as [|m ms IH]; simpl.
  - split; [|done]. intros _ m Hm. by apply elem_of_nil in Hm.
  - destruct (bool_decide (r = minR m) && bool_decide (c = minC m)) eqn:Hroot.
    + apply andb_prop in Hroot as [Hr Hc].
      apply bool_decide_eq_true in Hr, Hc. subst.
      split; [done|]. intros Hall. exfalso.
      apply (Hall m); [apply list_elem_of_here|].
      pose proof (minR_le_maxR m). pose proof (minC_le_maxC m). lia.
    + destruct (bool_decide (minR m ≤ r) && bool_decide (r ≤ maxR m)
                && bool_decide (minC m ≤ c) && bool_decide (c ≤ maxC m)) eqn:Hin.
      * repeat (apply andb_prop in Hin as [Hin ?]).
        repeat match goal with
               | H : bool_decide _ = true |- _ => apply bool_decide_eq_true in H
               end.
        split; [done|]. intros Hall. exfalso.
        apply (Hall m); [apply list_elem_of_here|lia].
      * rewrite IH. split.
        -- intros Hall m' Hm'. apply elem_of_cons in Hm' as [->|?]; [|by apply Hall].
           intros (? & ?).
           rewrite !(bool_decide_eq_true_2 _) in Hin by lia. done.
        -- intros Hall m' Hm'. apply Hall. by apply list_elem_of_further.
Qed.

Lemma mergeInfoIn_Some (ms : list SelectionRange) (r c : nat) (info : MergeInfo) :
  mergeInfoIn ms r c = Some info →
  ∃ m, m ∈ ms ∧ covers m r c
       ∧ info = if decide (r = minR m ∧ c = minC m)
                then RootCell (maxR m - minR m + 1) (maxC m - minC m + 1)
                else CoveredCell.
Proof.
  unfold covers. induction ms as [|m ms IH]; simpl; [done|].
  destruct (bool_decide (r = minR m) && bool_decide (c = minC m)) eqn:Hroot.
  - apply andb_prop in Hroot as [Hr Hc].
    apply bool_decide_eq_true in Hr, Hc. subst. intros [= <-].
    exists m. split; [apply list_elem_of_here|].
    pose proof (minR_le_maxR m). pose proof (minC_le_maxC m).
    split; [lia|]. by rewrite decide_True.
  - destruct (bool_decide (minR m ≤ r) && bool_decide (r ≤ maxR m)
              && bool_decide (minC m ≤ c) && bool_decide (c ≤ maxC m)) eqn:Hin.
    + repeat (apply andb_prop in Hin as [Hin ?]).
      repeat match goal with
             | H : bool_decide _ = true |- _ => apply bool_decide_eq_true in H
             end.
      intros [= <-]. exists m. split; [apply list_elem_of_here|].
      split; [lia|]. rewrite decide_False; [done|].
      intros [-> ->]. by rewrite !bool_decide_eq_true_2 in Hroot.
    + intros Hinfo. destruct (IH Hinfo) as (m' & Hm' & Hrest).
      exists m'. split; [by apply list_elem_of_further|done].
Qed.

Lemma mergeInfoIn_app (ms ms' : list SelectionRange) (r c : nat) :
  mergeInfoIn (ms ++ ms') r c
  = match mergeInfoIn ms r c with
    | Some info => Some info
    | None => mergeInfoIn ms' r c
    end.
Proof.
  induction ms as [|m ms IH]; simpl; [done|].
  by repeat case_match.
Qed.

(** X8. The merge lookup answers [null] exactly for the cells no merge
    region contains; otherwise it answers for some region that contains
    the cell, as a root with the numbers of rows and columns of that
    region (both at least one) when the cell is its top-left corner, as
    a covered cell otherwise. *)
Theorem getMergeInfo_spec (data : SheetData) (r c : nat) :
  (getMergeInfo data r c = None
   ↔ ∀ m, m ∈ default [] (merges data) → ¬ covers m r c)
  ∧ (∀ info, getMergeInfo data r c = Some info →
       ∃ m, m ∈ default [] (merges data) ∧ covers m r c
            ∧ match info with
              | RootCell rowSpan colSpan =>
                  r = minR m ∧ c = minC m
                  ∧ rowSpan = maxR m - minR m + 1 ∧ colSpan = maxC m - minC m + 1
                  ∧ 1 ≤ rowSpan ∧ 1 ≤ colSpan
              | CoveredCell => (r, c) ≠ (minR m, minC m)
              end).
Proof.
  unfold getMergeInfo. destruct (merges data) as [ms|]; simpl.
  - split; [apply mergeInfoIn_None|].
    intros info Hinfo. apply mergeInfoIn_Some in Hinfo as (m & Hm & Hcov & ->).
    exists m. split; [done|]. split; [done|].
    case_decide as Hroot.
    + destruct Hroot as [-> ->]. repeat split; lia.
    + intros [= -> ->]. by apply Hroot.
  - split; [|done]. split; [|done]. intros _ m Hm. by apply elem_of_nil in Hm.
Qed.

(** X9. After a merge of a selection none of whose cells lies in an
    earlier merge region, the lookup answers root for the top-left cell
    of the selection, with the numbers of rows and columns of its
    rectangle, covered for its other cells, and what it answered before
    for every cell outside. *)
Theorem mergeInfo_after_merge (type : MergeType) (st st' : AppState)
    (sel : SelectionRange) :
  selection st = Some sel →
  executeMerge type st = Some st' →
  (∀ m r c, m ∈ default [] (merges (sheetData st)) → covers sel r c →
            ¬ covers m r c) →
  getMergeInfo (sheetData st') (minR sel) (minC sel)
  = Some (RootCell (maxR sel - minR sel + 1) (maxC sel - minC sel + 1))
  ∧ (∀ r c, covers sel r c → (r, c) ≠ (minR sel, minC sel) →
            getMergeInfo (sheetData st') r c = Some CoveredCell)
  ∧ (∀ r c, ¬ covers sel r c →
            getMergeInfo (sheetData st') r c = getMergeInfo (sheetData st) r c).
Proof.
  intros Hsel Hex Hfree.
  destruct (executeMerge_merges type st st' sel Hsel Hex) as [Hms _].
  assert (Hold : ∀ r c, getMergeInfo (sheetData st) r c
                        = mergeInfoIn (default [] (merges (sheetData st))) r c)
    by (intros r c; unfold getMergeInfo; by destruct (merges (sheetData st))).
  setoid_rewrite Hold.
  unfold getMergeInfo. rewrite Hms.
  pose proof (minR_le_maxR sel) as HR. pose proof (minC_le_maxC sel) as HC.
  assert (Hin : ∀ r c, covers sel r c →
            mergeInfoIn (default [] (merges (sheetData st)) ++ [sel]) r c
            = mergeInfoIn [sel] r c).
  { intros r c Hcov. rewrite mergeInfoIn_app.
    rewrite (proj2 (mergeInfoIn_None _ r c)); [done|].
    intros m Hm. by apply Hfree. }
  split; [|split].
  - rewrite Hin by (unfold covers; lia). simpl.
    by rewrite !bool_decide_eq_true_2.
  - intros r c Hcov Hne. rewrite Hin by done. simpl.
    destruct Hcov as [Hr Hc].
    destruct (bool_decide (r = minR sel) && bool_decide (c = minC sel)) eqn:Hroot.
    + apply andb_prop in Hroot as [Hr' Hc'].
      apply bool_decide_eq_true in Hr', Hc'. by subst.
    + by rewrite !bool_decide_eq_true_2 by lia.
  - intros r c Hout. rewrite mergeInfoIn_app.
    destruct (mergeInfoIn _ r c); [done|]. simpl.
    destruct (bool_decide (r = minR sel) && bool_decide (c = minC sel)) eqn:Hroot.
    + apply andb_prop in Hroot as [Hr' Hc'].
      apply bool_decide_eq_true in Hr', Hc'. subst.
      exfalso. apply Hout. unfold covers. lia.
    + destruct (bool_decide (minR sel ≤ r) && bool_decide (r ≤ maxR sel)
                && bool_decide (minC sel ≤ c) && bool_decide (c ≤ maxC sel)) eqn:Hc;
        [|done].
      repeat (apply andb_prop in Hc as [Hc ?]).
      repeat match goal with
             | H : bool_decide _ = true |- _ => apply bool_decide_eq_true in H
             end.
      exfalso. apply Hout. unfold covers. lia.
Qed.

(** ** Keyboard *)

Lemma moveSelection_keeps rowDelta colDelta expand (props ui : UI) :
  sheetData (app (moveSelection rowDelta colDelta expand props ui)) = sheetData (app ui)
  ∧ history (app (moveSelection rowDelta colDelta expand props ui)) = history (app ui)
  ∧ table (moveSelection rowDelta colDelta expand props ui) = table ui.
Proof. unfold moveSelection. by destruct (selection (app props)). Qed.

(** X10. On a sheet with at least one row and one column, a move of the
    selection by the keyboard ends inside the grid: the new end has a row
    index below the number of rows and carries the label of its column
    index; it is the old end displaced by the deltas where that is inside
    the grid, and the nearest border otherwise.  Without expansion the
    selection is that single cell, with expansion the start is kept.  The
    sheet, the history and the state of the table are untouched. *)
Theorem moveSelection_in_grid (rowDelta colDelta : Z) (expand : bool) (props ui : UI)
    (sel : SelectionRange) :
  let data := sheetData (app props) in
  let ui' := moveSelection rowDelta colDelta expand props ui in
  let r := (Z.of_nat (rowIndex (end_ sel)) + rowDelta)%Z in
  let c := (Z.of_nat (colIndex (end_ sel)) + colDelta)%Z in
  selection (app props) = Some sel →
  rows data ≠ [] → columns data ≠ [] →
  ∃ nextEnd,
    selection (app ui')
    = Some (if expand then mkRange (start sel) nextEnd else mkRange nextEnd nextEnd)
    ∧ rowIndex nextEnd < length (rows data)
    ∧ columns data !! colIndex nextEnd = Some (colKey nextEnd)
    ∧ Z.of_nat (rowIndex nextEnd)
      = (if decide (r < 0)%Z then 0
         else if decide (r < Z.of_nat (length (rows data)))%Z then r
         else Z.of_nat (length (rows data)) - 1)%Z
    ∧ Z.of_nat (colIndex nextEnd)
      = (if decide (c < 0)%Z then 0
         else if decide (c < Z.of_nat (length (columns data)))%Z then c
         else Z.of_nat (length (columns data)) - 1)%Z
    ∧ sheetData (app ui') = sheetData (app ui)
    ∧ history (app ui') = history (app ui)
    ∧ table ui' = table ui.
Proof.
  intros data ui' r c Hsel Hrows Hcols.
  assert (0 < length (rows data)) by (destruct (rows data); [done|simpl; lia]).
  assert (0 < length (columns data)) by (destruct (columns data); [done|simpl; lia]).
  unfold ui', moveSelection. rewrite Hsel. fold data. fold r. fold c.
  eexists (mkPos _ _ _). split; [reflexivity|]. simpl.
  split; [lia|]. split.
  - unfold columnKey.
    destruct (columns data !! _) as [k|] eqn:Hk; [done|].
    apply lookup_ge_None in Hk. lia.
  - repeat split; repeat case_decide; lia.
Qed.

Lemma keySwitch_keeps (e : KeyEvent) (ui : UI) :
  key e ≠ "Delete" → key e ≠ "Backspace" →
  sheetData (app (keySwitch e ui)) = sheetData (app ui)
  ∧ history (app (keySwitch e ui)) = history (app ui).
Proof.
  intros Hdel Hback. unfold keySwitch.
  destruct (String.eqb_spec (key e) "Delete") as [?|_]; [done|].
  destruct (String.eqb_spec (key e) "Backspace") as [?|_]; [done|]. simpl.
  repeat match goal with
         | |- context [String.eqb ?a ?b] => destruct (String.eqb a b)
         end;
    try (split; apply moveSelection_keeps); try done.
  by destruct (selection (app ui)).
Qed.

(** X11. The keys that can change the sheet are few: in edit mode only
    Enter and Tab, outside edit mode only Delete and Backspace pressed
    without the platform's modifier.  Every other key event leaves the
    sheet and the undo history as they were, and outside edit mode a key
    pressed with the modifier changes nothing at all. *)
Theorem other_keys_keep_sheet (e : KeyEvent) (ui : UI) :
  (isEditing (table ui) = true → key e ≠ "Enter" ∧ key e ≠ "Tab") →
  (isEditing (table ui) = false →
   modKey e = true ∨ (key e ≠ "Delete" ∧ key e ≠ "Backspace")) →
  sheetData (app (handleKeyDown e ui)) = sheetData (app ui)
  ∧ history (app (handleKeyDown e ui)) = history (app ui)
  ∧ (isEditing (table ui) = false → modKey e = true → handleKeyDown e ui = ui).
Proof.
  intros Hedit Hview. unfold handleKeyDown.
  destruct (isEditing (table ui)) eqn:Hed.
  - destruct (Hedit eq_refl) as [HnE HnT].
    destruct (String.eqb_spec (key e) "Escape"); [done|].
    destruct (String.eqb_spec (key e) "Enter"); [done|].
    destruct (String.eqb_spec (key e) "Tab"); done.
  - destruct (modKey e) eqn:Hmod; simpl; [done|].
    destruct (Hview eq_refl) as [?|[Hdel Hback]]; [done|].
    destruct (keySwitch_keeps e ui Hdel Hback) as [Hsheet Hhist].
    split; [|split; [|done]];
      destruct (_ && _); try done; by destruct (selection (app ui)).
Qed.

Lemma keySwitch_single (e : KeyEvent) (ui : UI) :
  String.length (key e) = 1 → keySwitch e ui = ui.
Proof.
  intros Hlen.
  assert (Hne : ∀ s, String.length s ≠ 1 → String.eqb (key e) s = false).
  { intros s Hs. apply String.eqb_neq. intros Heq. by rewrite Heq in Hlen. }
  unfold keySwitch. by rewrite !Hne by (vm_compute; lia).
Qed.

(** X12. Outside edit mode and without the modifier, a key whose name is
    a single character (of one byte) opens the editor on the start cell of the
    selection with that character as the whole buffer; the sheet, the
    history and the selection are untouched, and the former content of
    the cell is not part of the buffer. *)
Theorem typing_opens_editor (e : KeyEvent) (ui : UI) (sel : SelectionRange) :
  isEditing (table ui) = false → modKey e = false →
  String.length (key e) = 1 →
  selection (app ui) = Some sel →
  handleKeyDown e ui
  = {| app := app ui;
       table := {| isEditing := true; editingPos := Some (start sel);
                   editValue := key e;
                   suggestionFilter := suggestionFilter (table ui) |} |}.
Proof.
  intros Hed Hmod Hlen Hsel. unfold handleKeyDown.
  rewrite Hed, Hmod, Hsel, (keySwitch_single e ui Hlen). simpl.
  rewrite (bool_decide_eq_true_2 _ Hlen). simpl.
  rewrite bool_decide_eq_false_2; [done|].
  intros Hin. unfold navigationKeys in Hin.
  repeat (apply elem_of_cons in Hin as [Heq|Hin]; [by rewrite Heq in Hlen|]).
  by apply elem_of_nil in Hin.
Qed.

(** X13. Opening a cell with Enter and pressing Enter again changes no
    content: outside edit mode the first Enter opens the editor on the
    start cell of the selection with the text of the cell as buffer; the
    second Enter commits a buffer equal to that text, so the sheet and
    the history are as before the two keys, edit mode is left, and the
    selection has moved as one step down from the selection's end. *)
Theorem enter_twice_keeps_sheet (e : KeyEvent) (ui : UI) (sel : SelectionRange) :
  isEditing (table ui) = false → modKey e = false → key e = "Enter" →
  selection (app ui) = Some sel →
  let ui1 := handleKeyDown e ui in
  let ui2 := handleKeyDown e ui1 in
  isEditing (table ui1) = true
  ∧ editingPos (table ui1) = Some (start sel)
  ∧ editValue (table ui1)
    = stringified (cellAt (rows (sheetData (app ui)))
                     (rowIndex (start sel)) (colKey (start sel)))
  ∧ app ui1 = app ui
  ∧ sheetData (app ui2) = sheetData (app ui)
  ∧ history (app ui2) = history (app ui)
  ∧ isEditing (table ui2) = false
  ∧ editingPos (table ui2) = None
  ∧ selection (app ui2) = selection (app (moveSelection 1 0 false ui ui)).
Proof.
  intros Hed Hmod Hkey Hsel ui1 ui2.
  assert (H1 : ui1 = startEditing (start sel)
                       (stringified (cellAt (rows (sheetData (app ui)))
                                       (rowIndex (start sel)) (colKey (start sel))))
                       ui).
  { unfold ui1, handleKeyDown, keySwitch. by rewrite Hed, Hmod, Hkey, Hsel. }
  assert (H2 : ui2 = moveSelection 1 0 false ui1 (handleSaveEdit None None ui1)).
  { assert (Hed1 : isEditing (table ui1) = true) by (by rewrite H1).
    unfold ui2, handleKeyDown. by rewrite Hed1, Hkey. }
  assert (Hsave : handleSaveEdit None None ui1 = stopEditing true ui1).
  { rewrite H1. unfold handleSaveEdit. simpl.
    destruct (decide _) as [Hd|_]; [by destruct Hd|done]. }
  rewrite H2, Hsave.
  destruct (moveSelection_keeps 1 0 false ui1 (stopEditing true ui1))
    as (Hsheet & Hhist & Htable).
  rewrite Hsheet, Hhist, Htable. rewrite H1. simpl.
  repeat split. unfold moveSelection. simpl. by rewrite Hsel.
Qed.

(** ** Pointer selection *)

Lemma length_pos {A} (l : list A) : l ≠ [] → 0 < length l.
Proof. destruct l; [done|simpl; lia]. Qed.

(** X14. On a sheet with at least one row and one column, a press on a
    column header (off the resize handle) selects exactly the cells of
    that column, a press on a row header exactly the cells of that row,
    and the select-all corner exactly the cells of the grid; a press on a
    resize handle changes nothing. *)
Theorem header_selections (g : Grid) (colKey_ : string) (colIndex_ rowIndex_ : nat) :
  let data := sheetData (app (ui g)) in
  rows data ≠ [] → columns data ≠ [] →
  (∃ sel,
     selection (app (ui (handleColHeaderMouseDown false colKey_ colIndex_ g))) = Some sel
     ∧ ∀ r c, covers sel r c ↔ r < length (rows data) ∧ c = colIndex_)
  ∧ (∃ sel,
       selection (app (ui (handleRowHeaderMouseDown false rowIndex_ g))) = Some sel
       ∧ ∀ r c, covers sel r c ↔ r = rowIndex_ ∧ c < length (columns data))
  ∧ (∃ sel,
       selection (app (ui (handleSelectAll g))) = Some sel
       ∧ ∀ r c, covers sel r c ↔ r < length (rows data) ∧ c < length (columns data))
  ∧ handleColHeaderMouseDown true colKey_ colIndex_ g = g
  ∧ handleRowHeaderMouseDown true rowIndex_ g = g.
Proof.
  intros data Hrows%length_pos Hcols%length_pos.
  repeat split; try (eexists; split; [reflexivity|]);
    unfold covers, minR, maxR, minC, maxC, lastRow, lastCol; simpl;
    fold data; intros; lia.
Qed.

(** X15. While the button is held after a press on a column header, the
    pointer entering another column header, or a cell of another column,
    extends the selection to all the rows of the columns in between;
    after a press on a row header, entering another row header, or a cell
    of another row, extends it to all the columns of the rows in between.
    (Outside edit mode, on a sheet with at least one row and column.) *)
Theorem header_drags (g : Grid) (k0 k1 : string) (c0 c1 r0 r1 : nat) :
  let data := sheetData (app (ui g)) in
  isEditing (table (ui g)) = false →
  rows data ≠ [] → columns data ≠ [] →
  let byCol := handleColHeaderMouseDown false k0 c0 g in
  let byRow := handleRowHeaderMouseDown false r0 g in
  (∀ g', g' = handleColHeaderMouseEnter k1 c1 byCol
         ∨ g' = handleMouseEnter r1 c1 k1 byCol →
     ∃ sel, selection (app (ui g')) = Some sel
            ∧ ∀ r c, covers sel r c
                     ↔ r < length (rows data) ∧ c0 `min` c1 ≤ c ≤ c0 `max` c1)
  ∧ (∀ g', g' = handleRowHeaderMouseEnter r1 byRow
           ∨ g' = handleMouseEnter r1 c1 k1 byRow →
       ∃ sel, selection (app (ui g')) = Some sel
              ∧ ∀ r c, covers sel r c
                       ↔ r0 `min` r1 ≤ r ≤ r0 `max` r1 ∧ c < length (columns data)).
Proof.
  intros data Hed Hrows%length_pos Hcols%length_pos byCol byRow.
  split; intros g' [-> | ->];
    unfold byCol, byRow, handleColHeaderMouseDown, handleRowHeaderMouseDown,
      handleColHeaderMouseEnter, handleRowHeaderMouseEnter, handleMouseEnter,
      saveIfEditing; rewrite Hed; simpl;
    (eexists; split; [reflexivity|]);
    unfold covers, minR, maxR, minC, maxC, lastRow, lastCol; simpl;
    fold data; intros; lia.
Qed.

Lemma last_cons_default {A} (l : list A) : ∀ x d : A,
  List.last (x :: l) d = List.last l x.
Proof.
  induction l as [|a l IH]; intros x d; [done|].
  change (List.last (x :: a :: l) d) with (List.last (a :: l) d).
  by rewrite !IH.
Qed.

Lemma enterCells_cell (path : list CellPosition) : ∀ (g : Grid) (sel : SelectionRange),
  isMouseDown g = true → selectionMode g = Some CellMode →
  selection (app (ui g)) = Some sel →
  isMouseDown (enterCells path g) = true
  ∧ selectionMode (enterCells path g) = Some CellMode
  ∧ selection (app (ui (enterCells path g)))
    = Some (mkRange (start sel) (List.last path (end_ sel)))
  ∧ sheetData (app (ui (enterCells path g))) = sheetData (app (ui g))
  ∧ history (app (ui (enterCells path g))) = history (app (ui g))
  ∧ table (ui (enterCells path g)) = table (ui g).
Proof.
  induction path as [|p path IH]; intros g sel Hdown Hmode Hsel.
  - simpl. by destruct sel.
  - pose (g1 := handleMouseEnter (rowIndex p) (colIndex p) (colKey p) g).
    assert (Hg1 : g1 = withSelection (mkRange (start sel) p) g).
    { unfold g1, handleMouseEnter. rewrite Hsel, Hdown, Hmode. by destruct p. }
    change (enterCells (p :: path) g) with (enterCells path g1).
    destruct (IH g1 (mkRange (start sel) p)) as (? & ? & Hs & Hd & Hh & Ht);
      [by rewrite Hg1..|].
    split; [done|]. split; [done|].
    rewrite Hs, Hd, Hh, Ht, Hg1, last_cons_default. done.
Qed.

(** X16. A drag over cells selects the range from the pressed cell to the
    last cell entered, whatever cells were entered in between, and
    changes neither the sheet nor the history; once the button is
    released, entering a cell changes nothing. *)
Theorem cell_drag (g : Grid) (a b : CellPosition) (path : list CellPosition)
    (r c : nat) (k : string) :
  let pressed := handleMouseDown (rowIndex a) (colIndex a) (colKey a) g in
  let dragged := enterCells (path ++ [b]) pressed in
  let released := handleMouseUpGlobal dragged in
  selection (app (ui pressed)) = Some (mkRange a a)
  ∧ selection (app (ui dragged)) = Some (mkRange a b)
  ∧ sheetData (app (ui dragged)) = sheetData (app (ui pressed))
  ∧ history (app (ui dragged)) = history (app (ui pressed))
  ∧ selection (app (ui released)) = Some (mkRange a b)
  ∧ handleMouseEnter r c k released = released.
Proof.
  intros pressed dragged released.
  assert (Hsel : selection (app (ui pressed)) = Some (mkRange a a))
    by (by destruct a).
  destruct (enterCells_cell (path ++ [b]) pressed (mkRange a a))
    as (_ & _ & Hs & Hd & Hh & _); [done..|].
  rewrite last_last in Hs. fold dragged in Hs, Hd, Hh.
  repeat split; try done.
  unfold handleMouseEnter. simpl. by destruct (selection (app (ui dragged))).
Qed.

(** X17. A press on a cell while another cell is being edited commits the
    buffer to the edited cell, not to the pressed one: edit mode is left,
    the edited cell reads as the buffer (and holds it as a string when it
    read differently before), no other cell changes, and the pressed cell
    becomes the selection.  A press on the cell being edited keeps the
    editor open and changes neither the sheet nor the history. *)
Theorem press_commits_edit (g : Grid) (ep : CellPosition) (r c : nat) (k : string) :
  isEditing (table (ui g)) = true →
  editingPos (table (ui g)) = Some ep →
  let data := sheetData (app (ui g)) in
  let buffer := editValue (table (ui g)) in
  let g' := handleMouseDown r c k g in
  let data' := sheetData (app (ui g')) in
  selection (app (ui g')) = Some (mkRange (mkPos r c k) (mkPos r c k))
  ∧ ((rowIndex ep, colKey ep) = (r, k) →
     data' = data ∧ history (app (ui g')) = history (app (ui g))
     ∧ table (ui g') = table (ui g))
  ∧ ((rowIndex ep, colKey ep) ≠ (r, k) →
     isEditing (table (ui g')) = false
     ∧ editingPos (table (ui g')) = None
     ∧ stringified (cellAt (rows data') (rowIndex ep) (colKey ep)) = buffer
     ∧ (∀ r' k', (r', k') ≠ (rowIndex ep, colKey ep) →
                 cellAt (rows data') r' k' = cellAt (rows data) r' k')
     ∧ (buffer ≠ stringified (cellAt (rows data) (rowIndex ep) (colKey ep)) →
        cellAt (rows data') (rowIndex ep) (colKey ep) = Some (VStr buffer)
        ∧ history (app (ui g'))
          = take MAX_HISTORY_STEPS (data :: history (app (ui g))))).
Proof.
  intros Hed Hpos data buffer g' data'.
  assert (Hsame : samePosition ep r k = true ↔ (rowIndex ep, colKey ep) = (r, k)).
  { unfold samePosition. rewrite andb_true_iff, bool_decide_eq_true, String.eqb_eq.
    split; [by intros [-> ->]|by intros [= -> ->]]. }
  split; [done|]. split.
  - intros Heq%Hsame. unfold data', g', handleMouseDown.
    rewrite Hpos, Hed, Heq. done.
  - intros Hne.
    assert (Hdiff : samePosition ep r k = false)
      by (destruct (samePosition ep r k); [by destruct Hne; apply Hsame|done]).
    assert (Happ : app (ui g')
                   = setSelection (Some (mkRange (mkPos r c k) (mkPos r c k)))
                       (app (handleSaveEdit None None (ui g)))).
    { unfold g', handleMouseDown. by rewrite Hpos, Hed, Hdiff. }
    assert (Htable : isEditing (table (ui g')) = false
                     ∧ editingPos (table (ui g')) = None).
    { unfold g', handleMouseDown. by rewrite Hpos, Hed, Hdiff. }
    destruct Htable as [? ?]. split; [done|]. split; [done|].
    unfold data'. rewrite Happ. simpl.
    rewrite (handleSaveEdit_app None None (ui g) ep) by (by rewrite Hpos).
    simpl. fold data. fold buffer.
    destruct (decide _) as [Hchange|Hsame']; simpl.
    + rewrite cellAt_savedRows. split; [done|]. split; [|done].
      intros r' k' Hother. by apply cellAt_savedRows_other.
    + apply dec_stable in Hsame'. split; [done|]. split; [done|].
      intros Hchange. by destruct Hchange.
Qed.

Lemma foldl_rows_length (f : nat → SheetRow → SheetRow) (rl : list nat) :
  ∀ rs : list (option SheetRow),
  (∀ r, r ∈ rl → r < length rs) →
  length (foldl (λ rs r, js_array_set rs r (f r (default ∅ (js_array_get rs r)))) rs rl)
  = length rs.
Proof.
  induction rl as [|r rl IH]; intros rs Hlt; simpl; [done|].
  assert (Hr : r < length rs) by (apply Hlt, list_elem_of_here).
  rewrite IH; rewrite js_array_set_length_lt by done; [done|].
  intros r' Hr'. by apply Hlt, list_elem_of_further.
Qed.

(** X18. Selecting all and pressing Delete or Backspace empties the
    sheet: on a sheet with at least one row and one column, outside edit
    mode, every cell of the grid is [null] afterwards, the numbers of
    rows and the columns are as before, and the prior sheet is on the
    history. *)
Theorem select_all_delete (e : KeyEvent) (g : Grid) :
  let data := sheetData (app (ui g)) in
  isEditing (table (ui g)) = false → modKey e = false →
  key e = "Delete" ∨ key e = "Backspace" →
  rows data ≠ [] → columns data ≠ [] →
  let ui' := handleKeyDown e (ui (handleSelectAll g)) in
  let data' := sheetData (app ui') in
  (∀ r c, r < length (rows data) → c < length (columns data) →
          cellAt (rows data') r (columnKey (columns data) c) = Some VNull)
  ∧ length (rows data') = length (rows data)
  ∧ columns data' = columns data
  ∧ history (app ui') = take MAX_HISTORY_STEPS (data :: history (app (ui g))).
Proof.
  intros data Hed Hmod Hkey Hrows%length_pos Hcols%length_pos ui' data'.
  assert (Hui : ui (handleSelectAll g)
                = {| app := setSelection
                              (Some (mkRange
                                       (mkPos 0 0 (columnKey (columns data) 0))
                                       (mkPos (lastRow data) (lastCol data)
                                          (columnKey (columns data) (lastCol data)))))
                              (app (ui g));
                     table := table (ui g) |}).
  { unfold handleSelectAll, saveIfEditing. by rewrite Hed. }
  unfold data', ui'. rewrite handleKeyDown_delete by (by rewrite ?Hui).
  rewrite Hui. unfold clearSelectedContent. simpl. fold data.
  set (sel := mkRange _ _).
  assert (HR : minR sel = 0 ∧ maxR sel = lastRow data
               ∧ minC sel = 0 ∧ maxC sel = lastCol data)
    by (unfold minR, maxR, minC, maxC; simpl; lia).
  destruct HR as (HminR & HmaxR & HminC & HmaxC).
  split; [|split; [|done]].
  - intros r c Hr Hc. rewrite cellAt_clearRows, decide_True; [done|].
    unfold lastRow, lastCol in *. split; [lia|].
    apply elem_of_rectKeys. exists c. split; [lia|done].
  - unfold clearRows. apply (foldl_rows_length (λ _, clearRow data sel)).
    intros r Hr%elem_of_range_incl. unfold lastRow in *. lia.
Qed.

(** ** Formula entry *)

Lemma allLetters_app (s1 s2 : string) :
  allLetters (s1 +:+ s2) = allLetters s1 && allLetters s2.
Proof.
  induction s1 as [|a s1 IH]; [done|]. rewrite string_app_cons. simpl.
  by rewrite IH, andb_assoc.
Qed.

Lemma matchFormulaTail_Some (val f : string) :
  matchFormulaTail val = Some f
  ↔ ∃ pre, val = pre +:+ String "=" f ∧ allLetters f = true.
Proof.
  split.
  - induction val as [|a val IH]; simpl; [done|].
    destruct (Ascii.eqb a "=" && allLetters val) eqn:Hhere.
    + intros [= <-]. apply andb_prop in Hhere as [Ha Hl].
      apply Ascii.eqb_eq in Ha as ->. by exists "".
    + intros (pre & -> & Hl)%IH. by exists (String a pre).
  - intros (pre & -> & Hl). induction pre as [|a pre IH].
    + rewrite string_app_nil. simpl. by rewrite Hl.
    + rewrite string_app_cons. simpl. rewrite allLetters_app. simpl.
      by rewrite !andb_false_r.
Qed.

Lemma matchFormulaTail_paren (s : string) : matchFormulaTail (s +:+ "(") = None.
Proof.
  induction s as [|a s IH]; [done|]. rewrite string_app_cons. simpl.
  rewrite allLetters_app. simpl. by rewrite !andb_false_r.
Qed.

(** X20. [handleInputChange] keeps the typed text as the buffer and sets
    the suggestion filter exactly when the text starts with an equals
    sign and ends with an equals sign followed by letters only; the
    filter is then that run of letters, the text after the last equals
    sign.  So the text "=" followed by letters gives these letters, a
    text that ends with an opening parenthesis gives no filter, and the
    buffer a chosen suggestion leaves agrees with the cleared filter.
    Nothing but the buffer and the filter changes. *)
Theorem formula_filter_spec (val : string) (u : UI) :
  let u' := handleInputChange val u in
  (∀ f, suggestionFilter (table u') = Some f
        ↔ String.prefix "=" val = true
          ∧ ∃ pre, val = pre +:+ String "=" f ∧ allLetters f = true)
  ∧ (∀ f, allLetters f = true →
          suggestionFilter (table (handleInputChange (String "=" f) u)) = Some f)
  ∧ (∀ s, suggestionFilter (table (handleInputChange (s +:+ "(") u)) = None)
  ∧ (∀ fnName,
       let chosen := onSelectSuggestion fnName u in
       suggestionFilter (table (handleInputChange (editValue (table chosen)) chosen))
       = suggestionFilter (table chosen))
  ∧ editValue (table u') = val
  ∧ app u' = app u
  ∧ isEditing (table u') = isEditing (table u)
  ∧ editingPos (table u') = editingPos (table u).
Proof.
  intros u'. split; [|split; [|split; [|split]]]; try done.
  - intros f. unfold u', handleInputChange. simpl.
    destruct (String.prefix "=" val).
    + rewrite matchFormulaTail_Some. split; [done|by intros [_ ?]].
    + split; [done|by intros [? _]].
  - intros f Hf. unfold handleInputChange. simpl.
    destruct (ascii_dec "=" "=") as [_|?]; [|done].
    assert (Hp : String.prefix "" f = true) by (by destruct f).
    by rewrite Hp, Hf.
  - intros s. unfold handleInputChange. simpl.
    rewrite matchFormulaTail_paren. by destruct (String.prefix _ _).
  - intros fnName chosen. unfold chosen, handleInputChange, onSelectSuggestion.
    cbn [suggestionFilter table editValue].
    rewrite <- string_app_assoc, matchFormulaTail_paren.
    by destruct (String.prefix _ _).
Qed.

(** ** The list of suggestions *)

Lemma upperChar_idem (a : ascii) : upperChar (upperChar a) = upperChar a.
Proof. by destruct a as [[] [] [] [] [] [] [] []]. Qed.

Lemma toUpperCase_idem (s : string) : toUpperCase (toUpperCase s) = toUpperCase s.
Proof.
  induction s as [|a s IH]; [done|]. simpl. by rewrite upperChar_idem, IH.
Qed.

Lemma prefix_first (a : ascii) (s t : string) :
  String.prefix (String a s) t = true → String.prefix (String a "") t = true.
Proof.
  destruct t as [|b t]; simpl; [done|].
  destruct (ascii_dec a b); [|done]. intros _. by destruct t.
Qed.

Lemma filter_length_mono {A} (p q : A → bool) (l : list A) :
  (∀ x, p x = true → q x = true) →
  length (List.filter p l) ≤ length (List.filter q l).
Proof.
  intros Hpq. induction l as [|x l IH]; simpl; [done|].
  destruct (p x) eqn:Hp.
  - rewrite (Hpq x Hp). simpl. lia.
  - destruct (q x); simpl; lia.
Qed.

(** At most two functions of the catalogue start with the same letter. *)
Lemma first_letter_bound (a : ascii) :
  length (List.filter (λ f, String.prefix (String a "") (docName f))
            SUPPORTED_FUNCTIONS) ≤ 2.
Proof. destruct a as [[] [] [] [] [] [] [] []]; vm_compute; lia. Qed.

Lemma filtered_nonempty (a : ascii) (s : string) :
  filtered (String a s) = List.filter (matchesFilter (String a s)) SUPPORTED_FUNCTIONS
  ∧ length (filtered (String a s)) ≤ 2.
Proof.
  assert (Hlen : length (List.filter (matchesFilter (String a s)) SUPPORTED_FUNCTIONS)
                 ≤ 2).
  { etrans; [|apply (first_letter_bound (upperChar a))].
    apply filter_length_mono. intros f. unfold matchesFilter. simpl.
    apply prefix_first. }
  unfold filtered. rewrite take_ge by lia. done.
Qed.

Lemma elem_of_filtered (filter : string) (f : FunctionDoc) :
  f ∈ filtered filter →
  f ∈ SUPPORTED_FUNCTIONS ∧ String.prefix (toUpperCase filter) (docName f) = true.
Proof.
  unfold filtered. intros Hin.
  pose proof (elem_of_sublist _ _ _ Hin (sublist_take _ 10)) as Hin'.
  apply list_elem_of_In, filter_In in Hin' as [Hin' Hm].
  split; [by apply list_elem_of_In|done].
Qed.

(** X21. For a filter made of letters, the functions offered are
    functions of the catalogue whose names start with the filter in upper
    case, in the order of the catalogue, at most ten of them.  The limit
    of ten only matters for the empty filter, which offers the first ten
    functions of the catalogue: a filter that is not empty matches at
    most two functions and every match is offered.  The case of the
    filter is irrelevant. *)
Theorem filtered_spec (filter : string) :
  allLetters filter = true →
  (∀ f, f ∈ filtered filter →
        f ∈ SUPPORTED_FUNCTIONS
        ∧ String.prefix (toUpperCase filter) (docName f) = true)
  ∧ filtered filter `sublist_of` SUPPORTED_FUNCTIONS
  ∧ length (filtered filter) ≤ 10
  ∧ (filter ≠ "" →
     length (filtered filter) ≤ 2
     ∧ ∀ f, f ∈ SUPPORTED_FUNCTIONS →
            String.prefix (toUpperCase filter) (docName f) = true →
            f ∈ filtered filter)
  ∧ (filter = "" → filtered filter = take 10 SUPPORTED_FUNCTIONS)
  ∧ filtered (toUpperCase filter) = filtered filter.
Proof.
  intros _. split; [apply elem_of_filtered|]. split; [|split; [|split; [|split]]].
  - unfold filtered. etrans; [apply sublist_take|].
    induction SUPPORTED_FUNCTIONS as [|x l IH]; simpl; [done|].
    destruct (matchesFilter filter x); by constructor.
  - unfold filtered. rewrite length_take. lia.
  - destruct filter as [|a s]; [done|]. intros _.
    destruct (filtered_nonempty a s) as [-> Hlen]. split; [exact Hlen|].
    intros f Hin Hm. apply list_elem_of_In, filter_In.
    split; [by apply list_elem_of_In|done].
  - by intros ->.
  - unfold filtered, matchesFilter. by rewrite toUpperCase_idem.
Qed.

Lemma suggestionsKeyDown_down (filter : string) (i : nat) :
  i ≤ length (filtered filter) →
  (suggestionsKeyDown "ArrowDown" filter i).1
  = if decide (i = length (filtered filter)) then 0 else S i.
Proof.
  intros Hi. unfold suggestionsKeyDown. simpl. case_decide as Hn.
  - rewrite Hn, Z_mod_same_full. done.
  - rewrite Z.mod_small by lia. lia.
Qed.

Lemma suggestionsKeyDown_up (filter : string) (i : nat) :
  i ≤ length (filtered filter) →
  (suggestionsKeyDown "ArrowUp" filter i).1
  = if decide (i = 0) then length (filtered filter) else i - 1.
Proof.
  intros Hi. unfold suggestionsKeyDown. simpl. case_decide as Hn.
  - subst. rewrite Z.mod_small by lia. lia.
  - replace (Z.of_nat i - 1 + (Z.of_nat (length (filtered filter)) + 1))%Z
      with (Z.of_nat i - 1 + 1 * (Z.of_nat (length (filtered filter)) + 1))%Z by lia.
    rewrite Z_mod_plus_full, Z.mod_small by lia. lia.
Qed.

(** X22. The highlighted entry of the suggestion list ranges over the
    offered functions and one further entry, the request to the
    assistant.  From an index in that range, ArrowDown moves to the next
    entry and from the last to the first, ArrowUp to the previous entry
    and from the first to the last; the index stays in the range and the
    two keys undo each other.  Enter and Tab keep the index: on the last
    entry they call the assistant, on any other they choose the function
    highlighted, one of the catalogue whose name starts with the filter
    in upper case. *)
Theorem suggestion_navigation (filter : string) (i : nat) :
  let n := length (filtered filter) in
  let down := (suggestionsKeyDown "ArrowDown" filter i).1 in
  let up := (suggestionsKeyDown "ArrowUp" filter i).1 in
  i ≤ n →
  down = (if decide (i = n) then 0 else S i)
  ∧ up = (if decide (i = 0) then n else i - 1)
  ∧ down ≤ n ∧ up ≤ n
  ∧ (suggestionsKeyDown "ArrowUp" filter down).1 = i
  ∧ (suggestionsKeyDown "ArrowDown" filter up).1 = i
  ∧ (suggestionsKeyDown "ArrowDown" filter i).2 = NoAction
  ∧ (suggestionsKeyDown "ArrowUp" filter i).2 = NoAction
  ∧ ∀ key_, key_ = "Enter" ∨ key_ = "Tab" →
      (suggestionsKeyDown key_ filter i).1 = i
      ∧ (i = n → (suggestionsKeyDown key_ filter i).2 = AIRequest)
      ∧ (i < n →
         ∃ f, filtered filter !! i = Some f
              ∧ (suggestionsKeyDown key_ filter i).2 = SelectFunction (docName f)
              ∧ f ∈ SUPPORTED_FUNCTIONS
              ∧ String.prefix (toUpperCase filter) (docName f) = true).
Proof.
  intros n down up Hi.
  assert (Hdown : down = if decide (i = n) then 0 else S i)
    by (by apply suggestionsKeyDown_down).
  assert (Hup : up = if decide (i = 0) then n else i - 1)
    by (by apply suggestionsKeyDown_up).
  assert (down ≤ n) by (rewrite Hdown; destruct (decide (i = n)); lia).
  assert (up ≤ n) by (rewrite Hup; destruct (decide (i = 0)); lia).
  split; [done|]. split; [done|]. split; [done|]. split; [done|].
  split; [|split; [|split; [done|split; [done|]]]].
  - rewrite suggestionsKeyDown_up by done. fold n. rewrite Hdown.
    clear Hdown Hup.
    destruct (decide (i = n));
      [rewrite decide_True by done|rewrite decide_False by lia]; lia.
  - rewrite suggestionsKeyDown_down by done. fold n. rewrite Hup.
    clear Hdown Hup.
    destruct (decide (i = 0));
      [rewrite decide_True by done|rewrite decide_False by lia]; lia.
  - intros key_ Hkey.
    assert (Hstep : suggestionsKeyDown key_ filter i
                    = if bool_decide (i = n) then (i, AIRequest)
                      else match filtered filter !! i with
                           | Some f => (i, SelectFunction (docName f))
                           | None => (i, NoAction)
                           end)
      by (by destruct Hkey as [-> | ->]).
    rewrite Hstep. split; [|split].
    + case_bool_decide; [done|]. by destruct (filtered filter !! i).
    + intros Heq. by rewrite bool_decide_eq_true_2.
    + intros Hlt. rewrite bool_decide_eq_false_2 by lia.
      destruct (lookup_lt_is_Some_2 (filtered filter) i Hlt) as [f Hf].
      exists f. rewrite Hf. split; [done|]. split; [done|].
      apply elem_of_filtered. by eapply list_elem_of_lookup_2.
Qed.

(** ** Import *)

Lemma NoDup_columnLabels (n : nat) : NoDup (columnLabel <$> seq 0 n).
Proof.
  apply NoDup_fmap_2_strong; [|apply NoDup_seq].
  intros i j _ _ Heq. apply (f_equal labelIndex) in Heq.
  rewrite !labelIndex_columnLabel in Heq. lia.
Qed.

Lemma parseRow_snoc (cols : list string) (x : string)
    (rowArr : list (option CellValue)) :
  parseRow (cols ++ [x]) rowArr
  = <[x := default VNull (mjoin (rowArr !! length cols))]> (parseRow cols rowArr).
Proof.
  unfold parseRow. rewrite length_app. simpl.
  rewrite Nat.add_1_r, seq_S. simpl.
  rewrite zip_with_app by (by rewrite length_seq).
  by rewrite foldl_app.
Qed.

Lemma parseRow_lookup (rowArr : list (option CellValue)) (cols : list string) :
  NoDup cols → ∀ c k, cols !! c = Some k →
  parseRow cols rowArr !! k = Some (default VNull (mjoin (rowArr !! c))).
Proof.
  induction cols as [|x cols IH] using rev_ind; intros Hnd c k Hk; [done|].
  apply NoDup_app in Hnd as (Hnd & Hx & _). rewrite parseRow_snoc.
  destruct (decide (c < length cols)) as [Hc|Hc].
  - rewrite lookup_app_l in Hk by done.
    rewrite lookup_insert_ne; [by apply IH|].
    intros <-. apply (Hx x); [by eapply list_elem_of_lookup_2|apply list_elem_of_here].
  - rewrite lookup_app_r in Hk by lia.
    destruct (c - length cols) as [|?] eqn:Hd; [|done].
    injection Hk as ->. assert (c = length cols) as -> by lia.
    apply lookup_insert_eq.
Qed.

Lemma parseRow_lookup_None (rowArr : list (option CellValue)) (cols : list string)
    (k : string) :
  k ∉ cols → parseRow cols rowArr !! k = None.
Proof.
  induction cols as [|x cols IH] using rev_ind; intros Hk; [done|].
  rewrite parseRow_snoc. rewrite not_elem_of_app, list_elem_of_singleton in Hk.
  destruct Hk as [Hk Hx]. rewrite lookup_insert_ne by done. by apply IH.
Qed.

(** X23. The sheet [parseExcelFile] builds from the rows of the first
    worksheet is dense: it has a row, every row is an object, its labels
    are distinct; for a worksheet with rows the labels are those of the
    indices below the length of the longest row, there are as many rows
    as in the worksheet, every cell of a row under one of the labels
    holds the entry of the worksheet row, [null] where the entry is
    missing or undefined, and a row has no other key; for a worksheet
    without rows the sheet is the single cell A1 holding [null].  The
    sheet has no styles and no merge regions. *)
Theorem parseExcelFile_dense (firstSheetName : string)
    (jsonData : list (list (option CellValue))) :
  let d := parseExcelFile firstSheetName jsonData in
  let maxCols := max_list (length <$> jsonData) in
  name d = firstSheetName
  ∧ NoDup (columns d)
  ∧ rows d ≠ []
  ∧ Forall is_Some (rows d)
  ∧ cellStyles d = None ∧ merges d = None
  ∧ (jsonData = [] →
     columns d = ["A"] ∧ rows d = [Some ({[ "A" := VNull ]} : SheetRow)])
  ∧ (jsonData ≠ [] →
     columns d = columnLabel <$> seq 0 maxCols
     ∧ length (rows d) = length jsonData
     ∧ (∀ r c rowArr, jsonData !! r = Some rowArr → c < maxCols →
          cellAt (rows d) r (columnKey (columns d) c)
          = Some (default VNull (mjoin (rowArr !! c))))
     ∧ (∀ r rowArr k, jsonData !! r = Some rowArr → k ∉ columns d →
          cellAt (rows d) r k = None)).
Proof.
  intros d maxCols. destruct jsonData as [|row0 rest] eqn:Hjson.
  - repeat split; try done.
    + apply NoDup_singleton.
    + by repeat constructor.
  - rewrite <- Hjson in *.
    assert (Hd : d = {| name := firstSheetName;
                        columns := columnLabel <$> seq 0 maxCols;
                        rows := (λ rowArr,
                                   Some (parseRow (columnLabel <$> seq 0 maxCols) rowArr))
                                <$> jsonData;
                        rowHeights := None; colWidths := None;
                        cellStyles := None; merges := None |})
      by (unfold d, maxCols; by rewrite Hjson).
    rewrite Hd. simpl.
    split; [done|]. split; [apply NoDup_columnLabels|].
    split; [by rewrite Hjson|].
    split; [apply Forall_fmap, Forall_true; by eauto|].
    split; [done|]. split; [done|]. split; [by rewrite Hjson|]. intros _.
    split; [done|]. split; [by rewrite length_fmap|]. split.
    + intros r c rowArr Hr Hc. unfold cellAt, js_array_get.
      rewrite list_lookup_fmap, Hr. simpl.
      apply parseRow_lookup; [apply NoDup_columnLabels|].
      unfold columnKey. by rewrite list_lookup_fmap, lookup_seq_lt.
    + intros r rowArr k Hr Hk. unfold cellAt, js_array_get.
      rewrite list_lookup_fmap, Hr. simpl. by apply parseRow_lookup_None.
Qed.

(** ** The answer of the assistant *)

Lemma mergeStyles_lookup (patch styles : gmap string CellStyle) (id : string) :
  mergeStyles patch styles !! id
  = match patch !! id with
    | Some st => Some (spreadStyle (default emptyStyle (styles !! id)) st)
    | None => styles !! id
    end.
Proof.
  unfold mergeStyles. revert id.
  apply (map_fold_weak_ind
           (λ (r : gmap string CellStyle) (m : gmap string CellStyle),
              ∀ id, r !! id
                    = match m !! id with
                      | Some st => Some (spreadStyle (default emptyStyle (styles !! id)) st)
                      | None => styles !! id
                      end)).
  - intros id. by rewrite lookup_empty.
  - intros i x m r Hi IH id. destruct (decide (id = i)) as [->|Hne].
    + rewrite !lookup_insert_eq. rewrite IH, Hi. done.
    + rewrite !lookup_insert_ne by done. apply IH.
Qed.

Lemma styleMapOf_lookup (items : list AIStyleUpdate) (id : string) :
  styleMapOf items !! id = lastStyleFor id items.
Proof.
  unfold lastStyleFor.
  induction items as [|x items IH] using rev_ind.
  - unfold styleMapOf. simpl. rewrite lookup_empty. by case_decide.
  - unfold styleMapOf in *. rewrite foldl_snoc, omap_app, last_app. simpl.
    destruct (style x) as [st|] eqn:Hst.
    + destruct (String.eqb_spec (cellId_ x) "") as [Hempty|Hfull].
      * rewrite IH. destruct (decide (id = "")) as [->|Hid]; [done|].
        rewrite decide_False by congruence. done.
      * destruct (decide (cellId_ x = id)) as [<-|Hne].
        -- rewrite lookup_insert_eq, decide_False by done. done.
        -- rewrite lookup_insert_ne by done. rewrite IH.
           by destruct (decide (id = "")).
    + rewrite IH. destruct (decide (id = "")); [done|].
      by destruct (decide (cellId_ x = id)).
Qed.

Lemma applyResult_rows (result : AIProcessingResult) (d : SheetData) :
  rows (applyResult result d).1
  = match updatedRows result with
    | Some rs =>
        if decide (0 < length (filter is_Some rs)) then filter is_Some rs else rows d
    | None => rows d
    end.
Proof.
  unfold applyResult.
  destruct (updatedRows result) as [rs|]; [|by destruct (updatedStyles result)].
  destruct (decide (0 < length (filter is_Some rs)));
    by destruct (updatedStyles result).
Qed.

(** X24. The answer of the assistant never installs an empty row set or
    a row that is [null]: if the sheet the command patches and the live
    sheet have a row, so has the sheet after the answer, and if none of
    their rows is a hole, none is afterwards.  The answer either leaves
    sheet and history alone or pushes the sheet of its closure on the
    live history; it clears the processing flag, keeps the selection,
    and appends one message when a response arrived and none when the
    request failed. *)
Theorem assistant_keeps_rows (captured : SheetData)
    (response : option (option string)) (now : Z) (st : AppState) :
  let st' := runAICommand captured response now st in
  (rows captured ≠ [] → rows (sheetData st) ≠ [] → rows (sheetData st') ≠ [])
  ∧ (Forall is_Some (rows captured) → Forall is_Some (rows (sheetData st)) →
     Forall is_Some (rows (sheetData st')))
  ∧ ((sheetData st' = sheetData st ∧ history st' = history st)
     ∨ history st' = take MAX_HISTORY_STEPS (captured :: history st))
  ∧ isProcessing st' = false
  ∧ selection st' = selection st
  ∧ length (messages st')
    = length (messages st) + match response with Some _ => 1 | None => 0 end.
Proof.
  intros st'. unfold st', runAICommand.
  destruct response as [responseText|]; simpl; [|by rewrite Nat.add_0_r; auto 10].
  pose proof (applyResult_rows (processWithAI responseText) captured) as Hrows.
  destruct (applyResult _ _) as [updatedSheet [|]]; simpl in *.
  - rewrite Hrows. repeat split.
    + intros Hc _. destruct (updatedRows _) as [rs|]; [|done].
      case_decide as Hlen; [|done]. intros Hnil. rewrite Hnil in Hlen. simpl in Hlen. lia.
    + intros Hc _. destruct (updatedRows _) as [rs|]; [|done].
      case_decide; [|done]. apply Forall_forall. by intros x [? _]%list_elem_of_filter.
    + by right.
    + rewrite length_app. simpl. lia.
  - repeat split; try done; [by left|].
    rewrite length_app. simpl. lia.
Qed.

(** X25. When the response carries a style array, every cell style after
    the answer is the style of the sheet the command patches, overridden
    field by field by the last entry of the array for that cell; entries
    with an empty cell key or without a style are ignored, and cells
    without an entry keep their style.  The merge regions are those of
    the patched sheet, and the sheet of the closure is pushed on the
    history even when the array is empty. *)
Theorem assistant_styles (captured : SheetData) (responseText : option string)
    (now : Z) (st : AppState) (parsed : RawResponse) (items : list AIStyleUpdate) :
  JSON_parse (orString responseText "{}") = Some parsed →
  rawStyles parsed = Some items →
  let st' := runAICommand captured (Some responseText) now st in
  let old := default ∅ (cellStyles captured) in
  (∀ id, default ∅ (cellStyles (sheetData st')) !! id
         = match lastStyleFor id items with
           | Some patch => Some (spreadStyle (default emptyStyle (old !! id)) patch)
           | None => old !! id
           end)
  ∧ history st' = take MAX_HISTORY_STEPS (captured :: history st)
  ∧ merges (sheetData st') = merges captured.
Proof.
  intros Hparse Hstyles st' old.
  assert (Hres : applyResult (processWithAI responseText) captured
                 = (let d1 := (applyResult
                                 {| updatedRows := filter is_Some <$> rawRows parsed;
                                    updatedStyles := None;
                                    insight := None; newColumns := rawNewColumns parsed;
                                    chartData := None; chartType := None |} captured).1 in
                    ({| name := name d1; columns := columns d1; rows := rows d1;
                        rowHeights := rowHeights d1; colWidths := colWidths d1;
                        cellStyles := Some (mergeStyles (styleMapOf items) old);
                        merges := merges captured |}, true))).
  { unfold processWithAI. rewrite Hparse. unfold applyResult. simpl.
    rewrite Hstyles. simpl.
    destruct (filter is_Some <$> rawRows parsed) as [rs|]; [|done].
    by case_decide. }
  unfold st', runAICommand. rewrite Hres. simpl.
  split; [|done]. intros id. by rewrite mergeStyles_lookup, styleMapOf_lookup.
Qed.

(** X26. From typing to the chosen formula: when the editor holds "="
    followed by letters that start the name of a function of the
    catalogue in any case, the filter is these letters, the first entry
    of the list is such a function, and on Enter or Tab the key handler
    of the list (which highlights its first entry when the filter
    changes) puts "=", the name of that function and an opening
    parenthesis in the editor and closes the list.  That handler and its
    callbacks leave the application state alone; the key handler of the
    table, which receives the same key, is [handleKeyDown] and is not
    part of this statement. *)
Theorem suggestion_chosen (p : string) (u : UI) (key_ : string) :
  allLetters p = true → filtered p ≠ [] →
  key_ = "Enter" ∨ key_ = "Tab" →
  let typed := handleInputChange (String "=" p) u in
  let chosen := applySuggestionAction (suggestionsKeyDown key_ p 0).2 typed in
  suggestionFilter (table typed) = Some p
  ∧ ∃ f, filtered p !! 0 = Some f
         ∧ f ∈ SUPPORTED_FUNCTIONS
         ∧ String.prefix (toUpperCase p) (docName f) = true
         ∧ editValue (table chosen) = "=" +:+ docName f +:+ "("
         ∧ suggestionFilter (table chosen) = None
         ∧ app chosen = app u.
Proof.
  intros Hp Hne Hkey typed chosen. split.
  - unfold typed, handleInputChange. simpl.
    destruct (ascii_dec "=" "=") as [_|?]; [|done].
    assert (Hpre : String.prefix "" p = true) by (by destruct p).
    by rewrite Hpre, Hp.
  - destruct (filtered p) as [|f fs] eqn:Hf; [done|]. exists f.
    assert (Hin : f ∈ filtered p) by (rewrite Hf; apply list_elem_of_here).
    destruct (elem_of_filtered p f Hin) as [Hcat Hpre].
    split; [done|]. split; [done|]. split; [done|].
    assert (Hact : (suggestionsKeyDown key_ p 0).2 = SelectFunction (docName f)).
    { unfold suggestionsKeyDown. rewrite Hf.
      by destruct Hkey as [-> | ->]. }
    unfold chosen. by rewrite Hact.
Qed.

(** ** Colour codes *)

Lemma isHexDigit_upper (a : ascii) :
  isHexDigit a = true → isHexDigit (upperChar a) = true ∧ Ascii.eqb a "#" = false.
Proof. destruct a as [[] [] [] [] [] [] [] []]; vm_compute; by intros. Qed.

Lemma allHex_upper (x : string) : allHex x = true → allHex (toUpperCase x) = true.
Proof.
  induction x as [|a x IH]; [done|]. simpl. intros [Ha Hx]%andb_prop.
  apply isHexDigit_upper in Ha as [-> _]. by rewrite IH.
Qed.

Lemma removeFirstHash_hex (x : string) : allHex x = true → removeFirstHash x = x.
Proof.
  induction x as [|a x IH]; [done|]. simpl. intros [Ha Hx]%andb_prop.
  apply isHexDigit_upper in Ha as [_ ->]. by rewrite IH.
Qed.

Lemma length_toUpperCase (x : string) :
  String.length (toUpperCase x) = String.length x.
Proof. induction x as [|a x IH]; [done|]. simpl. by rewrite IH. Qed.

(** X27. For a colour code made of a hash and hexadecimal digits,
    [hexToARGB] answers "FF" followed by the digits in upper case: two
    characters more than the digits, again hexadecimal, the same for the
    code in either case, and the same when the hash is left out (of a
    code that is not empty).  For an absent or empty code it answers
    [undefined]. *)
Theorem hexToARGB_spec (x : string) :
  allHex x = true →
  hexToARGB (Some (String "#" x)) = Some ("FF" +:+ toUpperCase x)
  ∧ allHex (toUpperCase x) = true
  ∧ String.length ("FF" +:+ toUpperCase x) = 2 + String.length x
  ∧ hexToARGB (Some (String "#" (toUpperCase x))) = hexToARGB (Some (String "#" x))
  ∧ (x ≠ "" → hexToARGB (Some x) = hexToARGB (Some (String "#" x)))
  ∧ hexToARGB None = None
  ∧ hexToARGB (Some "") = None.
Proof.
  intros Hx. split; [done|]. split; [by apply allHex_upper|].
  split.
  { change (String.length ("FF" +:+ toUpperCase x))
      with (S (S (String.length (toUpperCase x)))).
    by rewrite length_toUpperCase. }
  split.
  { unfold hexToARGB. cbn [String.eqb removeFirstHash Ascii.eqb Bool.eqb].
    by rewrite toUpperCase_idem. }
  split; [|done]. intros Hne. unfold hexToARGB.
  destruct (String.eqb_spec x ""); [done|]. simpl.
  by rewrite removeFirstHash_hex.
Qed.

(** ** The fresh sheet *)

Lemma foldl_insert_const {K V} `{Countable K} (v : V) (ks : list K) (k : K) :
  ∀ m : gmap K V,
  foldl (λ m k', <[k' := v]> m) m ks !! k
  = if decide (k ∈ ks) then Some v else m !! k.
Proof.
  induction ks as [|k0 ks IH]; intros m; simpl; [done|].
  rewrite IH. destruct (decide (k ∈ ks)) as [Hin|Hin].
  - by rewrite decide_True by (by apply list_elem_of_further).
  - destruct (decide (k = k0)) as [->|Hne].
    + rewrite lookup_insert_eq. by rewrite decide_True by apply list_elem_of_here.
    + rewrite lookup_insert_ne by done.
      rewrite decide_False; [done|]. rewrite elem_of_cons. intros [?|?]; done.
Qed.

Lemma cellAt_replicate (n : nat) (row : SheetRow) (r : nat) (k : string) :
  cellAt (replicate n (Some row)) r k = if decide (r < n) then row !! k else None.
Proof.
  unfold cellAt, js_array_get. case_decide.
  - by rewrite lookup_replicate_2.
  - by rewrite lookup_ge_None_2 by (rewrite length_replicate; lia).
Qed.

(** X28. The sheet [createEmptySheet] builds is a dense grid of fifty
    rows and twenty columns: the labels are those of the indices 0 to 19
    and are distinct, every cell of the grid exists and holds [null], a
    row has no key besides the labels, every column has the initial
    width and every row the initial height, and there are neither styles
    nor merge regions. *)
Theorem createEmptySheet_dense :
  let d := createEmptySheet in
  length (rows d) = DEFAULT_ROWS
  ∧ length (columns d) = DEFAULT_COLS
  ∧ NoDup (columns d)
  ∧ (∀ c, c < DEFAULT_COLS → columns d !! c = Some (columnLabel c))
  ∧ (∀ r c, r < DEFAULT_ROWS → c < DEFAULT_COLS →
            cellAt (rows d) r (columnKey (columns d) c) = Some VNull)
  ∧ (∀ r k, k ∉ columns d → cellAt (rows d) r k = None)
  ∧ (∀ c, c < DEFAULT_COLS →
          default ∅ (colWidths d) !! columnKey (columns d) c
          = Some (numOfZ INITIAL_COL_WIDTH))
  ∧ (∀ r, r < DEFAULT_ROWS →
          default ∅ (rowHeights d) !! r = Some (numOfZ INITIAL_ROW_HEIGHT))
  ∧ cellStyles d = Some ∅ ∧ merges d = Some [].
Proof.
  intros d.
  assert (Hcols : columns d = columnLabel <$> seq 0 DEFAULT_COLS) by done.
  assert (Hlookup : ∀ c, c < DEFAULT_COLS → columns d !! c = Some (columnLabel c)).
  { intros c Hc. by rewrite Hcols, list_lookup_fmap, lookup_seq_lt. }
  assert (Hkey : ∀ c, c < DEFAULT_COLS → columnKey (columns d) c ∈ columns d).
  { intros c Hc. unfold columnKey. rewrite (Hlookup c Hc). simpl.
    by eapply list_elem_of_lookup_2, Hlookup. }
  assert (Hrows : rows d
                  = replicate DEFAULT_ROWS
                      (Some (foldl (λ (m : SheetRow) col, <[col := VNull]> m) ∅
                               (columns d))))
    by done.
  split; [apply length_replicate|].
  split; [by rewrite Hcols, length_fmap, length_seq|].
  split; [apply createEmptySheet_columns_NoDup|].
  split; [done|]. split; [|split; [|split; [|split; [|done]]]].
  - intros r c Hr Hc.
    rewrite Hrows, cellAt_replicate, decide_True, foldl_insert_const by done.
    by rewrite decide_True by (by apply Hkey).
  - intros r k Hk. rewrite Hrows, cellAt_replicate.
    case_decide; [|done]. rewrite foldl_insert_const. by rewrite decide_False.
  - intros c Hc.
    change (default ∅ (colWidths d))
      with (foldl (λ (m : gmap string Num) col, <[col := numOfZ INITIAL_COL_WIDTH]> m)
              ∅ (columns d)).
    rewrite foldl_insert_const. by rewrite decide_True by (by apply Hkey).
  - intros r Hr.
    change (default ∅ (rowHeights d))
      with (foldl (λ (m : gmap nat Num) i, <[i := numOfZ INITIAL_ROW_HEIGHT]> m)
              ∅ (seq 0 DEFAULT_ROWS)).
    rewrite foldl_insert_const. rewrite decide_True; [done|].
    apply elem_of_seq. lia.
Qed.

End Sheet.

(** * Instances

    The statements above at the sample sheets, with integers for numbers
    and their decimal printing for [toString]. *)

Ltac by_decide := apply (bool_decide_unpack _); vm_compute; exact I.

Lemma merge_content_witness :
  ∃ st', executeMerge zToString Content blockApp = Some st'
         ∧ cellAt (rows (sheetData st')) 0 "A" = Some (VStr "A B C")
         ∧ cellAt (rows (sheetData st')) 0 "B" = Some VNull
         ∧ cellAt (rows (sheetData st')) 1 "A" = Some VNull
         ∧ cellAt (rows (sheetData st')) 1 "B" = Some VNull.
Proof.
  destruct (merge_content zToString blockApp blockSelection)
    as (st' & Hex & Htl & Hrest).
  - reflexivity.
  - by_decide.
  - vm_compute. lia.
  - intros r c Hr Hc. vm_compute in Hr, Hc.
    assert (Hr' : r = 0 ∨ r = 1) by lia. assert (Hc' : c = 0 ∨ c = 1) by lia.
    destruct Hr' as [-> | ->], Hc' as [-> | ->]; vm_compute; eauto.
  - exists st'. split; [exact Hex|]. split; [exact Htl|].
    repeat split.
    + apply (Hrest 0 1); [vm_compute; lia..|discriminate].
    + apply (Hrest 1 0); [vm_compute; lia..|discriminate].
    + apply (Hrest 1 1); [vm_compute; lia..|discriminate].
Defined.

Lemma merge_toggle_unmerges_witness :
  let merged := mergedApp zToString in
  executeMerge zToString Content blockApp = Some merged
  ∧ (∃ st2, handleMergeToggle zToString merged = Some st2
            ∧ merges (sheetData st2) = Some []
            ∧ rows (sheetData st2) = rows (sheetData merged))
  ∧ (∃ st' idx, handleMergeToggle zToString merged = Some st'
                ∧ default [] (merges (sheetData merged)) !! idx
                  = Some blockSelection
                ∧ merges (sheetData st')
                  = Some (delete idx (default [] (merges (sheetData merged))))
                ∧ rows (sheetData st') = rows (sheetData merged)).
Proof.
  intros merged.
  assert (Hex : executeMerge zToString Content blockApp = Some merged)
    by (vm_compute; reflexivity).
  split; [exact Hex|]. split.
  - destruct (merge_toggle_unmerges zToString blockApp blockSelection eq_refl)
      as [_ Hround].
    destruct (Hround (λ m Hin, False_ind _ (proj1 (elem_of_nil m) Hin))
                Content merged Hex)
      as (st2 & Htoggle & Hms & Hrows).
    exists st2. repeat split; assumption.
  - destruct (merge_toggle_unmerges zToString merged blockSelection eq_refl)
      as [Hremove _].
    destruct Hremove
      as (st' & idx & m & Htoggle & Hm & _ & _ & Hms & _ & Hrows & _).
    + exists blockSelection.
      split; [exact (list_elem_of_here blockSelection [])|reflexivity].
    + exists st', idx. split; [exact Htoggle|]. split; [|by split].
      rewrite Hm. destruct idx as [|idx]; vm_compute in Hm; [done|].
      destruct idx; discriminate.
Defined.


(** C5, at a failing input.  The assistant is asked for a change on the
    two-row sheet, whose A2 is selected and [null].  During the request
    the user types 7 and presses Enter: the edit is committed, the live
    sheet holds "7" in A2 and the history the sheet of the request.  Then
    the response arrives, with a style for A1 and no rows.  [runAICommand]
    patches and pushes the sheet of the render in which the command was
    issued: the live sheet loses the committed "7", the history holds the
    sheet of the request twice, and undo installs that sheet, with [null]
    in A2, which is not the sheet that was live before the response was
    applied. *)
Theorem undo_after_stale_response :
  let requested : UI := fiveUI id in
  let captured := sheetData (app requested) in
  let edited :=
    run zToString parseBoldA1
      [KeyDown (mkKey "7" false false); KeyDown enterKey] requested in
  let answered :=
    step zToString parseBoldA1 (AIResponse captured (Some (Some "{}")) 7) edited in
  let undone := step zToString parseBoldA1 Undo answered in
  cellAt (rows captured) 1 "A" = Some VNull
  ∧ cellAt (rows (sheetData (app edited))) 1 "A" = Some (VStr "7")
  ∧ history (app edited) = [captured]
  ∧ cellAt (rows (sheetData (app answered))) 1 "A" = Some VNull
  ∧ default ∅ (cellStyles (sheetData (app answered))) !! "0-A" = Some boldStyle
  ∧ history (app answered) = [captured; captured]
  ∧ sheetData (app undone) = captured
  ∧ cellAt (rows (sheetData (app undone))) 1 "A" = Some VNull
  ∧ sheetData (app undone) ≠ sheetData (app edited).
Proof.
  intros requested captured edited answered undone.
  repeat split; try (vm_compute; reflexivity).
  intros Hsame. apply (f_equal (λ d, cellAt (rows d) 1 "A")) in Hsame.
  vm_compute in Hsame. discriminate.
Qed.

Lemma undo_restores_prior_sheet_witness :
  let st : @AppState Z := initialApp id in
  let ui := mkUI st (table (initialUI id)) in
  let ev := DataChange (NewData (rankedSheet 1)) in
  sheetData (handleUndo (app (step zToString parseEmptyObject ev ui)))
  = sheetData st
  ∧ handleUndo st = st.
Proof.
  intros st ui ev.
  destruct (undo_restores_prior_sheet zToString parseEmptyObject
              (NewData (rankedSheet 1)) st
              (createEmptySheet id) [] None false false true)
    as (_ & _ & _ & _ & _ & Hev & Hempty).
  split; [|exact Hempty].
  destruct (Hev ev ui) as [[Hsame _]|[Hundo _]];
    [discriminate|exact I| |exact Hundo].
  apply (f_equal name) in Hsame. vm_compute in Hsame. discriminate.
Defined.

Lemma commit_noop_witness :
  app (handleSaveEdit zToString None None (editing id 0 "5"))
  = app (editing id 0 "5")
  ∧ history (app (handleSaveEdit zToString None None (editing id 0 "6")))
    = [fiveSheet id].
Proof.
  split.
  - apply (commit_noop zToString None None (editing id 0 "5") (mkPos 0 0 "A"));
      reflexivity.
  - destruct (commit_noop zToString None None (editing id 0 "6") (mkPos 0 0 "A"))
      as (_ & Hwrite & _); [reflexivity|].
    destruct Hwrite as (_ & _ & Hhist); [vm_compute; discriminate|].
    exact Hhist.
Defined.

Lemma commit_stores_string_witness :
  cellAt
    (rows (sheetData (app (handleSaveEdit zToString None None (editing id 1 "5")))))
    1 "A"
  = Some (VStr "5").
Proof.
  destruct (commit_stores_string zToString None None (editing id 1 "5")
              (mkPos 1 0 "A"))
    as [Hchanged _]; [reflexivity|].
  apply Hchanged. intros Heq.
  apply (f_equal (λ d, cellAt (rows d) 1 "A")) in Heq.
  vm_compute in Heq. discriminate.
Defined.

Lemma delete_clears_selection_witness :
  let rows' :=
    rows (sheetData (app (handleKeyDown zToString deleteKey blockUI))) in
  cellAt rows' 0 "A" = Some VNull
  ∧ cellAt rows' 0 "B" = Some VNull
  ∧ cellAt rows' 1 "A" = Some VNull
  ∧ cellAt rows' 1 "B" = Some (VStr "C").
Proof.
  intros rows'.
  destruct (delete_clears_selection zToString deleteKey blockUI
              (mkRange (mkPos 0 0 "A") (mkPos 0 1 "B")))
    as (Hin & Hout & Hidx & _); [reflexivity|reflexivity|reflexivity|by left|].
  split; [apply (Hin 0 0); vm_compute; lia|].
  split; [apply (Hin 0 1); vm_compute; lia|].
  split.
  - change (cellAt rows' 1 "A" = cellAt (rows (@blockSheet Z)) 1 "A").
    apply (Hidx ltac:(by_decide) ltac:(vm_compute; lia) 1 0);
      vm_compute; lia.
  - change (cellAt rows' 1 "B" = cellAt (rows (@blockSheet Z)) 1 "B").
    apply Hout. vm_compute. lia.
Defined.

Lemma parse_failure_no_mutation_witness :
  let st' : @AppState Z :=
    runAICommand parseEmptyObject blockSheet
      (Some (Some "I cannot help with that")) 7 blockApp in
  sheetData st' = blockSheet
  ∧ history st' = []
  ∧ content <$> messages st' = [PARSE_FAILURE_INSIGHT].
Proof.
  intros st'.
  destruct (parse_failure_no_mutation (Num:=Z) parseEmptyObject blockSheet
              (Some "I cannot help with that") 7 blockApp)
    as (_ & Hsheet & Hhist & Hmsgs & _); [reflexivity|].
  split; [exact Hsheet|]. split; [exact Hhist|].
  fold st' in Hmsgs. by rewrite Hmsgs.
Defined.

Lemma new_columns_without_rows_counterexample :
  let result : @AIProcessingResult Z :=
    processWithAI parseColumnsOnly (Some "{}") in
  let st' : @AppState Z :=
    runAICommand parseColumnsOnly blockSheet (Some (Some "{}")) 7 blockApp in
  newColumns result = Some ["Total"]
  ∧ columns (sheetData st') = ["A"; "B"]
  ∧ ("Total" ∉ columns (sheetData st'))
  ∧ columns (sheetData st') ≠ newSet (["A"; "B"] ++ ["Total"]).
Proof.
  intros result st'. split; [reflexivity|]. split; [reflexivity|].
  split; [by_decide|]. vm_compute. discriminate.
Qed.

Lemma new_columns_appended_witness :
  columns (sheetData
             (runAICommand (Num:=Z) parseRowsAndColumns blockSheet
                (Some (Some "{}")) 7 blockApp))
  = ["A"; "B"; "Total"].
Proof.
  destruct (new_columns_appended (Num:=Z) parseRowsAndColumns blockSheet
              (Some "{}") 7 blockApp
              [Some {[ "A" := VStr "1"; "Total" := VStr "2" ]}]
              ["B"; "Total"; "Total"])
    as (Hcols & _); [reflexivity|vm_compute; discriminate|reflexivity|].
  exact Hcols.
Defined.

(** The scenario ends with the selection A1:D1, with A1 [null] again and
    E1 still holding "y", with the fifty rows of the sheet and the three
    mutations in the history; one undo brings "x" back into A1. *)
Example fresh_sheet_scenario :
  let ui := run zToString parseEmptyObject scenario (initialUI id) in
  let cell r k := cellAt (rows (sheetData (app ui))) r k in
  selection (app ui) = Some (mkRange (mkPos 0 0 "A") (mkPos 0 3 "D"))
  ∧ cell 0 "A" = Some VNull ∧ cell 0 "B" = Some VNull
  ∧ cell 0 "C" = Some VNull ∧ cell 0 "D" = Some VNull
  ∧ cell 0 "E" = Some (VStr "y")
  ∧ length (rows (sheetData (app ui))) = 50
  ∧ length (history (app ui)) = 3
  ∧ cellAt (rows (sheetData (handleUndo (app ui)))) 0 "A" = Some (VStr "x").
Proof. vm_compute. repeat split. Qed.

(** ** Instances of the further properties *)

Lemma applyStyle_effect_witness :
  let st' := applyStyleToSelection centered (@blockApp Z) in
  default ∅ (cellStyles (sheetData st')) !! "1-B" = Some centered
  ∧ rows (sheetData st') = rows blockSheet
  ∧ history st' = [blockSheet].
Proof.
  intros st'.
  destruct (applyStyle_effect (Num:=Z) centered blockApp blockSelection eq_refl)
    as (Hin & _ & _ & Hrows & _ & _ & _ & _ & Hhist).
  split; [|split; [exact Hrows|exact Hhist]].
  apply (Hin 1 1); vm_compute; lia.
Defined.

Lemma clearFormat_effect_witness :
  let styled := applyStyleToSelection centered (@blockApp Z) in
  let st' := handleClearFormat styled in
  default ∅ (cellStyles (sheetData styled)) !! "0-A" = Some centered
  ∧ default ∅ (cellStyles (sheetData st')) !! "0-A" = None
  ∧ rows (sheetData st') = rows blockSheet.
Proof.
  intros styled st'. split; [reflexivity|].
  destruct (clearFormat_effect (Num:=Z) styled blockSelection eq_refl)
    as (Hin & _ & _ & Hrows & _).
  split; [|exact Hrows].
  apply (Hin 0 0); vm_compute; lia.
Defined.

Lemma merge_standard_witness :
  ∃ st', executeMerge zToString Standard blockApp = Some st'
         ∧ cellAt (rows (sheetData st')) 0 "A" = Some (VStr "A")
         ∧ cellAt (rows (sheetData st')) 0 "B" = Some VNull
         ∧ cellAt (rows (sheetData st')) 1 "B" = Some VNull
         ∧ merges (sheetData st') = Some [blockSelection].
Proof.
  destruct (merge_standard zToString blockApp blockSelection)
    as (st' & Hex & Htl & Hrest & _ & Hms & _).
  - reflexivity.
  - by_decide.
  - vm_compute. lia.
  - vm_compute. eauto.
  - exists st'. split; [exact Hex|]. split; [exact Htl|].
    split; [|split; [|exact Hms]].
    + apply (Hrest 0 1); [vm_compute; lia|discriminate].
    + apply (Hrest 1 1); [vm_compute; lia|discriminate].
Defined.

Lemma merge_errors_witness :
  let below := mkRange (mkPos 5 0 "A") (mkPos 5 1 "B") in
  executeMerge zToString Standard (setSelection (Some below) blockApp) = None
  ∧ executeMerge zToString Content (setSelection (Some below) blockApp) = None.
Proof.
  intros below.
  destruct (merge_errors zToString (setSelection (Some below) blockApp) below eq_refl)
    as [Hstandard Hcontent].
  split.
  - apply Hstandard. reflexivity.
  - apply Hcontent. exists 5, 0. split; [vm_compute; lia|reflexivity].
Defined.

Lemma merge_toggle_decision_witness :
  handleMergeToggle zToString blockApp = Some (setShowMergeModal true blockApp).
Proof.
  destruct (merge_toggle_decision zToString blockApp blockSelection)
    as [Hdialog _].
  - reflexivity.
  - intros m Hm. by apply elem_of_nil in Hm.
  - intros r c [Hr Hc]. vm_compute in Hr, Hc.
    assert (Hr' : r = 0 ∨ r = 1) by lia. assert (Hc' : c = 0 ∨ c = 1) by lia.
    destruct Hr' as [-> | ->], Hc' as [-> | ->]; vm_compute; eauto.
  - apply Hdialog. vm_compute. lia.
Defined.

Lemma mergeInfo_after_merge_witness :
  getMergeInfo (sheetData (mergedApp zToString)) 0 0 = Some (RootCell 2 2)
  ∧ getMergeInfo (sheetData (mergedApp zToString)) 1 1 = Some CoveredCell
  ∧ getMergeInfo (sheetData (mergedApp zToString)) 2 0 = None.
Proof.
  destruct (mergeInfo_after_merge zToString Content blockApp (mergedApp zToString)
              blockSelection eq_refl)
    as (Hroot & Hcovered & Hout).
  - vm_compute. reflexivity.
  - intros m r c Hm. by apply elem_of_nil in Hm.
  - split; [exact Hroot|]. split.
    + apply (Hcovered 1 1); [vm_compute; lia|discriminate].
    + apply (Hout 2 0). vm_compute. lia.
Defined.

Lemma moveSelection_in_grid_witness :
  ∃ nextEnd,
    selection (app (moveSelection 1 0 false (@blockUI Z) blockUI))
    = Some (mkRange nextEnd nextEnd)
    ∧ Z.of_nat (rowIndex nextEnd) = 1%Z
    ∧ Z.of_nat (colIndex nextEnd) = 1%Z
    ∧ columns (@blockSheet Z) !! colIndex nextEnd = Some (colKey nextEnd).
Proof.
  destruct (moveSelection_in_grid (Num:=Z) 1 0 false blockUI blockUI
              (mkRange (mkPos 0 0 "A") (mkPos 0 1 "B")))
    as (nextEnd & Hsel & _ & Hkey & Hr & Hc & _); [reflexivity|done|done|].
  exists nextEnd. split; [exact Hsel|]. split; [exact Hr|].
  split; [exact Hc|exact Hkey].
Defined.

Lemma other_keys_keep_sheet_witness :
  sheetData (app (handleKeyDown zToString arrowDown blockUI)) = blockSheet
  ∧ history (app (handleKeyDown zToString arrowDown blockUI)) = [].
Proof.
  destruct (other_keys_keep_sheet zToString arrowDown blockUI)
    as (Hsheet & Hhist & _).
  - discriminate.
  - intros _. right. split; discriminate.
  - split; [exact Hsheet|exact Hhist].
Defined.

Lemma typing_opens_editor_witness :
  handleKeyDown zToString (mkKey "x" false false) blockUI
  = {| app := app blockUI;
       table := {| isEditing := true; editingPos := Some (mkPos 0 0 "A");
                   editValue := "x"; suggestionFilter := None |} |}.
Proof.
  apply (typing_opens_editor zToString (mkKey "x" false false) blockUI
           (mkRange (mkPos 0 0 "A") (mkPos 0 1 "B")));
    reflexivity.
Defined.

Lemma enter_twice_keeps_sheet_witness :
  let ui1 := handleKeyDown zToString enterKey blockUI in
  let ui2 := handleKeyDown zToString enterKey ui1 in
  editValue (table ui1) = "A"
  ∧ sheetData (app ui2) = blockSheet
  ∧ history (app ui2) = []
  ∧ isEditing (table ui2) = false.
Proof.
  intros ui1 ui2.
  destruct (enter_twice_keeps_sheet zToString enterKey blockUI
              (mkRange (mkPos 0 0 "A") (mkPos 0 1 "B")))
    as (_ & _ & Hbuffer & _ & Hsheet & Hhist & Hed & _); [reflexivity..|].
  split; [exact Hbuffer|]. split; [exact Hsheet|]. split; [exact Hhist|exact Hed].
Defined.

Lemma header_selections_witness :
  ∃ sel,
    selection (app (ui (handleColHeaderMouseDown zToString false "B" 1 blockGrid)))
    = Some sel
    ∧ covers sel 0 1 ∧ covers sel 1 1 ∧ ¬ covers sel 1 0 ∧ ¬ covers sel 2 1.
Proof.
  destruct (header_selections zToString blockGrid "B" 1 0)
    as ((sel & Hsel & Hcov) & _); [done|done|].
  exists sel. split; [exact Hsel|].
  split; [apply Hcov; vm_compute; lia|].
  split; [apply Hcov; vm_compute; lia|].
  split; intros [Hr Hc]%Hcov; vm_compute in Hr, Hc; lia.
Defined.

Lemma header_drags_witness :
  let pressed := handleRowHeaderMouseDown zToString false 0 blockGrid in
  ∃ sel,
    selection (app (ui (handleRowHeaderMouseEnter 1 pressed))) = Some sel
    ∧ covers sel 0 0 ∧ covers sel 1 1 ∧ ¬ covers sel 2 0.
Proof.
  intros pressed.
  destruct (header_drags zToString blockGrid "A" "B" 0 1 0 1)
    as (_ & Hrow); [reflexivity|done|done|].
  destruct (Hrow (handleRowHeaderMouseEnter 1 pressed)) as (sel & Hsel & Hcov);
    [by left|].
  exists sel. split; [exact Hsel|].
  split; [apply Hcov; vm_compute; lia|].
  split; [apply Hcov; vm_compute; lia|].
  intros [Hr Hc]%Hcov. vm_compute in Hr. lia.
Defined.

Lemma press_commits_edit_witness :
  let g' := handleMouseDown zToString 0 0 "A" (editingGrid id 1 "7") in
  cellAt (rows (sheetData (app (ui g')))) 1 "A" = Some (VStr "7")
  ∧ cellAt (rows (sheetData (app (ui g')))) 0 "A" = Some (VNum 5%Z)
  ∧ selection (app (ui g')) = Some (mkRange (mkPos 0 0 "A") (mkPos 0 0 "A"))
  ∧ isEditing (table (ui g')) = false.
Proof.
  intros g'.
  destruct (press_commits_edit zToString (editingGrid id 1 "7") (mkPos 1 0 "A")
              0 0 "A")
    as (Hsel & _ & Hother); [reflexivity..|].
  destruct Hother as (Hed & _ & _ & Hrest & Hwrite); [discriminate|].
  destruct Hwrite as [Hcell _]; [discriminate|].
  split; [exact Hcell|]. split; [|split; [exact Hsel|exact Hed]].
  apply (Hrest 0 "A"). discriminate.
Defined.

Lemma select_all_delete_witness :
  let rows' :=
    rows (sheetData
            (app (handleKeyDown zToString deleteKey (ui (handleSelectAll zToString blockGrid))))) in
  cellAt rows' 0 "A" = Some VNull ∧ cellAt rows' 0 "B" = Some VNull
  ∧ cellAt rows' 1 "A" = Some VNull ∧ cellAt rows' 1 "B" = Some VNull
  ∧ length rows' = 2.
Proof.
  intros rows'.
  destruct (select_all_delete zToString deleteKey blockGrid)
    as (Hcells & Hlen & _); [reflexivity|reflexivity|by left|done|done|].
  split; [apply (Hcells 0 0); vm_compute; lia|].
  split; [apply (Hcells 0 1); vm_compute; lia|].
  split; [apply (Hcells 1 0); vm_compute; lia|].
  split; [apply (Hcells 1 1); vm_compute; lia|exact Hlen].
Defined.

Lemma filtered_spec_witness :
  ∃ f, docName f = "SUM" ∧ f ∈ filtered "su" ∧ length (filtered "su") ≤ 2.
Proof.
  destruct (filtered_spec "su") as (_ & _ & _ & Hall & _); [reflexivity|].
  destruct Hall as [Hlen Hin]; [discriminate|].
  exists (nth 12 SUPPORTED_FUNCTIONS (mkDoc "" "" "")).
  split; [reflexivity|]. split; [|exact Hlen].
  apply Hin; [|reflexivity].
  exact (list_elem_of_lookup_2 SUPPORTED_FUNCTIONS 12 _ eq_refl).
Defined.

Lemma suggestion_navigation_witness :
  (suggestionsKeyDown "ArrowDown" "su" 0).1 = 1
  ∧ (suggestionsKeyDown "ArrowUp" "su" 0).1 = 1
  ∧ (suggestionsKeyDown "ArrowDown" "su" 1).1 = 0
  ∧ (suggestionsKeyDown "Enter" "su" 1).2 = AIRequest
  ∧ ∃ f, (suggestionsKeyDown "Enter" "su" 0).2 = SelectFunction (docName f)
         ∧ f ∈ SUPPORTED_FUNCTIONS.
Proof.
  destruct (suggestion_navigation "su" 0) as (Hdown & Hup & _ & _ & _ & _ & _ & _ & Hkey);
    [vm_compute; lia|].
  destruct (suggestion_navigation "su" 1) as (Hwrap & _ & _ & _ & _ & _ & _ & _ & Hlast);
    [vm_compute; lia|].
  split; [exact Hdown|]. split; [exact Hup|]. split; [exact Hwrap|].
  split; [by apply (Hlast "Enter"); [left|]|].
  destruct (Hkey "Enter") as (_ & _ & Hsel); [by left|].
  destruct Hsel as (f & _ & Hf & Hin & _); [vm_compute; lia|].
  exists f. split; [exact Hf|exact Hin].
Defined.

Lemma assistant_styles_witness :
  let st' : @AppState Z :=
    runAICommand parseBoldA1 (fiveSheet id) (Some (Some "{}")) 7 (app (fiveUI id)) in
  default ∅ (cellStyles (sheetData st')) !! "0-A" = Some boldStyle
  ∧ default ∅ (cellStyles (sheetData st')) !! "1-A" = None
  ∧ history st' = [fiveSheet id].
Proof.
  intros st'.
  destruct (assistant_styles (Num:=Z) parseBoldA1 (fiveSheet id) (Some "{}") 7
              (app (fiveUI id))
              (mkRaw None (Some [mkStyleUpdate "0-A" (Some boldStyle)])
                 (Some "A1 is bold now.") None None None)
              [mkStyleUpdate "0-A" (Some boldStyle)])
    as (Hstyle & Hhist & _); [reflexivity..|].
  split; [exact (Hstyle "0-A")|]. split; [exact (Hstyle "1-A")|exact Hhist].
Defined.

Lemma suggestion_chosen_witness :
  let typed := handleInputChange "=su" (@blockUI Z) in
  let chosen :=
    applySuggestionAction (suggestionsKeyDown "Enter" "su" 0).2 typed in
  suggestionFilter (table typed) = Some "su"
  ∧ editValue (table chosen) = "=SUM("
  ∧ suggestionFilter (table chosen) = None.
Proof.
  intros typed chosen.
  destruct (suggestion_chosen (Num:=Z) "su" blockUI "Enter")
    as (Hfilter & f & Hf & _ & _ & Hvalue & Hclosed & _);
    [reflexivity|discriminate|by left|].
  split; [exact Hfilter|]. split; [|exact Hclosed].
  fold typed chosen in Hvalue. rewrite Hvalue.
  injection Hf as <-. reflexivity.
Defined.

Lemma hexToARGB_spec_witness :
  hexToARGB (Some "#ff00aa") = Some "FFFF00AA"
  ∧ hexToARGB (Some "ff00aa") = Some "FFFF00AA".
Proof.
  destruct (hexToARGB_spec "ff00aa") as (Hhash & _ & _ & _ & Hplain & _);
    [reflexivity|].
  split; [exact Hhash|]. rewrite Hplain by discriminate. exact Hhash.
Defined.
